(** * Brennpunkt: the LCOV record parser and the priority scorer

    A shallow embedding of [parseLcov] (src/parser.ts) and of
    [calculateOverallCoverage], [analyzeFile] and [analyzeCoverage]
    (src/analyzer.ts), with the properties stated about them; and of the
    code built on them in the server tools: the cache, the discovery and
    loading of reports and of brennpunkt.yaml (src/mcp/tools/shared.ts),
    [getPriorities], and the lookup and the estimate of the file-coverage
    and impact tools.

    Modelling conventions.
    - A JavaScript string is the list of its UTF-16 code units ([list N]).
    - Numbers come in two models.  Module [JS] has the real-number model:
      a number is [NaN] or a real, so it has no rounding error and no
      infinities.  It is used for what does not depend on them: NaN
      propagation, comparisons and orderings, and sums of integers that
      binary64 holds exactly.  A statement in this model that would fail
      for binary64 through rounding or overflow carries the hypothesis
      that rules the case out ([safeInteger], [exactTotals],
      [wellCounted]).  Module [Portable] has the analyzer over an
      abstract arithmetic, with the real-number model and binary64
      ([Binary64], on the kernel's floating-point numbers) as instances:
      what is stated about the values the analyzer computes is stated
      there.  [analyzeFile_portable] and
      [calculateOverallCoverage_portable] relate the two embeddings.
    - Arrays are lists; [push] appends at the end.
    - A [Map] is the list of its entries in insertion order.  The two
      module-level caches are passed in and out of the loaders; the file
      system is a record of the four queries the loaders make. *)

From Stdlib Require Import List ZArith NArith Bool String Ascii.
From Stdlib Require Import DecimalString DecimalPos DecimalN DecimalZ.
From Stdlib Require Import Reals Lra Lia Permutation Sorted.
From Stdlib Require Floats.
Import ListNotations.

(* ================================================================== *)
(** ** JavaScript strings *)

Module JS.

Abbreviation jsstring := (list N).

(** A string literal of the source, as code units. *)
Definition js (s : string) : jsstring :=
  map N_of_ascii (list_ascii_of_string s).

(** ECMAScript WhiteSpace and LineTerminator code points: what
    [String.prototype.trim] strips and what [parseInt] skips. *)
Definition isWhiteSpace (c : N) : bool :=
  ((c =? 9) || (c =? 10) || (c =? 11) || (c =? 12) || (c =? 13)
   || (c =? 32) || (c =? 160) || (c =? 5760)
   || ((8192 <=? c) && (c <=? 8202))
   || (c =? 8232) || (c =? 8233) || (c =? 8239) || (c =? 8287)
   || (c =? 12288) || (c =? 65279))%N.

Fixpoint trimStart (s : jsstring) : jsstring :=
  match s with
  | [] => []
  | c :: r => if isWhiteSpace c then trimStart r else s
  end.

Fixpoint trimEnd (s : jsstring) : jsstring :=
  match s with
  | [] => []
  | c :: r =>
      match trimEnd r with
      | [] => if isWhiteSpace c then [] else [c]
      | r' => c :: r'
      end
  end.

(** [s.trim()] *)
Definition trim (s : jsstring) : jsstring := trimEnd (trimStart s).

(** [s.startsWith(p)] *)
Fixpoint startsWith (s p : jsstring) {struct p} : bool :=
  match p with
  | [] => true
  | c :: p' =>
      match s with
      | [] => false
      | d :: s' => (d =? c)%N && startsWith s' p'
      end
  end.

(** [s.slice(n)] for a non-negative [n] *)
Definition slice (n : nat) (s : jsstring) : jsstring := skipn n s.

(** [s === t] on strings *)
Fixpoint streq (s t : jsstring) : bool :=
  match s, t with
  | [], [] => true
  | c :: s', d :: t' => (c =? d)%N && streq s' t'
  | _, _ => false
  end.

Definition newline : N := 10%N.

(** [s.split('\n')]: never empty, the empty string gives one empty piece. *)
Fixpoint split (s : jsstring) : list jsstring :=
  match s with
  | [] => [[]]
  | c :: r =>
      if (c =? newline)%N then [] :: split r
      else match split r with
           | [] => [[c]]
           | l :: ls => (c :: l) :: ls
           end
  end.

(** *** Numbers *)

(** The real-number model of a JavaScript number: [NaN] or a real.  It
    agrees with binary64 on NaN propagation and on comparisons, and on
    [+], [-] and [*] as long as operands and result are integers of
    absolute value at most 2^53.  It has no rounding ([23/160*100] is
    14.375 here and 14.374999999999998 in binary64) and no infinities
    (an overflow or a division by zero).  Module [Binary64] has the
    numbers of the code. *)
Inductive number : Type :=
| NaN : number
| Fin : R -> number.

Definition ofZ (z : Z) : number := Fin (IZR z).

Definition lift2 (op : R -> R -> R) (a b : number) : number :=
  match a, b with
  | Fin x, Fin y => Fin (op x y)
  | _, _ => NaN
  end.

Definition add := lift2 Rplus.
Definition sub := lift2 Rminus.
Definition mul := lift2 Rmult.

(** [a / b].  A zero divisor would give an infinity or NaN in JavaScript;
    the model has no infinities and answers [NaN] there.  The analyzer
    only divides under a [found > 0] test. *)
Definition div (a b : number) : number :=
  match a, b with
  | Fin x, Fin y => if Req_dec_T y 0 then NaN else Fin (x / y)
  | _, _ => NaN
  end.

(** [a > b] and [a >= b]: false as soon as one side is NaN. *)
Definition gt (a b : number) : bool :=
  match a, b with
  | Fin x, Fin y => if Rlt_dec y x then true else false
  | _, _ => false
  end.

Definition ge (a b : number) : bool :=
  match a, b with
  | Fin x, Fin y => if Rle_dec y x then true else false
  | _, _ => false
  end.

(** [Math.round]: the nearest integer, ties towards +infinity. *)
Definition Math_round (a : number) : number :=
  match a with
  | Fin x => Fin (IZR (Zfloor (x + / 2)))
  | NaN => NaN
  end.

(** [Math.max(a, b)] *)
Definition Math_max (a b : number) : number := lift2 Rmax a b.

(** [Math.log10]; non-positive arguments (-Infinity or NaN in
    JavaScript) are answered [NaN]. *)
Definition Math_log10 (a : number) : number :=
  match a with
  | Fin x => if Rlt_dec 0 x then Fin (ln x / ln 10) else NaN
  | NaN => NaN
  end.

(** ToBoolean on a number: [NaN] and zero are falsy. *)
Definition truthy (a : number) : bool :=
  match a with
  | Fin x => if Req_dec_T x 0 then false else true
  | NaN => false
  end.

(** ToIntegerOrInfinity: truncation towards zero, [NaN] gives 0. *)
Definition toInteger (a : number) : Z :=
  match a with
  | Fin x => if Rle_dec 0 x then Zfloor x else (- Zfloor (- x))%Z
  | NaN => 0%Z
  end.

(** *** parseInt(s, 10) *)

Definition digit (c : N) : option N :=
  if ((48 <=? c) && (c <=? 57))%N then Some (c - 48)%N else None.

(** The longest prefix of decimal digits, read left to right. *)
Fixpoint digits (s : jsstring) : list N :=
  match s with
  | [] => []
  | c :: r =>
      match digit c with
      | Some d => d :: digits r
      | None => []
      end
  end.

Definition digitsValue (ds : list N) : N :=
  fold_left (fun acc d => (acc * 10 + d)%N) ds 0%N.

(** The integer [parseInt(s, 10)] reads, [None] when it answers NaN:
    leading white space is skipped, one sign is accepted, then the
    longest run of digits is read and the rest ignored. *)
Definition parseIntZ (s : jsstring) : option Z :=
  let S := trimStart s in
  let '(sign, body) :=
    match S with
    | c :: r =>
        if (c =? 45)%N then ((-1)%Z, r)
        else if (c =? 43)%N then (1%Z, r)
        else (1%Z, S)
    | [] => (1%Z, S)
    end in
  match digits body with
  | [] => None
  | ds => Some (sign * Z.of_N (digitsValue ds))%Z
  end.

(** In the real-number model the integer read is held exactly.  The
    code holds it exactly when its absolute value is at most 2^53; beyond
    that it holds the nearest binary64 value ([Binary64.ofZ]), an
    infinity from about 309 digits on. *)
Definition parseInt (s : jsstring) : number :=
  match parseIntZ s with
  | Some z => ofZ z
  | None => NaN
  end.

(** [a.slice(0, end)] on arrays: a negative [end] counts from the back. *)
Definition array_slice0 {A : Type} (l : list A) (e : number) : list A :=
  let len := Z.of_nat (List.length l) in
  let rel := toInteger e in
  let final := if (rel <? 0)%Z then Z.max (len + rel) 0 else Z.min rel len in
  firstn (Z.to_nat final) l.

(** [a.sort(cmp)].  The comparator answer [v] is read as the standard
    says: NaN counts as 0, [v > 0] puts the first argument after the
    second.  The sort is stable.  For a consistent comparator every
    conforming engine returns this list; otherwise the order is left to
    the engine and the model is one possible outcome. *)
Section Sort.
Variable A : Type.
Variable cmp : A -> A -> number.

Fixpoint insert (x : A) (l : list A) : list A :=
  match l with
  | [] => [x]
  | y :: l' => if gt (cmp x y) (Fin 0) then y :: insert x l' else x :: l
  end.

Fixpoint array_sort (l : list A) : list A :=
  match l with
  | [] => []
  | x :: l' => insert x (array_sort l')
  end.
End Sort.

Arguments insert {A} cmp x l.
Arguments array_sort {A} cmp l.

End JS.
Import JS.

(* ================================================================== *)
(** ** The record parser (src/parser.ts) *)

Module Parser.

(** [LcovFileData] of src/types.ts (its text follows the formatter in
    src/src/formatter.ts, l.203-211): the object [parseLcov] builds, the
    spec's FileTally. *)
Record LcovFileData : Type := mkLcov {
  file : jsstring;
  linesFound : number;
  linesHit : number;
  functionsFound : number;
  functionsHit : number;
  branchesFound : number;
  branchesHit : number
}.

(** Field assignments [current.f = v]. *)
Definition set_linesFound (v : number) (c : LcovFileData) :=
  mkLcov (file c) v (linesHit c) (functionsFound c) (functionsHit c)
         (branchesFound c) (branchesHit c).
Definition set_linesHit (v : number) (c : LcovFileData) :=
  mkLcov (file c) (linesFound c) v (functionsFound c) (functionsHit c)
         (branchesFound c) (branchesHit c).
Definition set_functionsFound (v : number) (c : LcovFileData) :=
  mkLcov (file c) (linesFound c) (linesHit c) v (functionsHit c)
         (branchesFound c) (branchesHit c).
Definition set_functionsHit (v : number) (c : LcovFileData) :=
  mkLcov (file c) (linesFound c) (linesHit c) (functionsFound c) v
         (branchesFound c) (branchesHit c).
Definition set_branchesFound (v : number) (c : LcovFileData) :=
  mkLcov (file c) (linesFound c) (linesHit c) (functionsFound c)
         (functionsHit c) v (branchesHit c).
Definition set_branchesHit (v : number) (c : LcovFileData) :=
  mkLcov (file c) (linesFound c) (linesHit c) (functionsFound c)
         (functionsHit c) (branchesFound c) v.

(** The loop state: the array [files] and the slot [current]. *)
Definition state : Type := (list LcovFileData * option LcovFileData)%type.

(** One iteration of the [for] loop of [parseLcov]. *)
Definition step (st : state) (line : jsstring) : state :=
  let '(files, current) := st in
  let trimmed := trim line in
  if startsWith trimmed (js "SF:") then
    (files, Some (mkLcov (slice 3 trimmed)
                         (Fin 0) (Fin 0) (Fin 0) (Fin 0) (Fin 0) (Fin 0)))
  else
    match current with
    | Some cur =>
        if startsWith trimmed (js "LF:") then
          (files, Some (set_linesFound (parseInt (slice 3 trimmed)) cur))
        else if startsWith trimmed (js "LH:") then
          (files, Some (set_linesHit (parseInt (slice 3 trimmed)) cur))
        else if startsWith trimmed (js "FNF:") then
          (files, Some (set_functionsFound (parseInt (slice 4 trimmed)) cur))
        else if startsWith trimmed (js "FNH:") then
          (files, Some (set_functionsHit (parseInt (slice 4 trimmed)) cur))
        else if startsWith trimmed (js "BRF:") then
          (files, Some (set_branchesFound (parseInt (slice 4 trimmed)) cur))
        else if startsWith trimmed (js "BRH:") then
          (files, Some (set_branchesHit (parseInt (slice 4 trimmed)) cur))
        else if streq trimmed (js "end_of_record") then
          (files ++ [cur], None)
        else (files, Some cur)
    | None => (files, None)
    end.

(** The loop over a list of lines, from a given state. *)
Definition run (st : state) (lines : list jsstring) : state :=
  fold_left step lines st.

Definition parseLines (lines : list jsstring) : list LcovFileData :=
  fst (run ([], None) lines).

Definition parseLcov (content : jsstring) : list LcovFileData :=
  parseLines (split content).

End Parser.
Import Parser.

(* ================================================================== *)
(** ** Coverage analysis and priority scoring (src/analyzer.ts) *)

Module Analyzer.

(** [PriorityWeights], [CoverageMetric], [OverallCoverage],
    [AnalyzedFile] and [AnalysisResult] of src/types.ts (its text follows
    the formatter in src/src/formatter.ts, l.183-251).  Field names shared
    by several types carry a prefix, and [fileCount], the length of an
    array, is a natural number. *)
Record PriorityWeights : Type := mkWeights {
  w_branches : number;
  w_functions : number;
  w_lines : number
}.

Record CoverageMetric : Type := mkMetric {
  found : number;
  hit : number;
  coverage : number
}.

Record OverallCoverage : Type := mkOverall {
  o_lines : CoverageMetric;
  o_functions : CoverageMetric;
  o_branches : CoverageMetric;
  fileCount : nat
}.

Record AnalyzedFile : Type := mkAnalyzed {
  a_file : jsstring;
  a_lines : CoverageMetric;
  a_functions : CoverageMetric;
  a_branches : CoverageMetric;
  priorityScore : number;
  uncoveredLines : number;
  uncoveredBranches : number
}.

Record AnalysisResult : Type := mkResult {
  overall : OverallCoverage;
  files : list AnalyzedFile
}.

(** The accumulator object of the [reduce] in [calculateOverallCoverage]. *)
Record Totals : Type := mkTotals {
  t_linesFound : number;
  t_linesHit : number;
  t_functionsFound : number;
  t_functionsHit : number;
  t_branchesFound : number;
  t_branchesHit : number
}.

Definition sumTotals (files : list LcovFileData) : Totals :=
  fold_left
    (fun acc f =>
       mkTotals (add (t_linesFound acc) (linesFound f))
                (add (t_linesHit acc) (linesHit f))
                (add (t_functionsFound acc) (functionsFound f))
                (add (t_functionsHit acc) (functionsHit f))
                (add (t_branchesFound acc) (branchesFound f))
                (add (t_branchesHit acc) (branchesHit f)))
    files
    (mkTotals (Fin 0) (Fin 0) (Fin 0) (Fin 0) (Fin 0) (Fin 0)).

Definition calculateOverallCoverage (files : list LcovFileData)
  : OverallCoverage :=
  let totals := sumTotals files in
  mkOverall
    (mkMetric (t_linesFound totals) (t_linesHit totals)
       (if gt (t_linesFound totals) (Fin 0)
        then div (Math_round
                    (mul (div (t_linesHit totals) (t_linesFound totals))
                         (Fin 10000)))
                 (Fin 100)
        else Fin 100))
    (mkMetric (t_functionsFound totals) (t_functionsHit totals)
       (if gt (t_functionsFound totals) (Fin 0)
        then div (Math_round
                    (mul (div (t_functionsHit totals) (t_functionsFound totals))
                         (Fin 10000)))
                 (Fin 100)
        else Fin 100))
    (mkMetric (t_branchesFound totals) (t_branchesHit totals)
       (if gt (t_branchesFound totals) (Fin 0)
        then div (Math_round
                    (mul (div (t_branchesHit totals) (t_branchesFound totals))
                         (Fin 10000)))
                 (Fin 100)
        else Fin 100))
    (List.length files).

Definition analyzeFile (f : LcovFileData) (weights : PriorityWeights)
  : AnalyzedFile :=
  let lineCoverage :=
    if gt (linesFound f) (Fin 0)
    then mul (div (linesHit f) (linesFound f)) (Fin 100)
    else Fin 100 in
  let functionCoverage :=
    if gt (functionsFound f) (Fin 0)
    then mul (div (functionsHit f) (functionsFound f)) (Fin 100)
    else Fin 100 in
  let branchCoverage :=
    if gt (branchesFound f) (Fin 0)
    then mul (div (branchesHit f) (branchesFound f)) (Fin 100)
    else Fin 100 in
  let lineGap := sub (Fin 100) lineCoverage in
  let functionGap := sub (Fin 100) functionCoverage in
  let branchGap := sub (Fin 100) branchCoverage in
  let sizeFactor :=
    Math_log10 (add (Math_max (linesFound f) (Fin 1)) (Fin 1)) in
  let priorityScore :=
    mul (add (add (mul branchGap (w_branches weights))
                  (mul functionGap (w_functions weights)))
             (mul lineGap (w_lines weights)))
        sizeFactor in
  mkAnalyzed
    (file f)
    (mkMetric (linesFound f) (linesHit f)
              (div (Math_round (mul lineCoverage (Fin 100))) (Fin 100)))
    (mkMetric (functionsFound f) (functionsHit f)
              (div (Math_round (mul functionCoverage (Fin 100))) (Fin 100)))
    (mkMetric (branchesFound f) (branchesHit f)
              (div (Math_round (mul branchCoverage (Fin 100))) (Fin 100)))
    (div (Math_round (mul priorityScore (Fin 100))) (Fin 100))
    (sub (linesFound f) (linesHit f))
    (sub (branchesFound f) (branchesHit f)).

(** The comparator [(a, b) => b.priorityScore - a.priorityScore]. *)
Definition byScoreDesc (a b : AnalyzedFile) : number :=
  sub (priorityScore b) (priorityScore a).

(** The files that pass the [minLines] filter, scored, in input order. *)
Definition survivors (files : list LcovFileData) (weights : PriorityWeights)
  (minLines : number) : list AnalyzedFile :=
  map (fun f => analyzeFile f weights)
      (filter (fun f => ge (linesFound f) minLines) files).

(** [top] is [number | null]: [None] is [null]. *)
Definition analyzeCoverage (files : list LcovFileData)
  (weights : PriorityWeights) (minLines : number) (top : option number)
  : AnalysisResult :=
  let overall := calculateOverallCoverage files in
  let analyzed := array_sort byScoreDesc (survivors files weights minLines) in
  let results :=
    match top with
    | Some t => if truthy t then array_slice0 analyzed t else analyzed
    | None => analyzed
    end in
  mkResult overall results.

End Analyzer.
Import Analyzer.

(* ================================================================== *)
(** ** Vocabulary of the specification *)

Module Spec.

(** *** Report text *)

(** The six counter markers of a record. *)
Inductive counter : Type := LF | LH | FNF | FNH | BRF | BRH.

Definition marker (c : counter) : jsstring :=
  match c with
  | LF => js "LF:"
  | LH => js "LH:"
  | FNF => js "FNF:"
  | FNH => js "FNH:"
  | BRF => js "BRF:"
  | BRH => js "BRH:"
  end.

(** The field of a tally a counter marker feeds. *)
Definition field (c : counter) (t : LcovFileData) : number :=
  match c with
  | LF => linesFound t
  | LH => linesHit t
  | FNF => functionsFound t
  | FNH => functionsHit t
  | BRF => branchesFound t
  | BRH => branchesHit t
  end.

Definition setField (c : counter) (v : number) (t : LcovFileData)
  : LcovFileData :=
  match c with
  | LF => set_linesFound v t
  | LH => set_linesHit v t
  | FNF => set_functionsFound v t
  | FNH => set_functionsHit v t
  | BRF => set_branchesFound v t
  | BRH => set_branchesHit v t
  end.

(** A line carrying the file-path marker, the end-of-record marker, or
    the marker of counter [c]; markers are matched on the trimmed line. *)
Definition isStart (l : jsstring) : bool := startsWith (trim l) (js "SF:").
Definition isEnd (l : jsstring) : bool := streq (trim l) (js "end_of_record").
Definition isCounter (c : counter) (l : jsstring) : bool :=
  startsWith (trim l) (marker c).

(** The value part of a counter line. *)
Definition counterText (c : counter) (l : jsstring) : jsstring :=
  slice (List.length (marker c)) (trim l).

(** A line inside a record: neither opens nor closes one. *)
Definition isBody (l : jsstring) : bool := negb (isStart l) && negb (isEnd l).

(** The remainder of a file-path line after the marker, as written: only
    the white space before the marker is dropped. *)
Definition untrimmedRemainder (l : jsstring) : jsstring :=
  slice 3 (trimStart l).

(** A piece of text without a line break. *)
Definition oneLine (l : jsstring) : bool :=
  forallb (fun c => negb (c =? newline)%N) l.

(** Lines joined by line breaks. *)
Fixpoint unlines (ls : list jsstring) : jsstring :=
  match ls with
  | [] => []
  | [l] => l
  | l :: ls' => l ++ newline :: unlines ls'
  end.

(** The value the last [c] line of a record body leaves in the field,
    [d] when the body has no such line. *)
Definition lastValue (c : counter) (body : list jsstring) (d : number)
  : number :=
  fold_left
    (fun acc l => if isCounter c l then parseInt (counterText c l) else acc)
    body d.

(** The decimal numeral of an integer. *)
Definition showZ (z : Z) : jsstring :=
  js (NilEmpty.string_of_int (Z.to_int z)).

Definition counter_eqb (c c' : counter) : bool :=
  match c, c' with
  | LF, LF | LH, LH | FNF, FNF | FNH, FNH | BRF, BRF | BRH, BRH => true
  | _, _ => false
  end.

Definition allCounters : list counter := [LF; LH; FNF; FNH; BRF; BRH].

(** A record as a producer writes it: a path, six integer counters, and
    the order in which the six counter lines follow the file-path line. *)
Record WellFormedRecord : Type := mkRecord {
  path : jsstring;
  order : list counter;
  lf : Z; lh : Z; fnf : Z; fnh : Z; brf : Z; brh : Z
}.

Definition value (c : counter) (r : WellFormedRecord) : Z :=
  match c with
  | LF => lf r
  | LH => lh r
  | FNF => fnf r
  | FNH => fnh r
  | BRF => brf r
  | BRH => brh r
  end.

(** A path that survives as written: on one line, and not ending in white
    space (the parser reads it from the trimmed line). *)
Definition pathOk (p : jsstring) : bool := oneLine p && streq (trimEnd p) p.

(** An integer a JavaScript number holds exactly. *)
Definition safeInteger (z : Z) : bool := (Z.abs z <=? 2 ^ 53)%Z.

(** Well-formed: a path as above, each of the six counters written once,
    in any order, and counters that JavaScript numbers hold exactly. *)
Definition wellFormed (r : WellFormedRecord) : bool :=
  pathOk (path r)
  && forallb (fun c => existsb (counter_eqb c) (order r)) allCounters
  && (List.length (order r) =? 6)%nat
  && forallb (fun c => safeInteger (value c r)) allCounters.

(** Well-formed in the words of the round-trip property alone: a path on
    one line and each of the six counters written once. *)
Definition wellFormedAsWorded (r : WellFormedRecord) : bool :=
  oneLine (path r)
  && forallb (fun c => existsb (counter_eqb c) (order r)) allCounters
  && (List.length (order r) =? 6)%nat.

Definition counterLine (r : WellFormedRecord) (c : counter) : jsstring :=
  marker c ++ showZ (value c r).

(** The text of a record, line by line. *)
Definition recordLines (r : WellFormedRecord) : list jsstring :=
  (js "SF:" ++ path r)
    :: map (counterLine r) (order r) ++ [js "end_of_record"].

Definition render (rs : list WellFormedRecord) : jsstring :=
  unlines (List.concat (map recordLines rs)).

(** The tally a record stands for. *)
Definition tallyOf (r : WellFormedRecord) : LcovFileData :=
  mkLcov (path r) (ofZ (lf r)) (ofZ (lh r)) (ofZ (fnf r)) (ofZ (fnh r))
         (ofZ (brf r)) (ofZ (brh r)).

(** *** Scoring *)

(** Rounding to two decimal places, as the analyzer writes it. *)
Definition round2 (x : number) : number :=
  div (Math_round (mul x (Fin 100))) (Fin 100).

(** coveragePercent = hit/found*100 when found > 0, else 100. *)
Definition coveragePercent (found hit : number) : number :=
  if gt found (Fin 0) then mul (div hit found) (Fin 100) else Fin 100.

(** Gap: 100 - coveragePercent. *)
Definition gap (found hit : number) : number :=
  sub (Fin 100) (coveragePercent found hit).

(** log10(max(linesFound, 1) + 1) *)
Definition sizeFactor (linesFound : number) : number :=
  Math_log10 (add (Math_max linesFound (Fin 1)) (Fin 1)).

(** (branchGap * weights.branches + functionGap * weights.functions
     + lineGap * weights.lines) * sizeFactor *)
Definition rawScore (f : LcovFileData) (w : PriorityWeights) : number :=
  mul (add (add (mul (gap (branchesFound f) (branchesHit f)) (w_branches w))
                (mul (gap (functionsFound f) (functionsHit f)) (w_functions w)))
           (mul (gap (linesFound f) (linesHit f)) (w_lines w)))
      (sizeFactor (linesFound f)).

(** A number that is not NaN. *)
Definition finite (x : number) : Prop := x <> NaN.

Definition nonneg (x : number) : Prop :=
  match x with
  | Fin r => (0 <= r)%R
  | NaN => False
  end.


Definition finiteTally (f : LcovFileData) : Prop :=
  finite (linesFound f) /\ finite (linesHit f) /\
  finite (functionsFound f) /\ finite (functionsHit f) /\
  finite (branchesFound f) /\ finite (branchesHit f).

Definition finiteWeights (w : PriorityWeights) : Prop :=
  finite (w_branches w) /\ finite (w_functions w) /\ finite (w_lines w).

(** Descending order of the stored priority score. *)
Definition descending (l : list AnalyzedFile) : Prop :=
  StronglySorted
    (fun a b => ge (priorityScore a) (priorityScore b) = true) l.

End Spec.
Import Spec.

(* ================================================================== *)
(** ** Further vocabulary: report lines *)

Module Report.

(** A line the parser reacts to: a file-path line, an end-of-record line
    or a counter line. *)
Definition isRelevant (l : jsstring) : bool :=
  isStart l || isEnd l || existsb (fun c => isCounter c l) allCounters.

(** Whether a record is open after the given lines: a file-path line
    opens one, an end-of-record line closes it. *)
Definition openAtEnd (ls : list jsstring) : bool :=
  fold_left
    (fun o l => if isStart l then true else if isEnd l then false else o)
    ls false.

(** The number of lines of a kind. *)
Definition countLines (p : jsstring -> bool) (ls : list jsstring) : nat :=
  List.length (filter p ls).

(** 1 for an open record slot, 0 for an empty one. *)
Definition openCount (cur : option LcovFileData) : nat :=
  match cur with Some _ => 1 | None => 0 end.

(** The text with every line break written as carriage return, line
    feed. *)
Definition toCRLF (s : jsstring) : jsstring :=
  flat_map (fun c => if (c =? newline)%N then [13%N; newline] else [c]) s.

End Report.
Import Report.

(* ================================================================== *)
(** ** Further vocabulary: tallies and weights *)

Module Tallies.

(** [Number.isNaN] *)
Definition isNaN (x : number) : bool :=
  match x with NaN => true | Fin _ => false end.

(** Counters as an instrumenter reports them: not negative, and in every
    category with found > 0 no more hit than found. *)
Definition wellCounted (f : LcovFileData) : Prop :=
  (nonneg (linesFound f) /\ nonneg (linesHit f) /\
   nonneg (functionsFound f) /\ nonneg (functionsHit f) /\
   nonneg (branchesFound f) /\ nonneg (branchesHit f)) /\
  (gt (linesFound f) (Fin 0) = true ->
   ge (linesFound f) (linesHit f) = true) /\
  (gt (functionsFound f) (Fin 0) = true ->
   ge (functionsFound f) (functionsHit f) = true) /\
  (gt (branchesFound f) (Fin 0) = true ->
   ge (branchesFound f) (branchesHit f) = true).

(** Counters that binary64 adds up without rounding: the values of [get]
    over the list are non-negative integers whose total is at most
    2^53. *)
Definition exactSum (get : LcovFileData -> number) (l : list LcovFileData)
  : Prop :=
  exists zs : list Z,
    map get l = map ofZ zs /\
    Forall (fun z => (0 <= z)%Z) zs /\
    (fold_right Z.add 0%Z zs <= 2 ^ 53)%Z.

Definition exactTotals (l : list LcovFileData) : Prop :=
  exactSum linesFound l /\ exactSum linesHit l /\
  exactSum functionsFound l /\ exactSum functionsHit l /\
  exactSum branchesFound l /\ exactSum branchesHit l.

Definition nonnegWeights (w : PriorityWeights) : Prop :=
  nonneg (w_branches w) /\ nonneg (w_functions w) /\ nonneg (w_lines w).


(** The same found counters, and at least as many hits in [g]. *)
Definition moreCovered (f g : LcovFileData) : Prop :=
  (linesFound g = linesFound f /\ functionsFound g = functionsFound f /\
   branchesFound g = branchesFound f) /\
  ge (linesHit g) (linesHit f) = true /\
  ge (functionsHit g) (functionsHit f) = true /\
  ge (branchesHit g) (branchesHit f) = true.

End Tallies.
Import Tallies.

(* ================================================================== *)
(** ** More of the JavaScript library *)

Module JSLib.

(** [s.includes(t)] *)
Fixpoint includes (s t : jsstring) : bool :=
  startsWith s t ||
  match s with
  | [] => false
  | _ :: r => includes r t
  end.

(** [s.indexOf(t)], -1 when [t] does not occur. *)
Fixpoint indexOfFrom (i : Z) (s t : jsstring) : Z :=
  if startsWith s t then i
  else match s with
       | [] => (-1)%Z
       | _ :: r => indexOfFrom (i + 1) r t
       end.

Definition indexOf (s t : jsstring) : Z := indexOfFrom 0 s t.

(** [s.endsWith(t)] *)
Definition endsWith (s t : jsstring) : bool := startsWith (rev s) (rev t).

(** [s.slice(start, end)] with integer arguments: a negative index
    counts from the end, both are clamped to the string. *)
Definition slice2 (start e : Z) (s : jsstring) : jsstring :=
  let len := Z.of_nat (List.length s) in
  let from := if (start <? 0)%Z then Z.max (len + start) 0
              else Z.min start len in
  let to := if (e <? 0)%Z then Z.max (len + e) 0 else Z.min e len in
  firstn (Z.to_nat (Z.max (to - from) 0)) (skipn (Z.to_nat from) s).

(** [s.split(sep)] for a separator of one code unit. *)
Fixpoint splitOn (sep : N) (s : jsstring) : list jsstring :=
  match s with
  | [] => [[]]
  | c :: r =>
      if (c =? sep)%N then [] :: splitOn sep r
      else match splitOn sep r with
           | [] => [[c]]
           | l :: ls => (c :: l) :: ls
           end
  end.

(** [a.join(sep)] on an array of strings. *)
Fixpoint join (sep : jsstring) (ls : list jsstring) : jsstring :=
  match ls with
  | [] => []
  | [l] => l
  | l :: ls' => l ++ sep ++ join sep ls'
  end.

(** [a === b] on numbers: NaN equals nothing. *)
Definition strictEq (a b : number) : bool :=
  match a, b with
  | Fin x, Fin y => if Req_dec_T x y then true else false
  | _, _ => false
  end.

(** [a < b]: false as soon as one side is NaN. *)
Definition lt (a b : number) : bool := gt b a.

(** A [Map] with string keys: the entries in insertion order, each key
    once. *)
Definition JSMap (T : Type) : Type := list (jsstring * T).

Fixpoint map_get {T : Type} (m : JSMap T) (k : jsstring) : option T :=
  match m with
  | [] => None
  | (k', v) :: r => if streq k' k then Some v else map_get r k
  end.

Definition map_size {T : Type} (m : JSMap T) : nat := List.length m.

(** [m.keys().next().value]: the oldest key, [None] for undefined. *)
Definition map_firstKey {T : Type} (m : JSMap T) : option jsstring :=
  match m with
  | [] => None
  | (k, _) :: _ => Some k
  end.

Fixpoint map_delete {T : Type} (m : JSMap T) (k : jsstring) : JSMap T :=
  match m with
  | [] => []
  | (k', v) :: r => if streq k' k then r else (k', v) :: map_delete r k
  end.

(** [m.set(k, v)]: an existing key keeps its place, a new one goes last. *)
Fixpoint map_set {T : Type} (m : JSMap T) (k : jsstring) (v : T) : JSMap T :=
  match m with
  | [] => [(k, v)]
  | (k', v') :: r =>
      if streq k' k then (k', v) :: r else (k', v') :: map_set r k v
  end.

Definition map_keys {T : Type} (m : JSMap T) : list jsstring := map fst m.

(** The outcome of a call that may throw. *)
Inductive result (A : Type) : Type :=
| Ok : A -> result A
| Throw : jsstring -> result A.

Arguments Ok {A} _.
Arguments Throw {A} _.

End JSLib.
Import JSLib.

(* ================================================================== *)
(** ** The host: functions the sources call and the model leaves open *)

Module Host.

(** Built-in functions whose results are numbers or paths the model
    cannot compute: the text of a number in a template string and the
    text [toFixed] gives, [parseFloat], and [resolve] of node:path (which
    reads the working directory).  Every property below holds whatever
    they answer. *)
Class Builtins : Type := mkBuiltins {
  numberToString : number -> jsstring;
  toFixed : number -> nat -> jsstring;
  parseFloat : jsstring -> number;
  resolve : list jsstring -> jsstring
}.

(** The file system as the sources query it. *)
Record FileSystem : Type := mkFS {
  existsSync : jsstring -> bool;
  isDirectory : jsstring -> bool;
  mtimeMs : jsstring -> number;
  readFileSync : jsstring -> jsstring
}.

End Host.
Import Host.

(* ================================================================== *)
(** ** Shared utilities of the server tools (src/mcp/tools/shared.ts) *)

Module Shared.

Record CacheEntry : Type := mkCacheEntry {
  ce_data : list LcovFileData;
  ce_mtime : number;
  ce_path : jsstring
}.

Record ProjectConfig : Type := mkConfig {
  coveragePath : option jsstring;
  weights : option PriorityWeights;
  minLines : option number;
  top : option number
}.

Record ConfigCacheEntry : Type := mkConfigCacheEntry {
  cc_config : ProjectConfig;
  cc_mtime : number
}.

Record Coverage3 : Type := mkCoverage3 {
  c_lines : number;
  c_functions : number;
  c_branches : number
}.

Record Uncovered3 : Type := mkUncovered3 {
  u_lines : number;
  u_branches : number;
  u_functions : number
}.

Record PriorityResult : Type := mkPriorityResult {
  pr_file : jsstring;
  pr_priorityScore : number;
  pr_coverage : Coverage3;
  pr_uncovered : Uncovered3;
  reason : jsstring;
  suggestedFocus : jsstring
}.

Definition COVERAGE_SEARCH_PATHS : list jsstring :=
  [ js "coverage/lcov.info";
    js ".coverage/lcov.info";
    js "coverage/lcov/lcov.info";
    js "lcov.info";
    js ".nyc_output/lcov.info";
    js "test-results/lcov.info" ].

Definition DEFAULT_WEIGHTS : PriorityWeights :=
  mkWeights (Fin (5 / 10)) (Fin (3 / 10)) (Fin (2 / 10)).

Definition DEFAULT_CONFIG : ProjectConfig :=
  mkConfig None (Some DEFAULT_WEIGHTS) (Some (Fin 10)) None.

Definition MAX_CACHE_SIZE : nat := 50.

(** The two module-level caches. *)
Record Caches : Type := mkCaches {
  cacheByProject : JSMap CacheEntry;
  configCache : JSMap ConfigCacheEntry
}.

Definition addToCache {T : Type} (cache : JSMap T) (key : jsstring) (value : T)
  : JSMap T :=
  let cache1 :=
    if (MAX_CACHE_SIZE <=? map_size cache)%nat then
      match map_firstKey cache with
      | Some firstKey =>
          match firstKey with
          | [] => cache
          | _ :: _ => map_delete cache firstKey
          end
      | None => cache
      end
    else cache in
  map_set cache1 key value.

Section WithHost.
Context {B : Builtins}.

Fixpoint findIn (fs : FileSystem) (projectPath : jsstring)
  (paths : list jsstring) : option jsstring :=
  match paths with
  | [] => None
  | relativePath :: rest =>
      let absolutePath := resolve [projectPath; relativePath] in
      if existsSync fs absolutePath then Some absolutePath
      else findIn fs projectPath rest
  end.

Definition findCoverageFile (fs : FileSystem) (projectPath : jsstring)
  : option jsstring :=
  findIn fs projectPath COVERAGE_SEARCH_PATHS.

Definition validateProjectPath (fs : FileSystem) (projectPath : jsstring)
  : result jsstring :=
  let resolved := resolve [projectPath] in
  if includes projectPath (js "..") then
    Throw (js "Invalid projectPath: path traversal (..) not allowed")
  else if negb (existsSync fs resolved) then
    Throw (js "Project path does not exist: " ++ resolved)
  else if negb (isDirectory fs resolved) then
    Throw (js "Project path is not a directory: " ++ resolved)
  else Ok resolved.

Definition set_coveragePath (v : jsstring) (c : ProjectConfig) :=
  mkConfig (Some v) (weights c) (minLines c) (top c).
Definition set_weights (v : PriorityWeights) (c : ProjectConfig) :=
  mkConfig (coveragePath c) (Some v) (minLines c) (top c).
Definition set_minLines (v : number) (c : ProjectConfig) :=
  mkConfig (coveragePath c) (weights c) (Some v) (top c).
Definition set_top (v : number) (c : ProjectConfig) :=
  mkConfig (coveragePath c) (weights c) (minLines c) (Some v).

(** One iteration of the loop over the lines of brennpunkt.yaml. *)
Definition configLine (config : ProjectConfig) (line : jsstring)
  : ProjectConfig :=
  let trimmed := trim line in
  match trimmed with
  | [] => config
  | _ :: _ =>
      if startsWith trimmed (js "#") then config
      else
        let colonIndex := indexOf trimmed (js ":") in
        if (colonIndex =? -1)%Z then config
        else
          let key := trim (slice2 0 colonIndex trimmed) in
          let value0 :=
            trim (slice2 (colonIndex + 1)
                         (Z.of_nat (List.length trimmed)) trimmed) in
          let value :=
            if (startsWith value0 [34%N] && endsWith value0 [34%N])
               || (startsWith value0 [39%N] && endsWith value0 [39%N])
            then slice2 1 (-1) value0
            else value0 in
          if streq key (js "coveragePath") then set_coveragePath value config
          else if streq key (js "weights") then
            let parts :=
              map (fun s => parseFloat (trim s)) (splitOn 44 value) in
            match parts with
            | [b; f; l] =>
                if forallb (fun n => negb (isNaN n)) parts
                then set_weights (mkWeights b f l) config
                else config
            | _ => config
            end
          else if streq key (js "minLines") then
            let num := parseInt value in
            if negb (isNaN num) then set_minLines num config else config
          else if streq key (js "top") then
            let num := parseInt value in
            if negb (isNaN num) then set_top num config else config
          else config
  end.

(** The loop of [loadProjectConfig] over the content of the file. *)
Definition configOfContent (content : jsstring) : ProjectConfig :=
  fold_left configLine (split content) DEFAULT_CONFIG.

Definition loadProjectConfig (fs : FileSystem) (caches : Caches)
  (projectPath : jsstring) : result ProjectConfig * Caches :=
  match validateProjectPath fs projectPath with
  | Throw e => (Throw e, caches)
  | Ok validatedPath =>
      let configPath := resolve [validatedPath; js "brennpunkt.yaml"] in
      if negb (existsSync fs configPath) then (Ok DEFAULT_CONFIG, caches)
      else
        let mtime := mtimeMs fs configPath in
        let fresh :=
          let config := configOfContent (readFileSync fs configPath) in
          (Ok config,
           mkCaches (cacheByProject caches)
                    (addToCache (configCache caches) configPath
                                (mkConfigCacheEntry config mtime))) in
        match map_get (configCache caches) configPath with
        | Some cached =>
            if strictEq (cc_mtime cached) mtime
            then (Ok (cc_config cached), caches)
            else fresh
        | None => fresh
        end
  end.

Definition loadCoverage (fs : FileSystem) (caches : Caches)
  (projectPath : jsstring) (config : ProjectConfig)
  : result (list LcovFileData) * Caches :=
  match validateProjectPath fs projectPath with
  | Throw e => (Throw e, caches)
  | Ok resolvedProjectPath =>
      let path :=
        match coveragePath config with
        | Some (c :: p) => Some (resolve [resolvedProjectPath; c :: p])
        | _ => findCoverageFile fs resolvedProjectPath
        end in
      match path with
      | None | Some [] =>
          (Throw (js "No coverage file found in " ++ resolvedProjectPath
                  ++ js ". "
                  ++ js "Run tests with coverage first: npm test -- --coverage"
                  ++ [newline]
                  ++ js "Searched: " ++ join (js ", ") COVERAGE_SEARCH_PATHS),
           caches)
      | Some ((_ :: _) as path) =>
          if negb (existsSync fs path) then
            (Throw (js "Coverage file not found: " ++ path), caches)
          else
            let mtime := mtimeMs fs path in
            let fresh :=
              let data := parseLcov (readFileSync fs path) in
              (Ok data,
               mkCaches (addToCache (cacheByProject caches) path
                                    (mkCacheEntry data mtime path))
                        (configCache caches)) in
            match map_get (cacheByProject caches) path with
            | Some cached =>
                if strictEq (ce_mtime cached) mtime
                then (Ok (ce_data cached), caches)
                else fresh
            | None => fresh
            end
      end
  end.

Definition generateReason (file : LcovFileData) : jsstring :=
  let lineCov :=
    if gt (linesFound file) (Fin 0)
    then Math_round (mul (div (linesHit file) (linesFound file)) (Fin 100))
    else Fin 100 in
  let branchCov :=
    if gt (branchesFound file) (Fin 0)
    then Math_round (mul (div (branchesHit file) (branchesFound file))
                         (Fin 100))
    else Fin 100 in
  let funcCov :=
    if gt (functionsFound file) (Fin 0)
    then Math_round (mul (div (functionsHit file) (functionsFound file))
                         (Fin 100))
    else Fin 100 in
  let issues0 : list jsstring := [] in
  let issues1 :=
    if lt branchCov (Fin 50)
    then issues0 ++ [ numberToString branchCov ++ js "% branch coverage ("
                      ++ numberToString
                           (sub (branchesFound file) (branchesHit file))
                      ++ js " untested branches)" ]
    else issues0 in
  let issues2 :=
    if lt funcCov (Fin 70)
    then issues1 ++ [ numberToString funcCov ++ js "% function coverage ("
                      ++ numberToString
                           (sub (functionsFound file) (functionsHit file))
                      ++ js " untested functions)" ]
    else issues1 in
  let issues :=
    if lt lineCov (Fin 60)
    then issues2 ++ [ numberToString lineCov ++ js "% line coverage" ]
    else issues2 in
  match issues with
  | [] => js "Moderate coverage gaps across metrics."
  | _ :: _ => join (js ". ") issues ++ js "."
  end.

End WithHost.

Definition generateSuggestedFocus (file : LcovFileData) : jsstring :=
  let branchCov :=
    if gt (branchesFound file) (Fin 0)
    then mul (div (branchesHit file) (branchesFound file)) (Fin 100)
    else Fin 100 in
  let funcCov :=
    if gt (functionsFound file) (Fin 0)
    then mul (div (functionsHit file) (functionsFound file)) (Fin 100)
    else Fin 100 in
  if lt branchCov (Fin 50) then
    js "Focus on testing conditional logic, error handling paths, and edge cases."
  else if lt funcCov (Fin 70) then
    js "Focus on testing untested functions - some may be dead code or missing feature tests."
  else js "Improve general test coverage across the file.".

End Shared.
Import Shared.

(* ================================================================== *)
(** ** The priorities tool (src/mcp/tools/getPriorities.ts) *)

Module Priorities.

Section WithHost.
Context {B : Builtins}.

(** The object the [map] callback of [getPriorities] builds. *)
Definition priorityOf (weights : PriorityWeights) (f : LcovFileData)
  : PriorityResult :=
  let analysis := analyzeFile f weights in
  mkPriorityResult
    (file f)
    (priorityScore analysis)
    (mkCoverage3 (coverage (a_lines analysis))
                 (coverage (a_functions analysis))
                 (coverage (a_branches analysis)))
    (mkUncovered3 (sub (linesFound f) (linesHit f))
                  (sub (branchesFound f) (branchesHit f))
                  (sub (functionsFound f) (functionsHit f)))
    (generateReason f)
    (generateSuggestedFocus f).

(** The comparator [(a, b) => b.priorityScore - a.priorityScore]. *)
Definition byPriorityDesc (a b : PriorityResult) : number :=
  sub (pr_priorityScore b) (pr_priorityScore a).

(** [None] is an argument left out: the default value applies. *)
Definition getPriorities (files : list LcovFileData) (top : option number)
  (minLines : option number) (weights : option PriorityWeights)
  : list PriorityResult :=
  let top := match top with Some t => t | None => Fin 5 end in
  let minLines := match minLines with Some m => m | None => Fin 10 end in
  let weights :=
    match weights with Some w => w | None => DEFAULT_WEIGHTS end in
  array_slice0
    (array_sort byPriorityDesc
       (map (priorityOf weights)
            (filter (fun f => ge (linesFound f) minLines) files)))
    top.

End WithHost.

(** What the command line and the tool both report about a ranked file:
    name, score, the three percentages, uncovered lines and branches. *)
Definition rankedView : Type :=
  (jsstring * number * (number * number * number) * (number * number))%type.

Definition viewOfAnalyzed (a : AnalyzedFile) : rankedView :=
  (a_file a, priorityScore a,
   (coverage (a_lines a), coverage (a_functions a), coverage (a_branches a)),
   (uncoveredLines a, uncoveredBranches a)).

Definition viewOfPriority (p : PriorityResult) : rankedView :=
  (pr_file p, pr_priorityScore p,
   (c_lines (pr_coverage p), c_functions (pr_coverage p),
    c_branches (pr_coverage p)),
   (u_lines (pr_uncovered p), u_branches (pr_uncovered p))).

Definition byViewDesc (a b : rankedView) : number :=
  sub (snd (fst (fst b))) (snd (fst (fst a))).

(** A host for the examples: numbers print as nothing, [parseFloat]
    answers NaN, [resolve] joins its arguments with slashes. *)
Definition exampleHost : Builtins :=
  mkBuiltins (fun _ => []) (fun _ _ => []) (fun _ => NaN) (join (js "/")).

(** A disk for the examples: every path exists and is a directory, and
    every file has the same content and modification time. *)
Definition exampleDisk (content : jsstring) (mtime : number) : FileSystem :=
  mkFS (fun _ => true) (fun _ => true) (fun _ => mtime) (fun _ => content).

(** A disk on which one file has a content of its own, every other file
    being empty. *)
Definition exampleDiskAt (path content : jsstring) (mtime : number)
  : FileSystem :=
  mkFS (fun _ => true) (fun _ => true) (fun _ => mtime)
       (fun p => if streq p path then content else []).

End Priorities.
Import Priorities.

(* ================================================================== *)
(** ** Vocabulary for the project configuration *)

Module Settings.

(** A configuration without NaN: [minLines] is set to a number other
    than NaN, [top] is not NaN when it is set, and the weights are set to
    three numbers none of which is NaN. *)
Definition settled (c : ProjectConfig) : Prop :=
  (exists n, minLines c = Some n /\ isNaN n = false) /\
  (forall n, top c = Some n -> isNaN n = false) /\
  (exists w, weights c = Some w /\
             isNaN (w_branches w) = false /\
             isNaN (w_functions w) = false /\
             isNaN (w_lines w) = false).

Definition cachedSettled (caches : Caches) : Prop :=
  Forall (fun e => settled (cc_config (snd e))) (configCache caches).

(** The report of a project: the file [loadCoverage] is to read, the
    path configured under the project directory or else the one
    discovered there; [None] when the project path is not valid or no
    report is found. *)
Definition reportPath {B : Builtins} (fs : FileSystem)
  (projectPath : jsstring) (config : ProjectConfig) : option jsstring :=
  match validateProjectPath fs projectPath with
  | Ok resolvedProjectPath =>
      match coveragePath config with
      | Some (c :: p) => Some (resolve [resolvedProjectPath; c :: p])
      | _ => findCoverageFile fs resolvedProjectPath
      end
  | Throw _ => None
  end.

(** How a value is written in brennpunkt.yaml. *)
Inductive quoting : Type := Bare | DoubleQuoted | SingleQuoted.

Definition quoted (q : quoting) (s : jsstring) : jsstring :=
  match q with
  | Bare => s
  | DoubleQuoted => 34%N :: s ++ [34%N]
  | SingleQuoted => 39%N :: s ++ [39%N]
  end.

(** White space that does not break the line. *)
Definition blank (s : jsstring) : bool :=
  forallb (fun c => isWhiteSpace c && negb (c =? newline)%N) s.

(** A line [key: value] with optional indentation, space after the
    colon and trailing space. *)
Definition settingLine (indent key gap value trail : jsstring) : jsstring :=
  indent ++ key ++ js ":" ++ gap ++ value ++ trail.

(** The two settings read with [parseInt]. *)
Inductive integerSetting : Type := MinLines | Top.

Definition keyName (k : integerSetting) : jsstring :=
  match k with
  | MinLines => js "minLines"
  | Top => js "top"
  end.

Definition getInteger (k : integerSetting) (c : ProjectConfig)
  : option number :=
  match k with
  | MinLines => minLines c
  | Top => top c
  end.

End Settings.
Import Settings.

(* ================================================================== *)
(** ** The file-coverage and impact tools
       (src/mcp/tools/getFileCoverage.ts, src/mcp/tools/estimateImpact.ts) *)

Module Tools.

(** The callback both handlers pass to [find]. *)
Definition matchesPath (path : jsstring) (f : LcovFileData) : bool :=
  streq (file f) path || endsWith (file f) path || endsWith path (file f).

(** [files.find(f => ...)], [None] for undefined. *)
Definition findFile (files : list LcovFileData) (path : jsstring)
  : option LcovFileData :=
  find (matchesPath path) files.

(** [.filter(f => f !== undefined)] *)
Fixpoint definedOnly {A : Type} (l : list (option A)) : list A :=
  match l with
  | [] => []
  | Some a :: r => a :: definedOnly r
  | None :: r => definedOnly r
  end.

Definition targetFiles (allFiles : list LcovFileData) (paths : list jsstring)
  : list LcovFileData :=
  definedOnly (map (findFile allFiles) paths).

(** [targetFiles.reduce((sum, f) => sum + (f.found - f.hit), 0)] for the
    found and hit counters of one category. *)
Definition additional (fnd ht : LcovFileData -> number)
  (targets : list LcovFileData) : number :=
  fold_left (fun sum f => add sum (sub (fnd f) (ht f))) targets (Fin 0).

(** [Math.round(x * 10) / 10] *)
Definition round1 (x : number) : number :=
  div (Math_round (mul x (Fin 10))) (Fin 10).

Record Improvement : Type := mkImprovement {
  im_lines : jsstring;
  im_functions : jsstring;
  im_branches : jsstring
}.

(** The fields of the impact answer that are computed from the report. *)
Record Impact : Type := mkImpact {
  i_filesAnalyzed : list jsstring;
  i_currentCoverage : Coverage3;
  i_estimatedCoverage : Coverage3;
  i_improvement : Improvement;
  i_additionalCoverage : Coverage3
}.

Section WithHost.
Context {B : Builtins}.

(** What the impact handler computes once the report is loaded; [None]
    is the answer "None of the specified files found in coverage data". *)
Definition impactOf (allFiles : list LcovFileData) (paths : list jsstring)
  : option Impact :=
  let overall := calculateOverallCoverage allFiles in
  let targetFiles := targetFiles allFiles paths in
  match targetFiles with
  | [] => None
  | _ :: _ =>
      let additionalLines := additional linesFound linesHit targetFiles in
      let additionalFunctions :=
        additional functionsFound functionsHit targetFiles in
      let additionalBranches :=
        additional branchesFound branchesHit targetFiles in
      let newLineCoverage :=
        if gt (found (o_lines overall)) (Fin 0)
        then mul (div (add (hit (o_lines overall)) additionalLines)
                      (found (o_lines overall))) (Fin 100)
        else Fin 100 in
      let newFuncCoverage :=
        if gt (found (o_functions overall)) (Fin 0)
        then mul (div (add (hit (o_functions overall)) additionalFunctions)
                      (found (o_functions overall))) (Fin 100)
        else Fin 100 in
      let newBranchCoverage :=
        if gt (found (o_branches overall)) (Fin 0)
        then mul (div (add (hit (o_branches overall)) additionalBranches)
                      (found (o_branches overall))) (Fin 100)
        else Fin 100 in
      let lineImprovement :=
        sub newLineCoverage (coverage (o_lines overall)) in
      let funcImprovement :=
        sub newFuncCoverage (coverage (o_functions overall)) in
      let branchImprovement :=
        sub newBranchCoverage (coverage (o_branches overall)) in
      Some (mkImpact
              (map file targetFiles)
              (mkCoverage3 (round1 (coverage (o_lines overall)))
                           (round1 (coverage (o_functions overall)))
                           (round1 (coverage (o_branches overall))))
              (mkCoverage3 (round1 newLineCoverage)
                           (round1 newFuncCoverage)
                           (round1 newBranchCoverage))
              (mkImprovement
                 (js "+" ++ toFixed lineImprovement 1 ++ js "%")
                 (js "+" ++ toFixed funcImprovement 1 ++ js "%")
                 (js "+" ++ toFixed branchImprovement 1 ++ js "%"))
              (mkCoverage3 additionalLines additionalFunctions
                           additionalBranches))
  end.

End WithHost.

(** One name ends with the other: what [matchesPath] tests. *)
Definition suffixOf (t s : jsstring) : Prop := exists p, s = p ++ t.

Definition related (a b : jsstring) : Prop := suffixOf a b \/ suffixOf b a.

(** No category has more hits than found (and no counter is NaN). *)
Definition hitsWithinFound (f : LcovFileData) : Prop :=
  ge (linesFound f) (linesHit f) = true /\
  ge (functionsFound f) (functionsHit f) = true /\
  ge (branchesFound f) (branchesHit f) = true.

End Tools.
Import Tools.

(* ================================================================== *)
(** ** The analyzer over any arithmetic *)

Module Portable.

(** The operations of JavaScript numbers the analyzer uses: the integer
    literals of the source, [+], [-], [*], [/], [>], [Math.round],
    [Math.max] and [Math.log10]. *)
Class Arithmetic : Type := mkArithmetic {
  num : Type;
  lit : Z -> num;
  plus : num -> num -> num;
  minus : num -> num -> num;
  times : num -> num -> num;
  over : num -> num -> num;
  greater : num -> num -> bool;
  round : num -> num;
  largest : num -> num -> num;
  log10 : num -> num
}.

Section WithArithmetic.
Context {A : Arithmetic}.

Record LcovFileData : Type := mkLcov {
  file : jsstring;
  linesFound : num;
  linesHit : num;
  functionsFound : num;
  functionsHit : num;
  branchesFound : num;
  branchesHit : num
}.

Record PriorityWeights : Type := mkWeights {
  w_branches : num;
  w_functions : num;
  w_lines : num
}.

Record CoverageMetric : Type := mkMetric {
  found : num;
  hit : num;
  coverage : num
}.

Record OverallCoverage : Type := mkOverall {
  o_lines : CoverageMetric;
  o_functions : CoverageMetric;
  o_branches : CoverageMetric;
  fileCount : nat
}.

Record AnalyzedFile : Type := mkAnalyzed {
  a_file : jsstring;
  a_lines : CoverageMetric;
  a_functions : CoverageMetric;
  a_branches : CoverageMetric;
  priorityScore : num;
  uncoveredLines : num;
  uncoveredBranches : num
}.

Record Totals : Type := mkTotals {
  t_linesFound : num;
  t_linesHit : num;
  t_functionsFound : num;
  t_functionsHit : num;
  t_branchesFound : num;
  t_branchesHit : num
}.

Definition sumTotals (files : list LcovFileData) : Totals :=
  fold_left
    (fun acc f =>
       mkTotals (plus (t_linesFound acc) (linesFound f))
                (plus (t_linesHit acc) (linesHit f))
                (plus (t_functionsFound acc) (functionsFound f))
                (plus (t_functionsHit acc) (functionsHit f))
                (plus (t_branchesFound acc) (branchesFound f))
                (plus (t_branchesHit acc) (branchesHit f)))
    files
    (mkTotals (lit 0) (lit 0) (lit 0) (lit 0) (lit 0) (lit 0)).

Definition calculateOverallCoverage (files : list LcovFileData)
  : OverallCoverage :=
  let totals := sumTotals files in
  mkOverall
    (mkMetric (t_linesFound totals) (t_linesHit totals)
       (if greater (t_linesFound totals) (lit 0)
        then over (round
                     (times (over (t_linesHit totals) (t_linesFound totals))
                            (lit 10000)))
                  (lit 100)
        else lit 100))
    (mkMetric (t_functionsFound totals) (t_functionsHit totals)
       (if greater (t_functionsFound totals) (lit 0)
        then over (round
                     (times (over (t_functionsHit totals)
                                  (t_functionsFound totals))
                            (lit 10000)))
                  (lit 100)
        else lit 100))
    (mkMetric (t_branchesFound totals) (t_branchesHit totals)
       (if greater (t_branchesFound totals) (lit 0)
        then over (round
                     (times (over (t_branchesHit totals)
                                  (t_branchesFound totals))
                            (lit 10000)))
                  (lit 100)
        else lit 100))
    (List.length files).

Definition analyzeFile (f : LcovFileData) (weights : PriorityWeights)
  : AnalyzedFile :=
  let lineCoverage :=
    if greater (linesFound f) (lit 0)
    then times (over (linesHit f) (linesFound f)) (lit 100)
    else lit 100 in
  let functionCoverage :=
    if greater (functionsFound f) (lit 0)
    then times (over (functionsHit f) (functionsFound f)) (lit 100)
    else lit 100 in
  let branchCoverage :=
    if greater (branchesFound f) (lit 0)
    then times (over (branchesHit f) (branchesFound f)) (lit 100)
    else lit 100 in
  let lineGap := minus (lit 100) lineCoverage in
  let functionGap := minus (lit 100) functionCoverage in
  let branchGap := minus (lit 100) branchCoverage in
  let sizeFactor := log10 (plus (largest (linesFound f) (lit 1)) (lit 1)) in
  let priorityScore :=
    times (plus (plus (times branchGap (w_branches weights))
                      (times functionGap (w_functions weights)))
                (times lineGap (w_lines weights)))
          sizeFactor in
  mkAnalyzed
    (file f)
    (mkMetric (linesFound f) (linesHit f)
              (over (round (times lineCoverage (lit 100))) (lit 100)))
    (mkMetric (functionsFound f) (functionsHit f)
              (over (round (times functionCoverage (lit 100))) (lit 100)))
    (mkMetric (branchesFound f) (branchesHit f)
              (over (round (times branchCoverage (lit 100))) (lit 100)))
    (over (round (times priorityScore (lit 100))) (lit 100))
    (minus (linesFound f) (linesHit f))
    (minus (branchesFound f) (branchesHit f)).

(** *** The specification's formulas, in the same arithmetic *)

(** Rounding to two decimal places. *)
Definition round2 (x : num) : num := over (round (times x (lit 100))) (lit 100).

(** coveragePercent = hit/found*100 when found > 0, else 100. *)
Definition coveragePercent (found hit : num) : num :=
  if greater found (lit 0) then times (over hit found) (lit 100) else lit 100.

(** Gap: 100 - coveragePercent. *)
Definition gap (found hit : num) : num :=
  minus (lit 100) (coveragePercent found hit).

(** log10(max(linesFound, 1) + 1) *)
Definition sizeFactor (linesFound : num) : num :=
  log10 (plus (largest linesFound (lit 1)) (lit 1)).

(** (branchGap * weights.branches + functionGap * weights.functions
     + lineGap * weights.lines) * sizeFactor *)
Definition rawScore (f : LcovFileData) (w : PriorityWeights) : num :=
  times (plus (plus (times (gap (branchesFound f) (branchesHit f))
                           (w_branches w))
                    (times (gap (functionsFound f) (functionsHit f))
                           (w_functions w)))
              (times (gap (linesFound f) (linesHit f)) (w_lines w)))
        (sizeFactor (linesFound f)).

(** The percentage of a per-file metric: 100 unless found > 0, and then
    [Math.round(hit / found * 100 * 100) / 100]. *)
Definition fileRule (m : CoverageMetric) : Prop :=
  (greater (found m) (lit 0) = false -> coverage m = lit 100) /\
  (greater (found m) (lit 0) = true ->
   coverage m
   = over (round (times (times (over (hit m) (found m)) (lit 100)) (lit 100)))
          (lit 100)).

(** The percentage of an aggregate metric: 100 unless found > 0, and then
    [Math.round(hit / found * 10000) / 100]. *)
Definition aggregateRule (m : CoverageMetric) : Prop :=
  (greater (found m) (lit 0) = false -> coverage m = lit 100) /\
  (greater (found m) (lit 0) = true ->
   coverage m
   = over (round (times (over (hit m) (found m)) (lit 10000))) (lit 100)).

End WithArithmetic.

Arguments LcovFileData A : clear implicits.
Arguments PriorityWeights A : clear implicits.
Arguments CoverageMetric A : clear implicits.
Arguments OverallCoverage A : clear implicits.
Arguments AnalyzedFile A : clear implicits.

(** What the analyzer relies on about the numbers 0 and 100: 0 > 0 is
    false, 100 - 100 is 0 and 100 rounded to two decimals is 100. *)
Class Calibrated (A : Arithmetic) : Prop := mkCalibrated {
  zero_not_positive : greater (lit 0) (lit 0) = false;
  hundred_minus_hundred : minus (lit 100) (lit 100) = lit 0;
  hundred_rounded : round2 (lit 100) = lit 100
}.

End Portable.

(* ================================================================== *)
(** ** The arithmetic of the real-number model *)

Module RealModel.

Definition arithmetic : Portable.Arithmetic :=
  Portable.mkArithmetic number ofZ add sub mul div gt
                        Math_round Math_max Math_log10.

Definition tally (f : LcovFileData) : Portable.LcovFileData arithmetic :=
  @Portable.mkLcov arithmetic (file f) (linesFound f) (linesHit f)
                  (functionsFound f) (functionsHit f)
                  (branchesFound f) (branchesHit f).

Definition weights (w : PriorityWeights) : Portable.PriorityWeights arithmetic :=
  @Portable.mkWeights arithmetic (w_branches w) (w_functions w) (w_lines w).

Definition metric (m : Portable.CoverageMetric arithmetic) : CoverageMetric :=
  mkMetric (Portable.found m) (Portable.hit m) (Portable.coverage m).

Definition analyzed (a : Portable.AnalyzedFile arithmetic) : AnalyzedFile :=
  mkAnalyzed (Portable.a_file a)
             (metric (Portable.a_lines a))
             (metric (Portable.a_functions a))
             (metric (Portable.a_branches a))
             (Portable.priorityScore a)
             (Portable.uncoveredLines a)
             (Portable.uncoveredBranches a).

Definition overallOf (o : Portable.OverallCoverage arithmetic)
  : OverallCoverage :=
  mkOverall (metric (Portable.o_lines o)) (metric (Portable.o_functions o))
            (metric (Portable.o_branches o)) (Portable.fileCount o).

End RealModel.

(* ================================================================== *)
(** ** The arithmetic of binary64 *)

Module Binary64.

Abbreviation float := PrimFloat.float.

(** The Number value of an integer: the nearest binary64, ties to even,
    an infinity beyond the largest finite value. *)
Definition ofZ (z : Z) : float :=
  FloatOps.SF2Prim
    (SpecFloat.binary_normalize FloatOps.prec FloatOps.emax z 0 false).

(** [a > b]: false as soon as one side is NaN. *)
Definition gt (a b : float) : bool := PrimFloat.ltb b a.

(** [Math.round]: the nearest integer, ties towards +infinity; NaN, the
    infinities, the zeros and the integers are returned as they are, and
    a result of zero keeps the sign of the argument. *)
Definition Math_round (x : float) : float :=
  match FloatOps.Prim2SF x with
  | SpecFloat.S754_finite s m (Zneg k) =>
      let d := (2 ^ Zpos k)%Z in
      let q := (Zpos m / d)%Z in
      let r := (Zpos m mod d)%Z in
      if s
      then PrimFloat.opp (ofZ (if (d <? 2 * r)%Z then q + 1 else q))
      else ofZ (if (d <=? 2 * r)%Z then q + 1 else q)
  | _ => x
  end.

(** [Math.max(a, b)]: NaN when one argument is, and +0 above -0. *)
Definition Math_max (a b : float) : float :=
  if PrimFloat.is_nan a || PrimFloat.is_nan b then PrimFloat.nan
  else if PrimFloat.ltb a b then b
  else if PrimFloat.ltb b a then a
  else if PrimFloat.is_zero a && PrimFloat.get_sign a then b else a.

(** [Math.log10] is left to the engine (the standard asks for an
    approximation only): the arithmetic takes it as a parameter. *)
Definition arithmetic (Math_log10 : float -> float) : Portable.Arithmetic :=
  Portable.mkArithmetic float ofZ PrimFloat.add PrimFloat.sub PrimFloat.mul
                        PrimFloat.div gt Math_round Math_max Math_log10.

End Binary64.

(* ================================================================== *)
(** ** Facts about strings *)

Section StringFacts.

Lemma trimEnd_cons_nonws (c : N) (r : jsstring) :
  isWhiteSpace c = false -> trimEnd (c :: r) = c :: trimEnd r.
Proof.
  intros H. simpl. rewrite H. destruct (trimEnd r); reflexivity.
Qed.

Lemma trimEnd_nonws (s : jsstring) :
  forallb (fun c => negb (isWhiteSpace c)) s = true -> trimEnd s = s.
Proof.
  induction s as [|c r IH]; intros H; [reflexivity|].
  simpl in H. apply andb_true_iff in H as [Hc Hr].
  apply negb_true_iff in Hc.
  rewrite trimEnd_cons_nonws by assumption. now rewrite IH.
Qed.

Lemma trimEnd_cons_ne (c : N) (r : jsstring) :
  trimEnd r <> [] -> trimEnd (c :: r) = c :: trimEnd r.
Proof.
  intros H. simpl. destruct (trimEnd r); [congruence|reflexivity].
Qed.

Lemma trimEnd_idem (s : jsstring) : trimEnd (trimEnd s) = trimEnd s.
Proof.
  induction s as [|c r IH]; [reflexivity|].
  destruct (trimEnd r) as [|d r'] eqn:E.
  - simpl. rewrite E. destruct (isWhiteSpace c) eqn:W; [reflexivity|].
    simpl. now rewrite W.
  - rewrite (@trimEnd_cons_ne c r) by congruence. rewrite E.
    rewrite trimEnd_cons_ne; rewrite IH; [reflexivity|discriminate].
Qed.

Lemma startsWith_app (p r : jsstring) : startsWith (p ++ r) p = true.
Proof.
  induction p as [|c p IH]; [reflexivity|].
  simpl. now rewrite N.eqb_refl, IH.
Qed.

Lemma startsWith_inv (p s : jsstring) :
  startsWith s p = true -> s = p ++ slice (List.length p) s.
Proof.
  revert s. induction p as [|c p IH]; intros s H; [reflexivity|].
  destruct s as [|d s]; [discriminate|].
  simpl in H. apply andb_true_iff in H as [Hc Hs].
  apply N.eqb_eq in Hc. subst d. simpl. f_equal. now apply IH.
Qed.

Lemma streq_eq (s t : jsstring) : streq s t = true <-> s = t.
Proof.
  revert t. induction s as [|c s IH]; intros [|d t]; simpl;
    try (split; [discriminate|discriminate]); [tauto|].
  rewrite andb_true_iff, N.eqb_eq, IH.
  split; [intros [-> ->]; reflexivity | intros H; now inversion H].
Qed.

Lemma streq_refl (s : jsstring) : streq s s = true.
Proof. now apply streq_eq. Qed.

Lemma split_nonempty (s : jsstring) : split s <> [].
Proof.
  induction s as [|c r IH]; simpl; [discriminate|].
  destruct (c =? newline)%N; [discriminate|].
  destruct (split r); discriminate.
Qed.

Lemma split_app (a b : jsstring) :
  split (a ++ newline :: b) = split a ++ split b.
Proof.
  induction a as [|c a IH]; [reflexivity|].
  simpl. destruct (c =? newline)%N.
  - now rewrite IH.
  - rewrite IH. destruct (split a) as [|l ls] eqn:E; [|reflexivity].
    now apply split_nonempty in E.
Qed.

Lemma split_oneLine (l : jsstring) : oneLine l = true -> split l = [l].
Proof.
  induction l as [|c l IH]; intros H; [reflexivity|].
  simpl in H. apply andb_true_iff in H as [Hc Hl].
  apply negb_true_iff in Hc. simpl. rewrite Hc, (IH Hl). reflexivity.
Qed.

Lemma split_unlines (ls : list jsstring) :
  forallb oneLine ls = true -> ls <> [] -> split (unlines ls) = ls.
Proof.
  induction ls as [|l ls IH]; intros H Hne; [congruence|].
  simpl in H. apply andb_true_iff in H as [Hl Hls].
  destruct ls as [|l' ls'].
  - simpl. now apply split_oneLine.
  - change (unlines (l :: l' :: ls')) with (l ++ newline :: unlines (l' :: ls')).
    rewrite split_app, split_oneLine by assumption.
    rewrite IH by (assumption || discriminate). reflexivity.
Qed.

Lemma nonws_oneLine (s : jsstring) :
  forallb (fun c => negb (isWhiteSpace c)) s = true -> oneLine s = true.
Proof.
  unfold oneLine. induction s as [|c r IH]; simpl; [reflexivity|].
  intros H. apply andb_true_iff in H as [Hc Hr].
  rewrite (IH Hr), andb_true_r.
  destruct (N.eqb_spec c newline) as [->|]; [discriminate Hc|reflexivity].
Qed.

Lemma oneLine_app (a b : jsstring) :
  oneLine (a ++ b) = oneLine a && oneLine b.
Proof. unfold oneLine. apply forallb_app. Qed.

End StringFacts.

(* ================================================================== *)
(** ** Decimal numerals and parseInt *)

Section Numerals.

Local Abbreviation ustr d := (js (NilEmpty.string_of_uint d)).
Local Abbreviation accum := (fun acc d => (acc * 10 + d)%N).

Lemma js_cons (a : ascii) (s : string) :
  js (String a s) = N_of_ascii a :: js s.
Proof. reflexivity. Qed.

Lemma digits_acc (d : Decimal.uint) (acc : positive) :
  fold_left accum (digits (ustr d)) (Npos acc)
  = Npos (Pos.of_uint_acc d acc).
Proof.
  revert acc.
  induction d; intros acc; cbn [NilEmpty.string_of_uint Pos.of_uint_acc];
    try reflexivity;
    rewrite js_cons; simpl (digits (_ :: _)); cbn [fold_left];
    rewrite <- IHd; f_equal; lia.
Qed.

Lemma digits_value (d : Decimal.uint) :
  digitsValue (digits (ustr d)) = Pos.of_uint d.
Proof.
  unfold digitsValue.
  induction d; cbn [NilEmpty.string_of_uint Pos.of_uint]; try reflexivity;
    rewrite js_cons; simpl (digits (_ :: _)); cbn [fold_left];
    try exact IHd; apply digits_acc.
Qed.

Lemma digits_nonempty (d : Decimal.uint) :
  d <> Decimal.Nil -> digits (ustr d) <> [].
Proof. destruct d; simpl; congruence. Qed.

Lemma ustr_nonws (d : Decimal.uint) :
  forallb (fun c => negb (isWhiteSpace c)) (ustr d) = true.
Proof. induction d; simpl; auto. Qed.

Lemma showZ_nonws (z : Z) :
  forallb (fun c => negb (isWhiteSpace c)) (showZ z) = true.
Proof.
  unfold showZ. destruct z; simpl; try reflexivity; apply ustr_nonws.
Qed.

Lemma parseIntZ_unsigned (s : jsstring) :
  trimStart s = s ->
  match s with
  | c :: _ => (c =? 45)%N = false /\ (c =? 43)%N = false
  | [] => True
  end ->
  parseIntZ s = match digits s with
                | [] => None
                | ds => Some (Z.of_N (digitsValue ds))
                end.
Proof.
  intros Hs Hc. unfold parseIntZ. rewrite Hs.
  destruct s as [|c r]; [reflexivity|].
  destruct Hc as [-> ->].
  destruct (digits (c :: r)); [reflexivity|]. f_equal. lia.
Qed.

Lemma parseIntZ_minus (s : jsstring) :
  parseIntZ (45%N :: s) = match digits s with
                          | [] => None
                          | ds => Some (- Z.of_N (digitsValue ds))%Z
                          end.
Proof.
  unfold parseIntZ.
  change (trimStart (45%N :: s)) with (45%N :: s).
  cbv beta iota. rewrite N.eqb_refl.
  destruct (digits s); reflexivity.
Qed.

Lemma parseIntZ_ustr (d : Decimal.uint) :
  d <> Decimal.Nil ->
  parseIntZ (ustr d) = Some (Z.of_N (Pos.of_uint d)).
Proof.
  intros Hd. rewrite parseIntZ_unsigned.
  - rewrite <- digits_value.
    pose proof (digits_nonempty d Hd).
    destruct (digits (ustr d)); [congruence|reflexivity].
  - destruct d; reflexivity.
  - destruct d; cbn [NilEmpty.string_of_uint]; try rewrite js_cons;
      try exact I; split; reflexivity.
Qed.

(** [parseInt] reads back the decimal numeral of every integer. *)
Lemma parseIntZ_showZ (z : Z) : parseIntZ (showZ z) = Some z.
Proof.
  destruct z as [|p|p]; unfold showZ.
  - reflexivity.
  - cbn [Z.to_int NilEmpty.string_of_int].
    rewrite parseIntZ_ustr by apply DecimalPos.Unsigned.to_uint_nonnil.
    now rewrite DecimalPos.Unsigned.of_to.
  - cbn [Z.to_int NilEmpty.string_of_int]. rewrite js_cons.
    change (N_of_ascii "-") with 45%N.
    rewrite parseIntZ_minus.
    pose proof (digits_nonempty _ (DecimalPos.Unsigned.to_uint_nonnil p)) as Hne.
    pose proof (digits_value (Pos.to_uint p)) as Hv.
    rewrite DecimalPos.Unsigned.of_to in Hv.
    destruct (digits (ustr (Pos.to_uint p))); [congruence|].
    now rewrite Hv.
Qed.

Lemma parseInt_showZ (z : Z) : parseInt (showZ z) = ofZ z.
Proof. unfold parseInt. now rewrite parseIntZ_showZ. Qed.

End Numerals.

(* ================================================================== *)
(** ** The parser loop, line by line *)

Section ParserFacts.

Lemma run_app (st : state) (a b : list jsstring) :
  run st (a ++ b) = run (run st a) b.
Proof. unfold run. apply fold_left_app. Qed.

Lemma step_shift (fs : list LcovFileData) (cur : option LcovFileData)
  (l : jsstring) :
  step (fs, cur) l = (fs ++ fst (step ([], cur) l), snd (step ([], cur) l)).
Proof.
  unfold step.
  repeat match goal with
         | |- context [if ?b then _ else _] => destruct b
         | |- context [match ?c with Some _ => _ | None => _ end] =>
             destruct c
         end; simpl; rewrite ?app_nil_r; reflexivity.
Qed.

Lemma run_shift (ls : list jsstring) (fs : list LcovFileData)
  (cur : option LcovFileData) :
  run (fs, cur) ls = (fs ++ fst (run ([], cur) ls), snd (run ([], cur) ls)).
Proof.
  revert fs cur. induction ls as [|l ls IH]; intros fs cur.
  - simpl. now rewrite app_nil_r.
  - change (run (fs, cur) (l :: ls)) with (run (step (fs, cur) l) ls).
    change (run ([], cur) (l :: ls)) with (run (step ([], cur) l) ls).
    rewrite step_shift.
    destruct (step ([], cur) l) as [o1 c1]. simpl fst. simpl snd.
    rewrite IH. rewrite (IH o1 c1). simpl. now rewrite app_assoc.
Qed.

Lemma step_start (fs : list LcovFileData) (cur : option LcovFileData)
  (l : jsstring) :
  isStart l = true ->
  step (fs, cur) l
  = (fs, Some (mkLcov (slice 3 (trim l))
                      (Fin 0) (Fin 0) (Fin 0) (Fin 0) (Fin 0) (Fin 0))).
Proof. unfold isStart, step. now intros ->. Qed.

Lemma step_none (fs : list LcovFileData) (l : jsstring) :
  isStart l = false -> step (fs, None) l = (fs, None).
Proof. unfold isStart, step. now intros ->. Qed.

Lemma step_end (fs : list LcovFileData) (cur : LcovFileData) (l : jsstring) :
  isEnd l = true -> step (fs, Some cur) l = (fs ++ [cur], None).
Proof.
  unfold isEnd, step. intros H. apply streq_eq in H. rewrite H. reflexivity.
Qed.

Lemma step_keeps_files (fs : list LcovFileData) (cur : option LcovFileData)
  (l : jsstring) :
  isEnd l = false -> fst (step (fs, cur) l) = fs.
Proof.
  unfold isEnd, step. intros H. rewrite H.
  repeat match goal with
         | |- context [if ?b then _ else _] => destruct b
         | |- context [match ?c with Some _ => _ | None => _ end] =>
             destruct c
         end; reflexivity.
Qed.

Lemma run_keeps_files (ls : list jsstring) (fs : list LcovFileData)
  (cur : option LcovFileData) :
  forallb (fun l => negb (isEnd l)) ls = true ->
  fst (run (fs, cur) ls) = fs.
Proof.
  revert cur. induction ls as [|l ls IH]; intros cur H; [reflexivity|].
  simpl in H. apply andb_true_iff in H as [Hl Hls].
  apply negb_true_iff in Hl.
  change (run (fs, cur) (l :: ls)) with (run (step (fs, cur) l) ls).
  pose proof (step_keeps_files fs cur l Hl) as Hf.
  destruct (step (fs, cur) l) as [fs' cur']. simpl in Hf. subst fs'.
  now apply IH.
Qed.

Lemma isStart_not_end (l : jsstring) : isStart l = true -> isEnd l = false.
Proof.
  unfold isStart, isEnd. intros H.
  apply startsWith_inv in H. rewrite H. reflexivity.
Qed.

Lemma isCounter_not_start (c : counter) (l : jsstring) :
  isCounter c l = true -> isStart l = false.
Proof.
  unfold isStart, isCounter. intros H.
  apply startsWith_inv in H. rewrite H. destruct c; reflexivity.
Qed.

Lemma isCounter_not_end (c : counter) (l : jsstring) :
  isCounter c l = true -> isEnd l = false.
Proof.
  unfold isEnd, isCounter. intros H.
  apply startsWith_inv in H. rewrite H. destruct c; reflexivity.
Qed.

Lemma isCounter_unique (c c' : counter) (l : jsstring) :
  isCounter c l = true -> isCounter c' l = true -> c = c'.
Proof.
  unfold isCounter. intros H H'.
  apply startsWith_inv in H. rewrite H in H'.
  destruct c, c'; try reflexivity; discriminate H'.
Qed.

Lemma step_counter (fs : list LcovFileData) (cur : LcovFileData)
  (c : counter) (l : jsstring) :
  isCounter c l = true ->
  step (fs, Some cur) l
  = (fs, Some (setField c (parseInt (counterText c l)) cur)).
Proof.
  unfold isCounter, counterText, step. intros H.
  apply startsWith_inv in H.
  remember (slice (List.length (marker c)) (trim l)) as r eqn:Er.
  clear Er. rewrite H. destruct c; reflexivity.
Qed.

Lemma step_ignored (fs : list LcovFileData) (cur : LcovFileData)
  (l : jsstring) :
  isBody l = true -> (forall c, isCounter c l = false) ->
  step (fs, Some cur) l = (fs, Some cur).
Proof.
  unfold isBody. intros Hb Hc.
  apply andb_true_iff in Hb as [Hs He].
  apply negb_true_iff in Hs. apply negb_true_iff in He.
  unfold isStart in Hs. unfold isEnd in He.
  pose proof (Hc LF) as H1. pose proof (Hc LH) as H2.
  pose proof (Hc FNF) as H3. pose proof (Hc FNH) as H4.
  pose proof (Hc BRF) as H5. pose proof (Hc BRH) as H6.
  unfold isCounter, marker in *. unfold step.
  now rewrite Hs, H1, H2, H3, H4, H5, H6, He.
Qed.

Lemma field_set_same (c : counter) (v : number) (t : LcovFileData) :
  field c (setField c v t) = v.
Proof. destruct c; reflexivity. Qed.

Lemma field_set_other (c c' : counter) (v : number) (t : LcovFileData) :
  c <> c' -> field c (setField c' v t) = field c t.
Proof. destruct c, c'; intros H; try reflexivity; congruence. Qed.

Lemma file_setField (c : counter) (v : number) (t : LcovFileData) :
  file (setField c v t) = file t.
Proof. destruct c; reflexivity. Qed.

Lemma step_body (fs : list LcovFileData) (cur : LcovFileData) (l : jsstring) :
  isBody l = true ->
  exists cur',
    step (fs, Some cur) l = (fs, Some cur') /\
    file cur' = file cur /\
    forall c, field c cur'
              = if isCounter c l then parseInt (counterText c l)
                else field c cur.
Proof.
  intros Hb.
  assert (Hdec : (exists c, isCounter c l = true)
                 \/ (forall c, isCounter c l = false)).
  { destruct (isCounter LF l) eqn:E1; [left; now exists LF|].
    destruct (isCounter LH l) eqn:E2; [left; now exists LH|].
    destruct (isCounter FNF l) eqn:E3; [left; now exists FNF|].
    destruct (isCounter FNH l) eqn:E4; [left; now exists FNH|].
    destruct (isCounter BRF l) eqn:E5; [left; now exists BRF|].
    destruct (isCounter BRH l) eqn:E6; [left; now exists BRH|].
    right. intros []; assumption. }
  destruct Hdec as [[c0 Hc0]|Hnone].
  - exists (setField c0 (parseInt (counterText c0 l)) cur).
    split; [now apply step_counter|]. split; [apply file_setField|].
    intros c. destruct (isCounter c l) eqn:Ec.
    + rewrite (isCounter_unique _ _ _ Ec Hc0). apply field_set_same.
    + apply field_set_other. intros ->. congruence.
  - exists cur. split; [now apply step_ignored|]. split; [reflexivity|].
    intros c. now rewrite Hnone.
Qed.

Lemma run_body (body : list jsstring) (fs : list LcovFileData)
  (cur : LcovFileData) :
  forallb isBody body = true ->
  exists cur',
    run (fs, Some cur) body = (fs, Some cur') /\
    file cur' = file cur /\
    forall c, field c cur' = lastValue c body (field c cur).
Proof.
  revert cur. induction body as [|l body IH]; intros cur H.
  - exists cur. repeat split; reflexivity.
  - simpl in H. apply andb_true_iff in H as [Hl Hb].
    destruct (step_body fs cur l Hl) as (c1 & Hstep & Hfile & Hfield).
    destruct (IH c1 Hb) as (c2 & Hrun & Hfile2 & Hfield2).
    exists c2. split; [|split].
    + change (run (fs, Some cur) (l :: body))
        with (run (step (fs, Some cur) l) body).
      now rewrite Hstep.
    + congruence.
    + intros c. rewrite Hfield2, Hfield. reflexivity.
Qed.

Lemma run_record (fs : list LcovFileData) (cur : option LcovFileData)
  (sf : jsstring) (body : list jsstring) (eor : jsstring) :
  isStart sf = true -> forallb isBody body = true -> isEnd eor = true ->
  exists t,
    run (fs, cur) (sf :: body ++ [eor]) = (fs ++ [t], None) /\
    file t = slice 3 (trim sf) /\
    forall c, field c t = lastValue c body (Fin 0).
Proof.
  intros Hs Hb He.
  set (fresh := mkLcov (slice 3 (trim sf))
                       (Fin 0) (Fin 0) (Fin 0) (Fin 0) (Fin 0) (Fin 0)).
  destruct (run_body body fs fresh Hb) as (t & Hrun & Hfile & Hfield).
  exists t. split; [|split].
  - change (run (fs, cur) (sf :: body ++ [eor]))
      with (run (step (fs, cur) sf) (body ++ [eor])).
    rewrite step_start by assumption. fold fresh.
    rewrite run_app, Hrun. simpl. now apply step_end.
  - exact Hfile.
  - intros c. rewrite Hfield. destruct c; reflexivity.
Qed.

(** A closed record contributes exactly its own tally, whatever surrounds
    it. *)
Lemma parse_record (A : list jsstring) (sf : jsstring) (body : list jsstring)
  (eor : jsstring) (B : list jsstring) :
  isStart sf = true -> forallb isBody body = true -> isEnd eor = true ->
  exists t,
    parseLines (A ++ sf :: body ++ eor :: B)
    = parseLines A ++ t :: parseLines B /\
    file t = slice 3 (trim sf) /\
    forall c, field c t = lastValue c body (Fin 0).
Proof.
  intros Hs Hb He. unfold parseLines.
  destruct (run ([], None) A) as [fsA cA] eqn:EA.
  destruct (run_record fsA cA sf body eor Hs Hb He) as (t & Hrun & Hf & Hc).
  exists t. split; [|split; assumption].
  replace (sf :: body ++ eor :: B) with ((sf :: body ++ [eor]) ++ B)
    by (simpl; now rewrite <- app_assoc).
  rewrite !run_app, EA, Hrun, run_shift. simpl.
  now rewrite <- app_assoc.
Qed.

Lemma parseLcov_unlines (ls : list jsstring) :
  forallb oneLine ls = true -> parseLcov (unlines ls) = parseLines ls.
Proof.
  intros H. unfold parseLcov. destruct ls as [|l ls]; [reflexivity|].
  rewrite split_unlines by (assumption || discriminate). reflexivity.
Qed.

End ParserFacts.

(* ================================================================== *)
(** ** Well-formed records *)

Section WellFormedFacts.

Lemma counter_eqb_eq (c c' : counter) : counter_eqb c c' = true <-> c = c'.
Proof. destruct c, c'; simpl; split; congruence. Qed.

Lemma tally_ext (t t' : LcovFileData) :
  file t = file t' -> (forall c, field c t = field c t') -> t = t'.
Proof.
  destruct t, t'. simpl. intros Hf Hc.
  pose proof (Hc LF). pose proof (Hc LH). pose proof (Hc FNF).
  pose proof (Hc FNH). pose proof (Hc BRF). pose proof (Hc BRH).
  simpl in *. congruence.
Qed.

Lemma trim_path_line (p : jsstring) :
  trimEnd p = p -> trim (js "SF:" ++ p) = js "SF:" ++ p.
Proof.
  intros H. unfold trim.
  change (trimStart (js "SF:" ++ p)) with (js "SF:" ++ p).
  change (js "SF:" ++ p) with (83 :: 70 :: 58 :: p)%N.
  rewrite !trimEnd_cons_nonws by reflexivity. now rewrite H.
Qed.

Lemma trim_counter_line (c : counter) (z : Z) :
  trim (marker c ++ showZ z) = marker c ++ showZ z.
Proof.
  unfold trim.
  assert (Hs : trimStart (marker c ++ showZ z) = marker c ++ showZ z)
    by (destruct c; reflexivity).
  rewrite Hs. apply trimEnd_nonws. rewrite forallb_app, showZ_nonws.
  destruct c; reflexivity.
Qed.

Lemma isCounter_line (c c' : counter) (z : Z) :
  isCounter c (marker c' ++ showZ z) = counter_eqb c c'.
Proof.
  unfold isCounter. rewrite trim_counter_line. destruct c, c'; reflexivity.
Qed.

Lemma counterText_line (c : counter) (z : Z) :
  counterText c (marker c ++ showZ z) = showZ z.
Proof.
  unfold counterText. rewrite trim_counter_line. destruct c; reflexivity.
Qed.

Lemma isBody_line (c : counter) (z : Z) :
  isBody (marker c ++ showZ z) = true.
Proof.
  assert (H : isCounter c (marker c ++ showZ z) = true).
  { rewrite isCounter_line. now apply counter_eqb_eq. }
  unfold isBody.
  now rewrite (isCounter_not_start _ _ H), (isCounter_not_end _ _ H).
Qed.

Lemma oneLine_line (c : counter) (z : Z) :
  oneLine (marker c ++ showZ z) = true.
Proof.
  apply nonws_oneLine. rewrite forallb_app, showZ_nonws.
  destruct c; reflexivity.
Qed.

Lemma wellFormed_inv (r : WellFormedRecord) :
  wellFormed r = true ->
  oneLine (path r) = true /\ trimEnd (path r) = path r /\
  forall c, existsb (counter_eqb c) (order r) = true.
Proof.
  unfold wellFormed, pathOk. intros H.
  apply andb_true_iff in H as [H _].
  apply andb_true_iff in H as [H _]. apply andb_true_iff in H as [H Hc].
  apply andb_true_iff in H as [H1 H2].
  split; [assumption|]. split; [now apply streq_eq|].
  rewrite forallb_forall in Hc. intros c. apply Hc.
  destruct c; simpl; tauto.
Qed.

Lemma counterLines_body (r : WellFormedRecord) (o : list counter) :
  forallb isBody (map (counterLine r) o) = true.
Proof.
  induction o as [|c o IH]; [reflexivity|].
  simpl. change (counterLine r c) with (marker c ++ showZ (value c r)).
  now rewrite isBody_line.
Qed.

Lemma counterLines_oneLine (r : WellFormedRecord) (o : list counter) :
  forallb oneLine (map (counterLine r) o) = true.
Proof.
  induction o as [|c o IH]; [reflexivity|].
  simpl. change (counterLine r c) with (marker c ++ showZ (value c r)).
  now rewrite oneLine_line.
Qed.

(** What the counter lines of a record leave in field [c]. *)
Lemma lastValue_counterLines (r : WellFormedRecord) (c : counter)
  (o : list counter) (d : number) :
  lastValue c (map (counterLine r) o) d
  = if existsb (counter_eqb c) o then ofZ (value c r) else d.
Proof.
  unfold lastValue. revert d. induction o as [|c' o IH]; intros d.
  - reflexivity.
  - cbn [map fold_left existsb].
    change (counterLine r c') with (marker c' ++ showZ (value c' r)).
    rewrite isCounter_line. destruct (counter_eqb c c') eqn:E.
    + apply counter_eqb_eq in E. subst c'.
      rewrite counterText_line, parseInt_showZ, IH.
      now destruct (existsb (counter_eqb c) o).
    + apply IH.
Qed.

Lemma recordLines_oneLine (r : WellFormedRecord) :
  wellFormed r = true -> forallb oneLine (recordLines r) = true.
Proof.
  intros H. apply wellFormed_inv in H as (H & _ & _).
  unfold recordLines. cbn [forallb].
  rewrite oneLine_app, H, forallb_app, counterLines_oneLine. reflexivity.
Qed.

(** The lines of a well-formed record, wherever they stand, add the
    record's tally to the output. *)
Lemma parse_recordLines (A : list jsstring) (r : WellFormedRecord)
  (B : list jsstring) :
  wellFormed r = true ->
  parseLines (A ++ recordLines r ++ B)
  = parseLines A ++ tallyOf r :: parseLines B.
Proof.
  intros H. apply wellFormed_inv in H as (_ & Hp & Hc).
  assert (Hs : isStart (js "SF:" ++ path r) = true).
  { unfold isStart. rewrite trim_path_line by assumption.
    apply startsWith_app. }
  destruct (parse_record A (js "SF:" ++ path r)
              (map (counterLine r) (order r)) (js "end_of_record") B
              Hs (counterLines_body r (order r)) eq_refl)
    as (t & Hparse & Hfile & Hfield).
  replace (recordLines r ++ B)
    with ((js "SF:" ++ path r)
            :: map (counterLine r) (order r) ++ js "end_of_record" :: B)
    by (unfold recordLines; simpl; now rewrite <- app_assoc).
  rewrite Hparse. do 2 f_equal.
  apply tally_ext.
  - rewrite Hfile, trim_path_line by assumption. reflexivity.
  - intros c. rewrite Hfield, lastValue_counterLines, Hc.
    destruct c; reflexivity.
Qed.

Lemma parse_records (rs : list WellFormedRecord) :
  forallb wellFormed rs = true ->
  parseLines (List.concat (map recordLines rs)) = map tallyOf rs.
Proof.
  induction rs as [|r rs IH]; intros H; [reflexivity|].
  simpl in H. apply andb_true_iff in H as [Hr Hrs].
  cbn [map List.concat].
  pose proof (parse_recordLines [] r (List.concat (map recordLines rs)) Hr)
    as Hp.
  change (parseLines (recordLines r ++ List.concat (map recordLines rs))
          = tallyOf r :: parseLines (List.concat (map recordLines rs))) in Hp.
  now rewrite Hp, IH.
Qed.

Lemma records_oneLine (rs : list WellFormedRecord) :
  forallb wellFormed rs = true ->
  forallb oneLine (List.concat (map recordLines rs)) = true.
Proof.
  induction rs as [|r rs IH]; intros H; [reflexivity|].
  simpl in H. apply andb_true_iff in H as [Hr Hrs].
  cbn [map List.concat]. rewrite forallb_app, IH by assumption.
  now rewrite recordLines_oneLine.
Qed.

End WellFormedFacts.

(* ================================================================== *)
(** ** Facts about numbers *)

Section NumberFacts.

Local Open Scope R_scope.

Lemma gt_true (x y : R) : y < x -> gt (Fin x) (Fin y) = true.
Proof. intros H. unfold gt. destruct (Rlt_dec y x); [reflexivity|lra]. Qed.

Lemma gt_false (x y : R) : x <= y -> gt (Fin x) (Fin y) = false.
Proof. intros H. unfold gt. destruct (Rlt_dec y x); [lra|reflexivity]. Qed.

Lemma gt_inv (a b : number) :
  gt a b = true -> exists x y, a = Fin x /\ b = Fin y /\ y < x.
Proof.
  destruct a as [|x], b as [|y]; simpl; try discriminate.
  destruct (Rlt_dec y x); [|discriminate]. intros _. now exists x, y.
Qed.

Lemma ge_true (x y : R) : y <= x -> ge (Fin x) (Fin y) = true.
Proof. intros H. unfold ge. destruct (Rle_dec y x); [reflexivity|lra]. Qed.

Lemma ge_false (x y : R) : x < y -> ge (Fin x) (Fin y) = false.
Proof. intros H. unfold ge. destruct (Rle_dec y x); [lra|reflexivity]. Qed.

Lemma ge_inv (a b : number) :
  ge a b = true -> exists x y, a = Fin x /\ b = Fin y /\ y <= x.
Proof.
  destruct a as [|x], b as [|y]; simpl; try discriminate.
  destruct (Rle_dec y x); [|discriminate]. intros _. now exists x, y.
Qed.

Lemma div_Fin (x y : R) : y <> 0 -> div (Fin x) (Fin y) = Fin (x / y).
Proof.
  intros H. unfold div. destruct (Req_dec_T y 0); [contradiction|reflexivity].
Qed.

Lemma log10_Fin (x : R) :
  0 < x -> Math_log10 (Fin x) = Fin (ln x / ln 10).
Proof.
  intros H. unfold Math_log10. destruct (Rlt_dec 0 x); [reflexivity|lra].
Qed.

Lemma round2_Fin (x : R) :
  round2 (Fin x) = Fin (IZR (Zfloor (x * 100 + / 2)) / 100).
Proof. unfold round2. simpl. apply div_Fin. lra. Qed.

Lemma round2_NaN : round2 NaN = NaN.
Proof. reflexivity. Qed.

Lemma round2_int (z : Z) : round2 (Fin (IZR z)) = Fin (IZR z).
Proof.
  rewrite round2_Fin. f_equal.
  replace (IZR z * 100 + / 2) with (IZR (z * 100) + / 2)
    by (rewrite mult_IZR; reflexivity).
  rewrite (Zfloor_eq (z * 100)) by lra.
  rewrite mult_IZR. field.
Qed.


Lemma ln_10_pos : 0 < ln 10.
Proof. rewrite <- ln_1. apply ln_increasing; lra. Qed.

Lemma sizeFactor_Fin (x : R) :
  sizeFactor (Fin x) = Fin (ln (Rmax x 1 + 1) / ln 10).
Proof.
  unfold sizeFactor. simpl Math_max. simpl add. apply log10_Fin.
  pose proof (Rmax_r x 1). lra.
Qed.

Lemma sizeFactor_pos (x : R) : 0 < ln (Rmax x 1 + 1) / ln 10.
Proof.
  apply Rdiv_lt_0_compat; [|exact ln_10_pos].
  rewrite <- ln_1. apply ln_increasing; [lra|].
  pose proof (Rmax_r x 1). lra.
Qed.

Lemma truthy_ofZ (k : Z) : k <> 0%Z -> truthy (ofZ k) = true.
Proof.
  intros H. unfold truthy, ofZ.
  destruct (Req_dec_T (IZR k) 0) as [E|E]; [|reflexivity].
  apply eq_IZR_R0 in E. contradiction.
Qed.

Lemma toInteger_ofZ (k : Z) : toInteger (ofZ k) = k.
Proof.
  unfold toInteger, ofZ. destruct (Rle_dec 0 (IZR k)).
  - apply ZfloorZ.
  - rewrite ZfloorNZ. lia.
Qed.

End NumberFacts.

(* ================================================================== *)
(** ** Facts about [sort] and [slice] on arrays *)

Section ArrayFacts.

Context {A : Type}.
Variable cmp : A -> A -> number.

Lemma insert_perm (x : A) (l : list A) : Permutation (insert cmp x l) (x :: l).
Proof.
  induction l as [|y l IH]; simpl; [reflexivity|].
  destruct (gt (cmp x y) (Fin 0)); [|reflexivity].
  rewrite IH. apply perm_swap.
Qed.

Lemma array_sort_perm (l : list A) : Permutation (array_sort cmp l) l.
Proof.
  induction l as [|x l IH]; simpl; [reflexivity|].
  rewrite insert_perm. now constructor.
Qed.

Lemma array_sort_length (l : list A) :
  List.length (array_sort cmp l) = List.length l.
Proof. apply Permutation_length, array_sort_perm. Qed.

Lemma Forall_insert (P : A -> Prop) (x : A) (l : list A) :
  P x -> Forall P l -> Forall P (insert cmp x l).
Proof.
  intros Hx Hl. eapply Permutation_Forall.
  - apply Permutation_sym, insert_perm.
  - now constructor.
Qed.

(** Sorting with a comparator that agrees with a total preorder [le]:
    [cmp x y > 0] exactly when [x] must come after [y]. *)
Variable le : A -> A -> Prop.
Variable ok : A -> Prop.
Hypothesis le_trans : forall x y z, le x y -> le y z -> le x z.
Hypothesis cmp_after :
  forall x y, ok x -> ok y -> gt (cmp x y) (Fin 0) = true -> le y x.
Hypothesis cmp_before :
  forall x y, ok x -> ok y -> gt (cmp x y) (Fin 0) = false -> le x y.

Lemma insert_sorted (x : A) (l : list A) :
  ok x -> Forall ok l ->
  StronglySorted le l -> StronglySorted le (insert cmp x l).
Proof.
  intros Hx Hok Hs. induction Hs as [|y l Hs IH Hy]; simpl.
  - repeat constructor.
  - inversion Hok as [|? ? Hoky Hokl]; subst.
    destruct (gt (cmp x y) (Fin 0)) eqn:E.
    + constructor; [now apply IH|].
      apply Forall_insert; [now apply cmp_after|assumption].
    + pose proof (cmp_before x y Hx Hoky E) as Hxy.
      constructor; [now constructor|].
      constructor; [assumption|].
      eapply Forall_impl; [|exact Hy]. intros z Hz. eapply le_trans; eauto.
Qed.

Lemma array_sort_sorted (l : list A) :
  Forall ok l -> StronglySorted le (array_sort cmp l).
Proof.
  induction l as [|x l IH]; intros H; simpl; [constructor|].
  inversion H; subst. apply insert_sorted; auto.
  eapply Permutation_Forall; [|eassumption].
  apply Permutation_sym, array_sort_perm.
Qed.

Lemma slice0_positive (l : list A) (k : Z) :
  (0 < k)%Z -> array_slice0 l (ofZ k) = firstn (Z.to_nat k) l.
Proof.
  intros H. unfold array_slice0. rewrite toInteger_ofZ.
  destruct (Z.ltb_spec k 0); [lia|].
  destruct (Z.le_gt_cases k (Z.of_nat (List.length l))).
  - now rewrite Z.min_l.
  - rewrite Z.min_r by lia. rewrite Nat2Z.id.
    rewrite firstn_all. symmetry. apply firstn_all2. lia.
Qed.

Lemma slice0_negative (l : list A) (k : Z) :
  (0 < k)%Z ->
  array_slice0 l (ofZ (- k)) = firstn (List.length l - Z.to_nat k) l.
Proof.
  intros H. unfold array_slice0. rewrite toInteger_ofZ.
  destruct (Z.ltb_spec (- k) 0); [|lia]. f_equal. lia.
Qed.

End ArrayFacts.

(* ================================================================== *)
(** ** Facts about the analyzer *)

Section AnalyzerFacts.

Local Open Scope R_scope.

Lemma round2_100 : round2 (Fin 100) = Fin 100.
Proof. exact (round2_int 100). Qed.

Lemma gap_zero (ht : number) : gap (Fin 0) ht = Fin 0.
Proof.
  unfold gap, coveragePercent. rewrite gt_false by lra.
  simpl. f_equal. lra.
Qed.

Lemma coveragePercent_Fin (f h : R) :
  coveragePercent (Fin f) (Fin h)
  = Fin (if Rlt_dec 0 f then h / f * 100 else 100).
Proof.
  unfold coveragePercent, gt. destruct (Rlt_dec 0 f); [|reflexivity].
  rewrite div_Fin by lra. reflexivity.
Qed.

(** On finite inputs the raw score is the real number the formula
    denotes: no NaN arises. *)
Lemma rawScore_Fin (p : jsstring) (lf lh ff fh bf bh wb wf wl : R) :
  rawScore (mkLcov p (Fin lf) (Fin lh) (Fin ff) (Fin fh) (Fin bf) (Fin bh))
           (mkWeights (Fin wb) (Fin wf) (Fin wl))
  = Fin (((100 - (if Rlt_dec 0 bf then bh / bf * 100 else 100)) * wb
          + (100 - (if Rlt_dec 0 ff then fh / ff * 100 else 100)) * wf
          + (100 - (if Rlt_dec 0 lf then lh / lf * 100 else 100)) * wl)
         * (ln (Rmax lf 1 + 1) / ln 10)).
Proof.
  unfold rawScore, gap. simpl.
  rewrite !coveragePercent_Fin, sizeFactor_Fin. reflexivity.
Qed.

Lemma analyzeFile_score (f : LcovFileData) (w : PriorityWeights) :
  priorityScore (analyzeFile f w) = round2 (rawScore f w).
Proof. reflexivity. Qed.

Lemma score_finite (f : LcovFileData) (w : PriorityWeights) :
  finiteTally f -> finiteWeights w ->
  finite (priorityScore (analyzeFile f w)).
Proof.
  unfold finiteTally, finiteWeights, finite.
  destruct f as [p [|lf] [|lh] [|ff] [|fh] [|bf] [|bh]], w as [[|wb] [|wf] [|wl]];
    intros H1 H2; simpl in H1, H2; try tauto.
  rewrite analyzeFile_score, rawScore_Fin, round2_Fin. discriminate.
Qed.


End AnalyzerFacts.

(* ================================================================== *)
(** ** Further facts used by the properties *)

Section PropertyFacts.

Lemma trimEnd_cons_inv (c : N) (r : jsstring) :
  trimEnd (c :: r) <> [] -> trimEnd (c :: r) = c :: trimEnd r.
Proof.
  simpl. destruct (trimEnd r); [|reflexivity].
  destruct (isWhiteSpace c); [congruence|reflexivity].
Qed.

Lemma slice_trimEnd (p s : jsstring) :
  startsWith (trimEnd s) p = true ->
  slice (List.length p) (trimEnd s) = trimEnd (slice (List.length p) s).
Proof.
  revert s. induction p as [|c p IH]; intros s H; [reflexivity|].
  destruct s as [|d r]; [discriminate H|].
  assert (Hne : trimEnd (d :: r) <> []).
  { intros E. rewrite E in H. discriminate H. }
  rewrite (trimEnd_cons_inv d r Hne) in *.
  simpl in H. apply andb_true_iff in H as [_ H].
  simpl. now apply IH.
Qed.

Lemma start_path (l : jsstring) :
  isStart l = true -> slice 3 (trim l) = trimEnd (untrimmedRemainder l).
Proof. unfold isStart, trim, untrimmedRemainder. apply (slice_trimEnd (js "SF:")). Qed.

Lemma lastValue_none (c : counter) (post : list jsstring) (d : number) :
  forallb (fun x => negb (isCounter c x)) post = true ->
  lastValue c post d = d.
Proof.
  unfold lastValue. revert d.
  induction post as [|x post IH]; intros d H; [reflexivity|].
  simpl in H. apply andb_true_iff in H as [Hx Hp].
  apply negb_true_iff in Hx. simpl. rewrite Hx. now apply IH.
Qed.

Lemma lastValue_last (c : counter) (pre : list jsstring) (l : jsstring)
  (post : list jsstring) (d : number) :
  isCounter c l = true ->
  forallb (fun x => negb (isCounter c x)) post = true ->
  lastValue c (pre ++ l :: post) d = parseInt (counterText c l).
Proof.
  intros Hl Hp. unfold lastValue. rewrite fold_left_app. simpl.
  rewrite Hl. now apply lastValue_none.
Qed.

(** Lines after the last closed record change nothing when a file-path
    line or the end of input follows. *)
Lemma parse_drop_unclosed (A U B : list jsstring) :
  forallb (fun l => negb (isEnd l)) U = true ->
  match B with [] => true | l :: _ => isStart l end = true ->
  parseLines (A ++ U ++ B) = parseLines (A ++ B).
Proof.
  intros HU HB. unfold parseLines. rewrite !run_app.
  destruct (run ([], None) A) as [fs cA].
  pose proof (run_keeps_files U fs cA HU) as Hf.
  destruct (run (fs, cA) U) as [fs' cU]. simpl in Hf. subst fs'.
  destruct B as [|sf' B']; [reflexivity|].
  change (run (fs, cU) (sf' :: B')) with (run (step (fs, cU) sf') B').
  change (run (fs, cA) (sf' :: B')) with (run (step (fs, cA) sf') B').
  now rewrite !step_start by assumption.
Qed.

Lemma ge_trans_true (a b c : number) :
  ge a b = true -> ge b c = true -> ge a c = true.
Proof.
  intros H1 H2.
  apply ge_inv in H1 as (x & y & -> & -> & Hxy).
  apply ge_inv in H2 as (y' & z & Hy & -> & Hyz).
  injection Hy as <-. apply ge_true. lra.
Qed.

Lemma byScoreDesc_after (x y : AnalyzedFile) :
  finite (priorityScore x) -> finite (priorityScore y) ->
  gt (byScoreDesc x y) (Fin 0) = true ->
  ge (priorityScore y) (priorityScore x) = true.
Proof.
  unfold byScoreDesc, finite.
  destruct (priorityScore x) as [|sx], (priorityScore y) as [|sy];
    try congruence.
  intros _ _ H. apply gt_inv in H as (a & b & Ha & Hb & Hlt).
  simpl in Ha. injection Ha as <-. injection Hb as <-.
  apply ge_true. lra.
Qed.

Lemma byScoreDesc_before (x y : AnalyzedFile) :
  finite (priorityScore x) -> finite (priorityScore y) ->
  gt (byScoreDesc x y) (Fin 0) = false ->
  ge (priorityScore x) (priorityScore y) = true.
Proof.
  unfold byScoreDesc, finite.
  destruct (priorityScore x) as [|sx], (priorityScore y) as [|sy];
    try congruence.
  intros _ _ H. simpl in H. unfold gt in H.
  destruct (Rlt_dec 0 (sy - sx)); [discriminate|].
  apply ge_true. lra.
Qed.

Lemma survivors_finite (tallies : list LcovFileData) (w : PriorityWeights)
  (minLines : number) :
  Forall finiteTally tallies -> finiteWeights w ->
  Forall (fun a => finite (priorityScore a)) (survivors tallies w minLines).
Proof.
  intros Ht Hw. unfold survivors. apply Forall_map.
  induction Ht as [|f fs Hf Hfs IH]; simpl; [constructor|].
  destruct (ge (linesFound f) minLines); [constructor|]; auto.
  now apply score_finite.
Qed.

Lemma sorted_descending (tallies : list LcovFileData) (w : PriorityWeights)
  (minLines : number) :
  Forall finiteTally tallies -> finiteWeights w ->
  descending (array_sort byScoreDesc (survivors tallies w minLines)).
Proof.
  intros Ht Hw. unfold descending.
  apply (array_sort_sorted byScoreDesc
           (fun a b => ge (priorityScore a) (priorityScore b) = true)
           (fun a => finite (priorityScore a))).
  - intros x y z. apply ge_trans_true.
  - intros x y. apply byScoreDesc_after.
  - intros x y. apply byScoreDesc_before.
  - now apply survivors_finite.
Qed.

Lemma sorted_descending_scores (l : list AnalyzedFile) :
  Forall (fun a => isNaN (priorityScore a) = false) l ->
  descending (array_sort byScoreDesc l).
Proof.
  intros H. unfold descending.
  apply (array_sort_sorted byScoreDesc
           (fun a b => ge (priorityScore a) (priorityScore b) = true)
           (fun a => finite (priorityScore a))).
  - intros x y z. apply ge_trans_true.
  - intros x y. apply byScoreDesc_after.
  - intros x y. apply byScoreDesc_before.
  - eapply Forall_impl; [|exact H]. intros a Ha. cbv beta in Ha.
    unfold finite. destruct (priorityScore a); [discriminate Ha|discriminate].
Qed.

(** No arrangement of two or more files is in descending order when one
    of the scores is NaN: NaN >= x and x >= NaN are both false. *)
Lemma nan_never_descending (l : list AnalyzedFile) :
  Exists (fun a => isNaN (priorityScore a) = true) l ->
  (2 <= List.length l)%nat -> ~ descending l.
Proof.
  intros He Hl Hd. destruct l as [|x [|y tl]]; simpl in Hl; try lia.
  unfold descending in Hd.
  apply StronglySorted_inv in Hd as [Hd Hx].
  inversion He as [? ? Hn|? ? He']; subst.
  - inversion Hx as [|? ? Hxy _]; subst.
    destruct (priorityScore x); [discriminate Hxy|discriminate Hn].
  - apply Exists_exists in He' as (z & Hz & Hn).
    rewrite Forall_forall in Hx. specialize (Hx z Hz).
    destruct (priorityScore z); [|discriminate Hn].
    destruct (priorityScore x); discriminate Hx.
Qed.

(** A NaN hit counter under a positive found counter gives a NaN
    score. *)
Lemma nan_hit_nan_score (f : LcovFileData) (w : PriorityWeights) :
  gt (linesFound f) (Fin 0) = true -> linesHit f = NaN ->
  isNaN (priorityScore (analyzeFile f w)) = true.
Proof.
  intros Hg Hh. rewrite analyzeFile_score.
  unfold rawScore. unfold gap at 3. unfold coveragePercent.
  rewrite Hg, Hh.
  destruct (add (mul (gap (branchesFound f) (branchesHit f)) (w_branches w))
                (mul (gap (functionsFound f) (functionsHit f))
                     (w_functions w)));
    reflexivity.
Qed.

Lemma wellCounted_finite (f : LcovFileData) : wellCounted f -> finiteTally f.
Proof.
  unfold wellCounted, finiteTally, finite, nonneg.
  intros ((H1 & H2 & H3 & H4 & H5 & H6) & _).
  destruct (linesFound f), (linesHit f), (functionsFound f),
    (functionsHit f), (branchesFound f), (branchesHit f);
    try contradiction; repeat split; discriminate.
Qed.

Lemma nonnegWeights_finite (w : PriorityWeights) :
  nonnegWeights w -> finiteWeights w.
Proof.
  unfold nonnegWeights, finiteWeights, finite, nonneg.
  intros (H1 & H2 & H3).
  destruct (w_branches w), (w_functions w), (w_lines w);
    try contradiction; repeat split; discriminate.
Qed.

Lemma wellCounted_scores (tallies : list LcovFileData) (w : PriorityWeights)
  (minLines : number) :
  Forall wellCounted tallies -> nonnegWeights w ->
  Forall (fun a => isNaN (priorityScore a) = false)
         (survivors tallies w minLines).
Proof.
  intros Ht Hw.
  assert (H : Forall (fun a => finite (priorityScore a))
                     (survivors tallies w minLines)).
  { apply survivors_finite; [|now apply nonnegWeights_finite].
    eapply Forall_impl; [|exact Ht]. apply wellCounted_finite. }
  eapply Forall_impl; [|exact H]. intros a Ha. cbv beta in Ha.
  unfold finite in Ha. destruct (priorityScore a); [congruence|reflexivity].
Qed.

Lemma analyze_files_null (tallies : list LcovFileData) (w : PriorityWeights)
  (minLines : number) :
  files (analyzeCoverage tallies w minLines None)
  = array_sort byScoreDesc (survivors tallies w minLines).
Proof. reflexivity. Qed.

Lemma analyze_files_zero (tallies : list LcovFileData) (w : PriorityWeights)
  (minLines : number) :
  files (analyzeCoverage tallies w minLines (Some (Fin 0)))
  = array_sort byScoreDesc (survivors tallies w minLines).
Proof.
  unfold analyzeCoverage, truthy. simpl.
  destruct (Req_dec_T 0 0); [reflexivity|congruence].
Qed.

Lemma analyze_files_positive (tallies : list LcovFileData)
  (w : PriorityWeights) (minLines : number) (k : Z) :
  (0 < k)%Z ->
  files (analyzeCoverage tallies w minLines (Some (ofZ k)))
  = firstn (Z.to_nat k)
           (array_sort byScoreDesc (survivors tallies w minLines)).
Proof.
  intros H. unfold analyzeCoverage. cbn [files].
  rewrite truthy_ofZ by lia. now apply slice0_positive.
Qed.

Lemma analyze_files_negative (tallies : list LcovFileData)
  (w : PriorityWeights) (minLines : number) (k : Z) :
  (0 < k)%Z ->
  files (analyzeCoverage tallies w minLines (Some (ofZ (- k))))
  = firstn (List.length (survivors tallies w minLines) - Z.to_nat k)
           (array_sort byScoreDesc (survivors tallies w minLines)).
Proof.
  intros H. unfold analyzeCoverage. cbn [files].
  rewrite truthy_ofZ by lia. rewrite slice0_negative by assumption.
  now rewrite array_sort_length.
Qed.

End PropertyFacts.

(* ================================================================== *)
(** ** The model on the inputs of the repository's tests *)

Section RepositoryTests.

(** The parser tests: "should parse a single file record" *)
Example test_single_record :
  parseLcov (unlines [ js "SF:src/index.ts"; js "LF:100"; js "LH:80";
                       js "FNF:10"; js "FNH:8"; js "BRF:20"; js "BRH:15";
                       js "end_of_record" ])
  = [ mkLcov (js "src/index.ts")
             (Fin 100) (Fin 80) (Fin 10) (Fin 8) (Fin 20) (Fin 15) ].
Proof. reflexivity. Qed.

(** "should handle empty content", "should handle content with only
    whitespace" *)
Example test_empty_content :
  parseLcov [] = [] /\
  parseLcov (unlines [js "   "; js ""; js "   "; js ""]) = [].
Proof. split; reflexivity. Qed.

(** "should handle records with missing metrics (defaults to 0)" *)
Example test_missing_metrics :
  parseLcov (unlines [ js "SF:src/partial.ts"; js "LF:50"; js "LH:25";
                       js "end_of_record" ])
  = [ mkLcov (js "src/partial.ts")
             (Fin 50) (Fin 25) (Fin 0) (Fin 0) (Fin 0) (Fin 0) ].
Proof. reflexivity. Qed.

(** "should ignore lines before SF record" *)
Example test_lines_before_record :
  map linesFound
      (parseLcov (unlines [ js "TN:"; js "LF:9999"; js "SF:src/actual.ts";
                            js "LF:50"; js "LH:25"; js "end_of_record" ]))
  = [Fin 50].
Proof. reflexivity. Qed.

(** "should handle mixed complete and incomplete records" *)
Example test_mixed_records :
  map file
      (parseLcov (unlines [ js "SF:src/complete.ts"; js "LF:100";
                            js "LH:50"; js "end_of_record";
                            js "SF:src/incomplete.ts"; js "LF:200";
                            js "LH:100" ]))
  = [js "src/complete.ts"].
Proof. reflexivity. Qed.

(** "should handle records with extra whitespace" *)
Example test_extra_whitespace :
  parseLcov (unlines [ js "  SF:src/whitespace.ts  "; js "  LF:50  ";
                       js "  LH:25  "; js "  FNF:5  "; js "  FNH:4  ";
                       js "  BRF:10  "; js "  BRH:8  ";
                       js "  end_of_record  " ])
  = [ mkLcov (js "src/whitespace.ts")
             (Fin 50) (Fin 25) (Fin 5) (Fin 4) (Fin 10) (Fin 8) ].
Proof. reflexivity. Qed.

(** The analyzer tests: "should handle empty file list" *)
Example test_overall_empty :
  calculateOverallCoverage []
  = mkOverall (mkMetric (Fin 0) (Fin 0) (Fin 100))
              (mkMetric (Fin 0) (Fin 0) (Fin 100))
              (mkMetric (Fin 0) (Fin 0) (Fin 100)) 0.
Proof.
  unfold calculateOverallCoverage. cbn [sumTotals fold_left t_linesFound
    t_linesHit t_functionsFound t_functionsHit t_branchesFound t_branchesHit
    List.length].
  now rewrite gt_false by lra.
Qed.

(** "should handle 100% coverage (zero priority)" *)
Example test_perfect_coverage :
  priorityScore
    (analyzeFile (mkLcov (js "src/perfect.ts") (Fin 100) (Fin 100)
                         (Fin 10) (Fin 10) (Fin 20) (Fin 20))
                 (mkWeights (Fin (/ 2)) (Fin (3 / 10)) (Fin (/ 5))))
  = Fin 0.
Proof.
  rewrite analyzeFile_score, rawScore_Fin.
  repeat match goal with
         | |- context [Rlt_dec ?a ?b] => destruct (Rlt_dec a b); [|lra]
         end.
  match goal with
  | |- round2 (Fin ?x) = _ => replace x with (IZR 0) by (simpl; field; pose proof ln_10_pos; lra)
  end.
  apply round2_int.
Qed.

End RepositoryTests.

(* ================================================================== *)
(** ** Properties of the parser *)

Section ParserProperties.

(** C1.  What [parseLcov] does with a counter line whose value is not a
    number: [parseInt] answers NaN and the assignment stores it, so the
    field of the emitted tally is NaN, not 0.  First the record with
    [LF:abc] and all other counters numeric, then the input of the
    repository's own test "should handle malformed numeric values
    gracefully (default to 0)". *)
Theorem malformed_counter_is_NaN :
  parseLcov (unlines [ js "SF:src/malformed.ts"; js "LF:abc"; js "LH:80";
                       js "FNF:10"; js "FNH:8"; js "BRF:20"; js "BRH:15";
                       js "end_of_record" ])
  = [ mkLcov (js "src/malformed.ts")
             NaN (Fin 80) (Fin 10) (Fin 8) (Fin 20) (Fin 15) ]
  /\
  parseLcov (unlines [ js "SF:src/malformed.ts"; js "LF:invalid";
                       js "LH:abc"; js "FNF:"; js "FNH:NaN";
                       js "BRF:undefined"; js "BRH:null";
                       js "end_of_record" ])
  = [ mkLcov (js "src/malformed.ts") NaN NaN NaN NaN NaN NaN ].
Proof. split; reflexivity. Qed.

(** C3, the claim as stated fails: a record opened by a file-path line,
    with a path, six integer counters and the end-of-record line, does
    not come back as written when its path ends with a space.  The
    parser reads the path from the trimmed line, so the record with the
    line "SF:a " gives the path "a". *)
Lemma round_trip_loses_trailing_space :
  let r := mkRecord [97; 32]%N [LF; LH; FNF; FNH; BRF; BRH] 1 2 3 4 5 6 in
  wellFormedAsWorded r = true /\
  parseLcov (render [r])
  = [mkLcov [97%N] (Fin 1) (Fin 2) (Fin 3) (Fin 4) (Fin 5) (Fin 6)] /\
  parseLcov (render [r]) <> map tallyOf [r].
Proof.
  intros r.
  assert (E : parseLcov (render [r])
              = [mkLcov [97%N] (Fin 1) (Fin 2) (Fin 3) (Fin 4) (Fin 5)
                        (Fin 6)]) by reflexivity.
  split; [reflexivity|]. split; [exact E|].
  rewrite E. intros H. discriminate H.
Qed.

(** C3, amended.  Round trip on well-formed input: the text of N records,
    each a file-path line whose path is on one line and does not end in
    white space, the six counters as decimal integers of absolute value
    at most 2^53 on one line each, in any order, then the end-of-record
    line, parses to exactly N tallies, in input order, each with the
    record's path and its six counters. *)
Theorem parse_round_trip (rs : list WellFormedRecord) :
  forallb wellFormed rs = true ->
  parseLcov (render rs) = map tallyOf rs /\
  List.length (parseLcov (render rs)) = List.length rs.
Proof.
  intros H.
  assert (E : parseLcov (render rs) = map tallyOf rs).
  { unfold render. rewrite parseLcov_unlines by now apply records_oneLine.
    now apply parse_records. }
  split; [exact E|]. rewrite E. apply length_map.
Qed.

Lemma parse_round_trip_witness :
  let rs := [ mkRecord (js "src/index.ts") [LF; LH; FNF; FNH; BRF; BRH]
                       100 80 10 8 20 15;
              mkRecord (js "C:/lib/my file.ts") [FNF; FNH; BRF; BRH; LH; LF]
                       0 0 7 (-3) 12 12 ] in
  forallb wellFormed rs = true /\
  parseLcov (render rs) = map tallyOf rs /\
  List.length (parseLcov (render rs)) = List.length rs.
Proof.
  intros rs. split; [reflexivity|].
  apply (parse_round_trip rs). reflexivity.
Defined.

(** C5, the claim as stated fails: on the line "SF:a " the path is "a";
    the untrimmed remainder after the marker would be "a " with its
    trailing space. *)
Lemma path_trailing_space_lost :
  let l := js "SF:a " in
  isStart l = true /\
  untrimmedRemainder l = js "a " /\
  map file (parseLcov (unlines [l; js "end_of_record"])) = [js "a"] /\
  map file (parseLcov (unlines [l; js "end_of_record"]))
  <> [untrimmedRemainder l].
Proof. repeat split; try reflexivity. discriminate. Qed.

(** C5, amended.  The path of an emitted tally is the remainder of the
    trimmed file-path line after the marker: the untrimmed remainder with
    its trailing white space removed.  White space between the marker and
    the path is kept, white space at the end of the line is not. *)
Theorem path_is_trimmed_remainder (A : list jsstring) (sf : jsstring)
  (body : list jsstring) (eor : jsstring) (B : list jsstring) :
  forallb oneLine (A ++ sf :: body ++ eor :: B) = true ->
  isStart sf = true -> forallb isBody body = true -> isEnd eor = true ->
  exists t,
    parseLcov (unlines (A ++ sf :: body ++ eor :: B))
    = parseLcov (unlines A) ++ t :: parseLcov (unlines B) /\
    file t = slice 3 (trim sf) /\
    file t = trimEnd (untrimmedRemainder sf) /\
    trimEnd (file t) = file t.
Proof.
  intros Hl Hs Hb He.
  destruct (parse_record A sf body eor B Hs Hb He) as (t & Hp & Hf & _).
  exists t. rewrite parseLcov_unlines by assumption.
  rewrite forallb_app in Hl. apply andb_true_iff in Hl as [HA Hl].
  simpl in Hl. apply andb_true_iff in Hl as [_ Hl].
  rewrite forallb_app in Hl. apply andb_true_iff in Hl as [_ Hl].
  simpl in Hl. apply andb_true_iff in Hl as [_ HB].
  rewrite !parseLcov_unlines by assumption.
  split; [exact Hp|]. split; [exact Hf|].
  rewrite Hf, (start_path sf Hs). split; [reflexivity|apply trimEnd_idem].
Qed.

Lemma path_is_trimmed_remainder_witness :
  exists t,
    parseLcov (unlines ([js "TN:"] ++ js "  SF:  my file.ts  "
                          :: [js "LF:3"] ++ js "end_of_record" :: []))
    = parseLcov (unlines [js "TN:"]) ++ t :: parseLcov (unlines []) /\
    file t = slice 3 (trim (js "  SF:  my file.ts  ")) /\
    file t = trimEnd (untrimmedRemainder (js "  SF:  my file.ts  ")) /\
    trimEnd (file t) = file t.
Proof.
  apply (path_is_trimmed_remainder [js "TN:"] (js "  SF:  my file.ts  ")
           [js "LF:3"] (js "end_of_record") []); reflexivity.
Defined.

(** C7.  A record opened by a file-path line and never closed contributes
    nothing: followed by another file-path line or by the end of input,
    the output is that of the text without the unclosed record, so no
    tally is emitted for it and none of its lines reaches another tally.
    A lone record without its end marker parses to the empty list. *)
Theorem unclosed_record_dropped (A : list jsstring) (sf : jsstring)
  (rest B : list jsstring) :
  forallb oneLine (A ++ (sf :: rest) ++ B) = true ->
  isStart sf = true ->
  forallb (fun l => negb (isEnd l)) rest = true ->
  match B with [] => true | l :: _ => isStart l end = true ->
  parseLcov (unlines (A ++ (sf :: rest) ++ B)) = parseLcov (unlines (A ++ B))
  /\ parseLcov (unlines (sf :: rest)) = [].
Proof.
  intros Hl Hs Hr HB.
  assert (HU : forallb (fun l => negb (isEnd l)) (sf :: rest) = true).
  { simpl. now rewrite (isStart_not_end sf Hs), Hr. }
  pose proof Hl as Hl'.
  rewrite !forallb_app in Hl'. apply andb_true_iff in Hl' as [HA Hl'].
  apply andb_true_iff in Hl' as [HUl HBl].
  split.
  - rewrite !parseLcov_unlines
      by (assumption || (rewrite forallb_app; now rewrite HA, HBl)).
    now apply parse_drop_unclosed.
  - rewrite parseLcov_unlines by assumption.
    pose proof (parse_drop_unclosed [] (sf :: rest) [] HU eq_refl) as H.
    rewrite app_nil_r in H. exact H.
Qed.

Lemma unclosed_record_dropped_witness :
  parseLcov (unlines ([js "SF:a.ts"; js "LF:1"; js "end_of_record"]
                      ++ (js "SF:open.ts" :: [js "LF:200"; js "LH:100"])
                      ++ [js "SF:b.ts"; js "LH:5"; js "end_of_record"]))
  = parseLcov (unlines ([js "SF:a.ts"; js "LF:1"; js "end_of_record"]
                        ++ [js "SF:b.ts"; js "LH:5"; js "end_of_record"]))
  /\ parseLcov (unlines (js "SF:open.ts" :: [js "LF:200"; js "LH:100"])) = [].
Proof.
  apply (unclosed_record_dropped
           [js "SF:a.ts"; js "LF:1"; js "end_of_record"]
           (js "SF:open.ts") [js "LF:200"; js "LH:100"]
           [js "SF:b.ts"; js "LH:5"; js "end_of_record"]); reflexivity.
Defined.

(** C10.  When a counter marker occurs on several lines of one record,
    the emitted tally holds the value of the last one: each counter line
    overwrites the field. *)
Theorem last_counter_line_wins (A : list jsstring) (sf : jsstring)
  (pre : list jsstring) (l : jsstring) (post : list jsstring)
  (eor : jsstring) (B : list jsstring) (c : counter) :
  forallb oneLine (A ++ sf :: (pre ++ l :: post) ++ eor :: B) = true ->
  isStart sf = true ->
  forallb isBody (pre ++ l :: post) = true ->
  isEnd eor = true ->
  isCounter c l = true ->
  forallb (fun x => negb (isCounter c x)) post = true ->
  exists t,
    parseLcov (unlines (A ++ sf :: (pre ++ l :: post) ++ eor :: B))
    = parseLcov (unlines A) ++ t :: parseLcov (unlines B) /\
    field c t = parseInt (counterText c l).
Proof.
  intros Hl Hs Hb He Hc Hp.
  destruct (parse_record A sf (pre ++ l :: post) eor B Hs Hb He)
    as (t & Hparse & _ & Hf).
  exists t. rewrite parseLcov_unlines by assumption.
  rewrite forallb_app in Hl. apply andb_true_iff in Hl as [HA Hl].
  simpl in Hl. apply andb_true_iff in Hl as [_ Hl].
  rewrite forallb_app in Hl. apply andb_true_iff in Hl as [_ Hl].
  simpl in Hl. apply andb_true_iff in Hl as [_ HB].
  rewrite !parseLcov_unlines by assumption.
  split; [exact Hparse|].
  rewrite Hf. now apply lastValue_last.
Qed.

Lemma last_counter_line_wins_witness :
  exists t,
    parseLcov (unlines ([] ++ js "SF:a.ts"
                          :: ([js "LF:1"; js "LH:1"] ++ js "LF:22"
                                :: [js "DA:1,5"; js "LH:7"])
                          ++ js "end_of_record" :: []))
    = parseLcov (unlines []) ++ t :: parseLcov (unlines []) /\
    field LF t = parseInt (counterText LF (js "LF:22")).
Proof.
  apply (last_counter_line_wins [] (js "SF:a.ts") [js "LF:1"; js "LH:1"]
           (js "LF:22") [js "DA:1,5"; js "LH:7"] (js "end_of_record") [] LF);
    reflexivity.
Defined.

End ParserProperties.

(* ================================================================== *)
(** ** The two arithmetics *)

Section PortableFacts.

Local Open Scope R_scope.

Lemma real_calibrated : Portable.Calibrated RealModel.arithmetic.
Proof.
  split.
  - change (gt (Fin 0) (Fin 0) = false). apply gt_false. lra.
  - change (Fin (100 - 100) = Fin 0). f_equal. lra.
  - exact round2_100.
Qed.

(** Beyond 2^53 binary64 does not hold every integer: the Number of the
    numeral 9007199254740993 is 9007199254740992, and that of a numeral
    of 310 digits is Infinity. *)
Lemma unsafe_integer_is_rounded :
  Binary64.ofZ 9007199254740993 = Binary64.ofZ 9007199254740992 /\
  Binary64.ofZ (10 ^ 309) = PrimFloat.infinity.
Proof. split; vm_compute; reflexivity. Qed.

Lemma binary64_calibrated (lg : Binary64.float -> Binary64.float) :
  Portable.Calibrated (Binary64.arithmetic lg).
Proof. split; vm_compute; reflexivity. Qed.

(** At the real arithmetic the portable analyzer is [analyzeFile]. *)
Lemma analyzeFile_portable (f : LcovFileData) (w : PriorityWeights) :
  RealModel.analyzed
    (Portable.analyzeFile (RealModel.tally f) (RealModel.weights w))
  = analyzeFile f w.
Proof. reflexivity. Qed.

Lemma sumTotals_portable (l : list LcovFileData) :
  let conv (t : @Portable.Totals RealModel.arithmetic) :=
    mkTotals (Portable.t_linesFound t) (Portable.t_linesHit t)
             (Portable.t_functionsFound t) (Portable.t_functionsHit t)
             (Portable.t_branchesFound t) (Portable.t_branchesHit t) in
  conv (Portable.sumTotals (map RealModel.tally l)) = sumTotals l.
Proof.
  intros conv. unfold Portable.sumTotals, sumTotals.
  set (z := Portable.mkTotals _ _ _ _ _ _).
  change (mkTotals (Fin 0) (Fin 0) (Fin 0) (Fin 0) (Fin 0) (Fin 0))
    with (conv z).
  generalize z. clear z. induction l as [|f l IH]; intros z; [reflexivity|].
  cbn [map fold_left]. rewrite IH. reflexivity.
Qed.

Lemma calculateOverallCoverage_portable (l : list LcovFileData) :
  RealModel.overallOf (Portable.calculateOverallCoverage (map RealModel.tally l))
  = calculateOverallCoverage l.
Proof.
  unfold Portable.calculateOverallCoverage, calculateOverallCoverage.
  rewrite <- (sumTotals_portable l). cbv zeta.
  unfold RealModel.overallOf, RealModel.metric.
  cbn [Portable.o_lines Portable.o_functions Portable.o_branches
       Portable.fileCount Portable.found Portable.hit Portable.coverage
       t_linesFound t_linesHit t_functionsFound t_functionsHit
       t_branchesFound t_branchesHit].
  now rewrite length_map.
Qed.

End PortableFacts.

(* ================================================================== *)
(** ** The two arithmetics on examples *)

Section ArithmeticsCompared.

Local Open Scope R_scope.

(** The analyzer tests in binary64: "should calculate coverage
    percentages correctly" (80, 70 and 60 percent; 20 uncovered lines and
    8 uncovered branches), and the aggregate of "should calculate totals
    from multiple files" (23 of 30 branches: 76.67). *)
Example test_percentages_binary64 (lg : Binary64.float -> Binary64.float) :
  let f := @Portable.mkLcov (Binary64.arithmetic lg) (js "src/test.ts")
             (Binary64.ofZ 100) (Binary64.ofZ 80)
             (Binary64.ofZ 10) (Binary64.ofZ 7)
             (Binary64.ofZ 20) (Binary64.ofZ 12) in
  let w := @Portable.mkWeights (Binary64.arithmetic lg)
             (PrimFloat.div (Binary64.ofZ 5) (Binary64.ofZ 10))
             (PrimFloat.div (Binary64.ofZ 3) (Binary64.ofZ 10))
             (PrimFloat.div (Binary64.ofZ 2) (Binary64.ofZ 10)) in
  let a := Portable.analyzeFile f w in
  let o := Portable.calculateOverallCoverage
             [ @Portable.mkLcov (Binary64.arithmetic lg) (js "src/file1.ts")
                 (Binary64.ofZ 100) (Binary64.ofZ 80)
                 (Binary64.ofZ 10) (Binary64.ofZ 8)
                 (Binary64.ofZ 20) (Binary64.ofZ 15);
               @Portable.mkLcov (Binary64.arithmetic lg) (js "src/file2.ts")
                 (Binary64.ofZ 50) (Binary64.ofZ 40)
                 (Binary64.ofZ 5) (Binary64.ofZ 4)
                 (Binary64.ofZ 10) (Binary64.ofZ 8) ] in
  Portable.coverage (Portable.a_lines a) = Binary64.ofZ 80 /\
  Portable.coverage (Portable.a_functions a) = Binary64.ofZ 70 /\
  Portable.coverage (Portable.a_branches a) = Binary64.ofZ 60 /\
  Portable.uncoveredLines a = Binary64.ofZ 20 /\
  Portable.uncoveredBranches a = Binary64.ofZ 8 /\
  Portable.found (Portable.o_lines o) = Binary64.ofZ 150 /\
  Portable.hit (Portable.o_lines o) = Binary64.ofZ 120 /\
  Portable.coverage (Portable.o_lines o) = Binary64.ofZ 80 /\
  Portable.coverage (Portable.o_branches o)
  = PrimFloat.div (Binary64.ofZ 7667) (Binary64.ofZ 100).
Proof. intros f w a o. repeat split; vm_compute; reflexivity. Qed.

(** Where the two arithmetics part.  For 9 of 9 lines, 83 of 160
    branches and the weights (1, 0, 0) the raw score is 48.125 times
    log10(10).  The real-number model rounds 4812.5 to 4813 and stores
    48.13; binary64 computes 4812.499999999999 (with log10(10) = 1, as
    engines answer) and stores 48.12. *)
Lemma score_in_the_two_arithmetics :
  priorityScore
    (analyzeFile (mkLcov (js "a.ts") (Fin 9) (Fin 9) (Fin 0) (Fin 0)
                         (Fin 160) (Fin 83))
                 (mkWeights (Fin 1) (Fin 0) (Fin 0)))
  = Fin (4813 / 100) /\
  (forall lg : Binary64.float -> Binary64.float,
     lg (Binary64.ofZ 10) = Binary64.ofZ 1 ->
     Portable.priorityScore
       (Portable.analyzeFile
          (@Portable.mkLcov (Binary64.arithmetic lg) (js "a.ts")
             (Binary64.ofZ 9) (Binary64.ofZ 9) (Binary64.ofZ 0)
             (Binary64.ofZ 0) (Binary64.ofZ 160) (Binary64.ofZ 83))
          (@Portable.mkWeights (Binary64.arithmetic lg)
             (Binary64.ofZ 1) (Binary64.ofZ 0) (Binary64.ofZ 0)))
     = PrimFloat.div (Binary64.ofZ 4812) (Binary64.ofZ 100)).
Proof.
  split.
  - rewrite analyzeFile_score, rawScore_Fin, round2_Fin.
    destruct (Rlt_dec 0 0) as [H0|_]; [lra|].
    destruct (Rlt_dec 0 9) as [_|H9]; [|lra].
    destruct (Rlt_dec 0 160) as [_|H9]; [|lra].
    rewrite Rmax_left by lra.
    replace (ln (9 + 1) / ln 10) with 1
      by (replace (9 + 1) with 10 by lra; field;
          pose proof ln_10_pos; lra).
    f_equal. rewrite (Zfloor_eq 4813) by lra. lra.
  - intros lg H.
    assert (K : forall s : Binary64.float, s = Binary64.ofZ 1 ->
              @Portable.round2 (Binary64.arithmetic lg)
                (PrimFloat.mul
                   (PrimFloat.sub (Binary64.ofZ 100)
                      (PrimFloat.mul
                         (PrimFloat.div (Binary64.ofZ 83) (Binary64.ofZ 160))
                         (Binary64.ofZ 100)))
                   s)
              = PrimFloat.div (Binary64.ofZ 4812) (Binary64.ofZ 100))
      by (intros s ->; vm_compute; reflexivity).
    rewrite <- (K _ H).
    unfold Portable.analyzeFile, Portable.round2.
    cbn [Portable.priorityScore Portable.linesFound Portable.linesHit
         Portable.functionsFound Portable.functionsHit
         Portable.branchesFound Portable.branchesHit Portable.w_branches
         Portable.w_functions Portable.w_lines].
    cbn [Portable.over Portable.round Portable.times Portable.plus
         Portable.minus Portable.lit Portable.greater Portable.log10
         Portable.largest Binary64.arithmetic].
    repeat f_equal; vm_compute; reflexivity.
Qed.

End ArithmeticsCompared.

(* ================================================================== *)
(** ** Properties of the scorer *)

Section ScorerProperties.

Local Open Scope R_scope.

(** C2.  In the arithmetic the code runs in, whichever it is,
    [analyzeFile] returns the priority score
    (branchGap * weights.branches + functionGap * weights.functions
     + lineGap * weights.lines) * log10(max(linesFound, 1) + 1)
    rounded to two decimals, each gap being 100 minus the category's
    coverage percentage; the three stored percentages are rounded to two
    decimals as well; and a category with found = 0 has gap 0.  The
    operations are those of the arithmetic, applied in the order the
    formula is written in: nothing is said about the real number the
    formula would denote. *)
Theorem analyzeFile_formula (A : Portable.Arithmetic)
  (C : Portable.Calibrated A) (f : Portable.LcovFileData A)
  (w : Portable.PriorityWeights A) :
  Portable.priorityScore (Portable.analyzeFile f w)
  = Portable.round2 (Portable.rawScore f w) /\
  Portable.coverage (Portable.a_lines (Portable.analyzeFile f w))
  = Portable.round2
      (Portable.coveragePercent (Portable.linesFound f) (Portable.linesHit f))
  /\
  Portable.coverage (Portable.a_functions (Portable.analyzeFile f w))
  = Portable.round2
      (Portable.coveragePercent (Portable.functionsFound f)
                                (Portable.functionsHit f)) /\
  Portable.coverage (Portable.a_branches (Portable.analyzeFile f w))
  = Portable.round2
      (Portable.coveragePercent (Portable.branchesFound f)
                                (Portable.branchesHit f)) /\
  (forall ht, Portable.gap (Portable.lit 0) ht = Portable.lit 0).
Proof.
  repeat split. intros ht. unfold Portable.gap, Portable.coveragePercent.
  rewrite Portable.zero_not_positive. apply Portable.hundred_minus_hundred.
Qed.




(** C8, the claim as stated fails: the per-file and the aggregate
    percentages are not one rule.  For 23 hits of 160 found, in binary64,
    [analyzeFile] stores 1437/100 and [calculateOverallCoverage] stores
    1438/100, two different numbers (the exact percentage is 14.375). *)
Lemma file_and_aggregate_percentages_differ :
  (forall lg : Binary64.float -> Binary64.float,
     let t := @Portable.mkLcov (Binary64.arithmetic lg) (js "a.ts")
                (Binary64.ofZ 160) (Binary64.ofZ 23)
                (Binary64.ofZ 0) (Binary64.ofZ 0)
                (Binary64.ofZ 0) (Binary64.ofZ 0) in
     let w := @Portable.mkWeights (Binary64.arithmetic lg)
                (Binary64.ofZ 1) (Binary64.ofZ 1) (Binary64.ofZ 1) in
     Portable.coverage (Portable.a_lines (Portable.analyzeFile t w))
     = PrimFloat.div (Binary64.ofZ 1437) (Binary64.ofZ 100) /\
     Portable.coverage
       (Portable.o_lines (Portable.calculateOverallCoverage [t]))
     = PrimFloat.div (Binary64.ofZ 1438) (Binary64.ofZ 100)) /\
  PrimFloat.eqb (PrimFloat.div (Binary64.ofZ 1437) (Binary64.ofZ 100))
                (PrimFloat.div (Binary64.ofZ 1438) (Binary64.ofZ 100))
  = false.
Proof.
  split; [|vm_compute; reflexivity].
  intros lg t w. split; vm_compute; reflexivity.
Qed.

(** C8, amended.  In every arithmetic, for lines, functions and branches:
    the per-file percentage is 100 unless found > 0 (so for found zero,
    negative or NaN), and then Math.round(hit / found * 100 * 100) / 100;
    the aggregate percentage is 100 unless the total found > 0, and then
    Math.round(hit / found * 10000) / 100; found = 0 gives 100 in both;
    the division is reached only when found > 0. *)
Theorem coverage_percent_rule (A : Portable.Arithmetic)
  (C : Portable.Calibrated A) (f : Portable.LcovFileData A)
  (w : Portable.PriorityWeights A) (tallies : list (Portable.LcovFileData A)) :
  (Portable.fileRule (Portable.a_lines (Portable.analyzeFile f w)) /\
   Portable.fileRule (Portable.a_functions (Portable.analyzeFile f w)) /\
   Portable.fileRule (Portable.a_branches (Portable.analyzeFile f w))) /\
  (Portable.aggregateRule
     (Portable.o_lines (Portable.calculateOverallCoverage tallies)) /\
   Portable.aggregateRule
     (Portable.o_functions (Portable.calculateOverallCoverage tallies)) /\
   Portable.aggregateRule
     (Portable.o_branches (Portable.calculateOverallCoverage tallies))) /\
  (Portable.found (Portable.a_lines (Portable.analyzeFile f w))
   = Portable.linesFound f /\
   Portable.hit (Portable.a_lines (Portable.analyzeFile f w))
   = Portable.linesHit f /\
   Portable.found (Portable.a_functions (Portable.analyzeFile f w))
   = Portable.functionsFound f /\
   Portable.hit (Portable.a_functions (Portable.analyzeFile f w))
   = Portable.functionsHit f /\
   Portable.found (Portable.a_branches (Portable.analyzeFile f w))
   = Portable.branchesFound f /\
   Portable.hit (Portable.a_branches (Portable.analyzeFile f w))
   = Portable.branchesHit f) /\
  (forall m : Portable.CoverageMetric A,
     Portable.found m = Portable.lit 0 ->
     (Portable.fileRule m -> Portable.coverage m = Portable.lit 100) /\
     (Portable.aggregateRule m -> Portable.coverage m = Portable.lit 100)).
Proof.
  assert (F : forall fnd ht : Portable.num,
            Portable.fileRule
              (Portable.mkMetric fnd ht
                 (Portable.over
                    (Portable.round
                       (Portable.times
                          (if Portable.greater fnd (Portable.lit 0)
                           then Portable.times (Portable.over ht fnd)
                                               (Portable.lit 100)
                           else Portable.lit 100)
                          (Portable.lit 100)))
                    (Portable.lit 100)))).
  { intros fnd ht. unfold Portable.fileRule.
    cbn [Portable.found Portable.hit Portable.coverage].
    split; intros ->; [apply Portable.hundred_rounded|reflexivity]. }
  assert (G : forall fnd ht : Portable.num,
            Portable.aggregateRule
              (Portable.mkMetric fnd ht
                 (if Portable.greater fnd (Portable.lit 0)
                  then Portable.over
                         (Portable.round
                            (Portable.times (Portable.over ht fnd)
                                            (Portable.lit 10000)))
                         (Portable.lit 100)
                  else Portable.lit 100))).
  { intros fnd ht. unfold Portable.aggregateRule.
    cbn [Portable.found Portable.hit Portable.coverage].
    split; intros ->; reflexivity. }
  split; [|split; [|split]].
  - repeat split; apply F.
  - repeat split; apply G.
  - repeat split.
  - intros m Hm. split; intros [H0 _]; apply H0; rewrite Hm;
      apply Portable.zero_not_positive.
Qed.

(** C4, the claim as stated fails: a negative top is truthy, so
    [slice(0, top)] runs and drops entries from the end.  With two
    survivors and top = -1 only one file is returned. *)
Lemma negative_top_truncates :
  let fs := [ mkLcov (js "a.ts") (Fin 10) (Fin 5)
                     (Fin 0) (Fin 0) (Fin 0) (Fin 0);
              mkLcov (js "b.ts") (Fin 20) (Fin 5)
                     (Fin 0) (Fin 0) (Fin 0) (Fin 0) ] in
  let w := mkWeights (Fin 1) (Fin 1) (Fin 1) in
  List.length (survivors fs w (Fin 0)) = 2%nat /\
  List.length (files (analyzeCoverage fs w (Fin 0) (Some (ofZ (-1))))) = 1%nat
  /\
  files (analyzeCoverage fs w (Fin 0) (Some (ofZ (-1))))
  <> files (analyzeCoverage fs w (Fin 0) None).
Proof.
  intros fs w.
  assert (L : List.length (survivors fs w (Fin 0)) = 2%nat).
  { unfold survivors, fs. cbn [filter linesFound].
    rewrite !ge_true by lra. reflexivity. }
  pose proof (analyze_files_negative fs w (Fin 0) 1 eq_refl) as H.
  change (ofZ (Z.opp 1)) with (ofZ (-1)) in H.
  assert (L1 : List.length
                 (files (analyzeCoverage fs w (Fin 0) (Some (ofZ (-1)))))
               = 1%nat).
  { rewrite H, length_firstn, array_sort_length, L. reflexivity. }
  split; [exact L|]. split; [exact L1|].
  intros E. rewrite E, analyze_files_null, array_sort_length, L in L1.
  discriminate L1.
Qed.

(** C4, the restriction to scores other than NaN is needed: a malformed
    LH line gives a NaN hit counter (C1), hence a NaN score, and then the
    two files returned are not in descending order, whichever way round
    the engine leaves them. *)
Lemma nan_score_breaks_order :
  let fs := [ mkLcov (js "a.ts") (Fin 10) NaN
                     (Fin 0) (Fin 0) (Fin 0) (Fin 0);
              mkLcov (js "b.ts") (Fin 20) (Fin 5)
                     (Fin 0) (Fin 0) (Fin 0) (Fin 0) ] in
  let w := mkWeights (Fin 1) (Fin 1) (Fin 1) in
  List.length (files (analyzeCoverage fs w (Fin 0) None)) = 2%nat /\
  (forall l, Permutation l (files (analyzeCoverage fs w (Fin 0) None)) ->
             ~ descending l).
Proof.
  intros fs w.
  assert (L : survivors fs w (Fin 0)
              = [analyzeFile (mkLcov (js "a.ts") (Fin 10) NaN
                                     (Fin 0) (Fin 0) (Fin 0) (Fin 0)) w;
                 analyzeFile (mkLcov (js "b.ts") (Fin 20) (Fin 5)
                                     (Fin 0) (Fin 0) (Fin 0) (Fin 0)) w]).
  { unfold survivors, fs. cbn [filter linesFound].
    rewrite !ge_true by lra. reflexivity. }
  rewrite analyze_files_null. split.
  - now rewrite array_sort_length, L.
  - intros l Hl. apply nan_never_descending.
    + assert (Hp : Permutation l (survivors fs w (Fin 0)))
        by (eapply Permutation_trans; [exact Hl|apply array_sort_perm]).
      apply Exists_exists.
      exists (analyzeFile (mkLcov (js "a.ts") (Fin 10) NaN
                                  (Fin 0) (Fin 0) (Fin 0) (Fin 0)) w).
      split.
      * apply (Permutation_in _ (Permutation_sym Hp)). rewrite L. now left.
      * apply nan_hit_nan_score; [apply gt_true; lra|reflexivity].
    + rewrite (Permutation_length Hl), array_sort_length, L. simpl. lia.
Qed.

(** C4, amended.  [analyzeCoverage] returns the survivors of the minLines
    filter, scored and reordered.  They are in descending order of the
    stored rounded priority score when none of these scores is NaN,
    which is so when the counters are finite and not negative, no
    category with found > 0 has more hits than found, and the weights
    are finite and not negative; with a NaN score among two or more survivors no
    arrangement of them is in descending order.  The list is cut to its
    first top entries when top is a positive integer, and is returned
    whole when top is null or zero.  A negative top is not "no limit":
    top = -k drops the last k entries. *)
Theorem analyze_sort_and_top (tallies : list LcovFileData)
  (w : PriorityWeights) (minLines : number) :
  let sorted := array_sort byScoreDesc (survivors tallies w minLines) in
  Permutation sorted (survivors tallies w minLines) /\
  (Forall (fun a => isNaN (priorityScore a) = false)
          (survivors tallies w minLines) ->
   descending sorted) /\
  (Forall wellCounted tallies -> nonnegWeights w ->
   Forall (fun a => isNaN (priorityScore a) = false)
          (survivors tallies w minLines)) /\
  (Exists (fun a => isNaN (priorityScore a) = true)
          (survivors tallies w minLines) ->
   (2 <= List.length (survivors tallies w minLines))%nat ->
   forall l, Permutation l (survivors tallies w minLines) ->
             ~ descending l) /\
  files (analyzeCoverage tallies w minLines None) = sorted /\
  files (analyzeCoverage tallies w minLines (Some (Fin 0))) = sorted /\
  (forall k : Z, (0 < k)%Z ->
     files (analyzeCoverage tallies w minLines (Some (ofZ k)))
     = firstn (Z.to_nat k) sorted) /\
  (forall k : Z, (0 < k)%Z ->
     files (analyzeCoverage tallies w minLines (Some (ofZ (- k))))
     = firstn (List.length (survivors tallies w minLines) - Z.to_nat k)
              sorted).
Proof.
  intros sorted. split; [apply array_sort_perm|].
  split; [apply sorted_descending_scores|].
  split; [apply wellCounted_scores|].
  split.
  { intros He Hl l Hp. apply nan_never_descending.
    - apply Exists_exists in He as (a & Ha & Hn). apply Exists_exists.
      exists a. split; [|exact Hn].
      exact (Permutation_in _ (Permutation_sym Hp) Ha).
    - now rewrite (Permutation_length Hp). }
  split; [apply analyze_files_null|].
  split; [apply analyze_files_zero|].
  split; intros k Hk.
  - now apply analyze_files_positive.
  - now apply analyze_files_negative.
Qed.

Lemma analyze_sort_and_top_witness :
  let fs := [ mkLcov (js "src/high.ts") (Fin 100) (Fin 95)
                     (Fin 10) (Fin 10) (Fin 20) (Fin 19);
              mkLcov (js "src/low.ts") (Fin 100) (Fin 20)
                     (Fin 10) (Fin 2) (Fin 20) (Fin 4);
              mkLcov (js "src/tiny.ts") (Fin 5) (Fin 0)
                     (Fin 0) (Fin 0) (Fin 0) (Fin 0) ] in
  let w := mkWeights (Fin (/ 2)) (Fin (3 / 10)) (Fin (/ 5)) in
  descending (array_sort byScoreDesc (survivors fs w (Fin 10))) /\
  files (analyzeCoverage fs w (Fin 10) (Some (ofZ 1)))
  = firstn 1 (array_sort byScoreDesc (survivors fs w (Fin 10))) /\
  files (analyzeCoverage fs w (Fin 10) (Some (ofZ (- 2))))
  = firstn (List.length (survivors fs w (Fin 10)) - 2)
           (array_sort byScoreDesc (survivors fs w (Fin 10))).
Proof.
  intros fs w.
  destruct (analyze_sort_and_top fs w (Fin 10))
    as (_ & Hd & Hs & _ & _ & _ & Hp & Hn).
  split; [|split].
  - apply Hd, Hs.
    + repeat constructor; simpl; try lra; intros _; apply ge_true; lra.
    + repeat split; simpl; lra.
  - apply (Hp 1%Z). reflexivity.
  - apply (Hn 2%Z). reflexivity.
Defined.

(** C9.  The aggregate does not depend on the filter or the limit: for
    any two values of minLines and of top the overall part is the same,
    it is the aggregate of the unfiltered input, and its fileCount is the
    number of all tallies. *)
Theorem overall_independent_of_filter (tallies : list LcovFileData)
  (w : PriorityWeights) (m1 m2 : number) (top1 top2 : option number) :
  overall (analyzeCoverage tallies w m1 top1)
  = overall (analyzeCoverage tallies w m2 top2) /\
  overall (analyzeCoverage tallies w m1 top1)
  = calculateOverallCoverage tallies /\
  fileCount (overall (analyzeCoverage tallies w m1 top1))
  = List.length tallies.
Proof. repeat split. Qed.

End ScorerProperties.

Section ScorerWitnesses.

Lemma analyzeFile_formula_witness :
  (forall ht : number,
     @Portable.gap RealModel.arithmetic (Fin 0) ht = Fin 0) /\
  (forall (lg : Binary64.float -> Binary64.float) (ht : Binary64.float),
     @Portable.gap (Binary64.arithmetic lg) (Binary64.ofZ 0) ht
     = Binary64.ofZ 0).
Proof.
  split.
  - apply (analyzeFile_formula RealModel.arithmetic real_calibrated
             (RealModel.tally
                (mkLcov (js "a.ts") (Fin 9) (Fin 9) (Fin 0) (Fin 0)
                        (Fin 160) (Fin 83)))
             (RealModel.weights (mkWeights (Fin 1) (Fin 0) (Fin 0)))).
  - intros lg.
    apply (analyzeFile_formula (Binary64.arithmetic lg)
             (binary64_calibrated lg)
             (@Portable.mkLcov (Binary64.arithmetic lg) (js "a.ts")
                (Binary64.ofZ 9) (Binary64.ofZ 9) (Binary64.ofZ 0)
                (Binary64.ofZ 0) (Binary64.ofZ 160) (Binary64.ofZ 83))
             (@Portable.mkWeights (Binary64.arithmetic lg)
                (Binary64.ofZ 1) (Binary64.ofZ 0) (Binary64.ofZ 0))).
Defined.

Lemma coverage_percent_rule_witness :
  (forall lg : Binary64.float -> Binary64.float,
     let t := @Portable.mkLcov (Binary64.arithmetic lg) (js "src/empty.ts")
                (Binary64.ofZ 50) (Binary64.ofZ 25)
                (Binary64.ofZ 0) (Binary64.ofZ 0)
                (Binary64.ofZ 0) (Binary64.ofZ 0) in
     let w := @Portable.mkWeights (Binary64.arithmetic lg)
                (Binary64.ofZ 1) (Binary64.ofZ 1) (Binary64.ofZ 1) in
     Portable.coverage (Portable.a_branches (Portable.analyzeFile t w))
     = Binary64.ofZ 100) /\
  coverage (a_branches
              (analyzeFile
                 (mkLcov (js "src/empty.ts") (Fin 50) (Fin 25)
                         (Fin 0) (Fin 0) (Fin 0) (Fin 0))
                 (mkWeights (Fin 1) (Fin 1) (Fin 1))))
  = Fin 100.
Proof.
  split.
  - intros lg t w.
    destruct (coverage_percent_rule (Binary64.arithmetic lg)
                (binary64_calibrated lg) t w [])
      as ((_ & _ & Hb) & _).
    destruct Hb as (H0 & _). apply H0. reflexivity.
  - destruct (coverage_percent_rule RealModel.arithmetic real_calibrated
                (RealModel.tally
                   (mkLcov (js "src/empty.ts") (Fin 50) (Fin 25)
                           (Fin 0) (Fin 0) (Fin 0) (Fin 0)))
                (RealModel.weights (mkWeights (Fin 1) (Fin 1) (Fin 1))) [])
      as ((_ & _ & Hb) & _).
    destruct Hb as (H0 & _). apply H0. apply gt_false.
    apply Rle_refl.
Defined.

End ScorerWitnesses.

(* ================================================================== *)
(** ** More about the parser *)

Section ParserExtras.

Lemma split_lines_oneLine (s : jsstring) : forallb oneLine (split s) = true.
Proof.
  induction s as [|c r IH]; [reflexivity|].
  simpl. destruct (N.eqb_spec c newline) as [E|E].
  - simpl. exact IH.
  - destruct (split r) as [|l ls]; simpl in *.
    + unfold oneLine. simpl. apply N.eqb_neq in E. now rewrite E.
    + apply andb_true_iff in IH as [Hl Hls]. rewrite Hls, andb_true_r.
      unfold oneLine in *. simpl. rewrite Hl, andb_true_r.
      apply N.eqb_neq in E. now rewrite E.
Qed.

Lemma filter_oneLine (p : jsstring -> bool) (ls : list jsstring) :
  forallb oneLine ls = true -> forallb oneLine (filter p ls) = true.
Proof.
  induction ls as [|l ls IH]; simpl; [reflexivity|].
  intros H. apply andb_true_iff in H as [Hl Hls].
  destruct (p l); simpl; [rewrite Hl|]; auto.
Qed.

Lemma step_trim_eq (st : state) (l l' : jsstring) :
  trim l = trim l' -> step st l = step st l'.
Proof. intros H. destruct st as [fs cur]. unfold step. now rewrite H. Qed.

Lemma step_irrelevant (st : state) (l : jsstring) :
  isRelevant l = false -> step st l = st.
Proof.
  unfold isRelevant. intros H.
  apply orb_false_iff in H as [H Hc]. apply orb_false_iff in H as [Hs He].
  destruct st as [fs [cur|]].
  - apply step_ignored.
    + unfold isBody. now rewrite Hs, He.
    + intros c. simpl in Hc.
      repeat (apply orb_false_iff in Hc as [? Hc]). now destruct c.
  - now apply step_none.
Qed.

Lemma run_filter_relevant (ls : list jsstring) (st : state) :
  run st (filter isRelevant ls) = run st ls.
Proof.
  revert st. induction ls as [|l ls IH]; intros st; [reflexivity|].
  simpl. destruct (isRelevant l) eqn:E.
  - apply IH.
  - change (run st (l :: ls)) with (run (step st l) ls).
    now rewrite step_irrelevant.
Qed.

Lemma run_no_start (pre : list jsstring) (fs : list LcovFileData) :
  forallb (fun l => negb (isStart l)) pre = true ->
  run (fs, None) pre = (fs, None).
Proof.
  induction pre as [|l pre IH]; intros H; [reflexivity|].
  simpl in H. apply andb_true_iff in H as [Hl Hp].
  apply negb_true_iff in Hl.
  change (run (fs, None) (l :: pre)) with (run (step (fs, None) l) pre).
  rewrite step_none by assumption. now apply IH.
Qed.

Lemma step_end_closes (fs : list LcovFileData) (cur : option LcovFileData)
  (l : jsstring) :
  isEnd l = true -> snd (step (fs, cur) l) = None.
Proof.
  intros H. destruct cur as [c|].
  - now rewrite step_end.
  - rewrite step_none; [reflexivity|].
    destruct (isStart l) eqn:E; [|reflexivity].
    apply isStart_not_end in E. congruence.
Qed.

Lemma run_closed (A : list jsstring) (fs : list LcovFileData)
  (cur : option LcovFileData) (o : bool) :
  (o = false -> cur = None) ->
  fold_left
    (fun o l => if isStart l then true else if isEnd l then false else o)
    A o = false ->
  snd (run (fs, cur) A) = None.
Proof.
  revert fs cur o. induction A as [|l A IH]; intros fs cur o Hc Ho.
  - simpl in *. auto.
  - change (run (fs, cur) (l :: A)) with (run (step (fs, cur) l) A).
    simpl in Ho.
    destruct (step (fs, cur) l) as [fs' cur'] eqn:Es.
    apply (IH fs' cur' _ ) in Ho; [exact Ho|].
    destruct (isStart l) eqn:E1; [discriminate|].
    destruct (isEnd l) eqn:E2.
    + intros _. pose proof (step_end_closes fs cur l E2) as H.
      now rewrite Es in H.
    + intros Hof. rewrite (Hc Hof), step_none in Es by assumption.
      now inversion Es.
Qed.

Lemma parseLines_app (A B : list jsstring) :
  openAtEnd A = false
  \/ match B with [] => true | l :: _ => isStart l end = true ->
  parseLines (A ++ B) = parseLines A ++ parseLines B.
Proof.
  intros H. unfold parseLines. rewrite run_app.
  destruct (run ([], None) A) as [fs cA] eqn:EA.
  destruct H as [H|H].
  - pose proof (run_closed A [] None false (fun _ => eq_refl) H) as Hc.
    rewrite EA in Hc. simpl in Hc. subst cA.
    now rewrite run_shift.
  - destruct B as [|sf B']; [simpl; now rewrite app_nil_r|].
    change (run (fs, cA) (sf :: B')) with (run (step (fs, cA) sf) B').
    change (run ([], None) (sf :: B')) with (run (step ([], None) sf) B').
    rewrite !step_start by assumption. now rewrite run_shift.
Qed.

Lemma trimEnd_app_ws (s : jsstring) (c : N) :
  isWhiteSpace c = true -> trimEnd (s ++ [c]) = trimEnd s.
Proof.
  intros H. induction s as [|a s IH].
  - simpl. now rewrite H.
  - simpl. now rewrite IH.
Qed.

Lemma trimStart_app_ws (s : jsstring) (c : N) :
  isWhiteSpace c = true ->
  trimStart (s ++ [c]) = trimStart s ++ [c] \/
  (trimStart (s ++ [c]) = [] /\ trimStart s = []).
Proof.
  intros H. induction s as [|a s IH].
  - right. simpl. now rewrite H.
  - simpl. destruct (isWhiteSpace a); [exact IH|]. now left.
Qed.

Lemma trim_app_ws (s : jsstring) (c : N) :
  isWhiteSpace c = true -> trim (s ++ [c]) = trim s.
Proof.
  intros H. unfold trim.
  destruct (trimStart_app_ws s c H) as [E|[E1 E2]].
  - rewrite E. now apply trimEnd_app_ws.
  - now rewrite E1, E2.
Qed.

Lemma run_trim_eq (ls ls' : list jsstring) (st : state) :
  Forall2 (fun l l' => trim l = trim l') ls ls' ->
  run st ls = run st ls'.
Proof.
  intros H. revert st. induction H as [|l l' ls ls' Hl _ IH]; intros st.
  - reflexivity.
  - change (run st (l :: ls)) with (run (step st l) ls).
    change (run st (l' :: ls')) with (run (step st l') ls').
    rewrite (step_trim_eq st l l' Hl). apply IH.
Qed.

Lemma split_toCRLF (s : jsstring) :
  Forall2 (fun l' l => l' = l \/ l' = l ++ [13%N])
          (split (toCRLF s)) (split s).
Proof.
  induction s as [|c r IH].
  - simpl. constructor; [now left|constructor].
  - unfold toCRLF. simpl flat_map. fold (toCRLF r).
    simpl split at 2.
    destruct (N.eqb_spec c newline) as [E|E].
    + subst c. change (([13%N; newline] ++ toCRLF r))
        with (13%N :: (newline :: toCRLF r)).
      change (split (13%N :: newline :: toCRLF r))
        with (match split (newline :: toCRLF r) with
              | [] => [[13%N]]
              | l :: ls => (13%N :: l) :: ls
              end).
      change (split (newline :: toCRLF r)) with ([] :: split (toCRLF r)).
      constructor; [now right|exact IH].
    + change ([c] ++ toCRLF r) with (c :: toCRLF r).
      simpl split. apply N.eqb_neq in E. rewrite E.
      destruct IH as [|l' l ls' ls Hl Hls]; [constructor; [now left|constructor]|].
      constructor; [|exact Hls].
      destruct Hl as [->| ->]; [now left|now right].
Qed.

Lemma run_grows (ls : list jsstring) (fs : list LcovFileData)
  (cur : option LcovFileData) :
  List.length (fst (run (fs, cur) ls))
  <= List.length fs + countLines isEnd ls /\
  List.length (fst (run (fs, cur) ls)) + openCount (snd (run (fs, cur) ls))
  <= List.length fs + openCount cur + countLines isStart ls.
Proof.
  revert fs cur. induction ls as [|l ls IH]; intros fs cur.
  - simpl. unfold countLines. simpl. lia.
  - change (run (fs, cur) (l :: ls)) with (run (step (fs, cur) l) ls).
    unfold countLines in *. simpl filter.
    destruct (isStart l) eqn:Es.
    + rewrite step_start by assumption.
      rewrite (isStart_not_end l Es).
      specialize (IH fs (Some (mkLcov (slice 3 (trim l)) (Fin 0) (Fin 0)
                                      (Fin 0) (Fin 0) (Fin 0) (Fin 0)))).
      cbn [List.length openCount] in *. destruct cur; cbn [openCount]; lia.
    + destruct (isEnd l) eqn:Ee.
      * destruct cur as [c|].
        -- rewrite step_end by assumption. specialize (IH (fs ++ [c]) None).
           rewrite length_app in IH. cbn [List.length openCount] in *. lia.
        -- rewrite step_none by assumption. specialize (IH fs None).
           cbn [List.length openCount] in *. lia.
      * destruct cur as [c|].
        -- assert (Hb : isBody l = true) by (unfold isBody; now rewrite Es, Ee).
           destruct (step_body fs c l Hb) as (c' & -> & _).
           specialize (IH fs (Some c')). cbn [openCount] in *. lia.
        -- rewrite step_none by assumption. specialize (IH fs None). lia.
Qed.

(** X1.  Lines that carry no marker (test names, per-line and
    per-branch detail, blank lines) never change the result: deleting
    them from any text leaves the parsed tallies as they were. *)
Theorem irrelevant_lines_ignored (s : jsstring) :
  parseLcov (unlines (filter isRelevant (split s))) = parseLcov s.
Proof.
  rewrite parseLcov_unlines
    by (apply filter_oneLine, split_lines_oneLine).
  unfold parseLcov, parseLines. now rewrite run_filter_relevant.
Qed.

(** X2.  Everything before the first file-path line is ignored, counter
    lines and end-of-record lines included. *)
Theorem lines_before_first_record_ignored (pre b : jsstring) :
  forallb (fun l => negb (isStart l)) (split pre) = true ->
  parseLcov (pre ++ newline :: b) = parseLcov b.
Proof.
  intros H. unfold parseLcov, parseLines.
  rewrite split_app, run_app, run_no_start by assumption. reflexivity.
Qed.

Lemma lines_before_first_record_ignored_witness :
  parseLcov (unlines [js "TN:"; js "LF:9999"; js "end_of_record"]
             ++ newline :: unlines [js "SF:a.ts"; js "LF:5";
                                    js "end_of_record"])
  = parseLcov (unlines [js "SF:a.ts"; js "LF:5"; js "end_of_record"]).
Proof.
  apply (lines_before_first_record_ignored
           (unlines [js "TN:"; js "LF:9999"; js "end_of_record"])).
  reflexivity.
Defined.

(** X3.  Reports compose: when the first text leaves no record open, or
    the second one starts with a file-path line, parsing the two texts
    joined by a line break gives the tallies of the first followed by
    the tallies of the second. *)
Theorem parse_concatenation (a b : jsstring) :
  openAtEnd (split a) = false
  \/ match split b with [] => true | l :: _ => isStart l end = true ->
  parseLcov (a ++ newline :: b) = parseLcov a ++ parseLcov b.
Proof.
  intros H. unfold parseLcov. rewrite split_app. now apply parseLines_app.
Qed.

Lemma parse_concatenation_witness :
  parseLcov (unlines [js "SF:a.ts"; js "LF:1"; js "end_of_record"; js ""]
             ++ newline :: unlines [js "TN:"; js "SF:b.ts"; js "LH:2";
                                    js "end_of_record"])
  = parseLcov (unlines [js "SF:a.ts"; js "LF:1"; js "end_of_record"; js ""])
    ++ parseLcov (unlines [js "TN:"; js "SF:b.ts"; js "LH:2";
                           js "end_of_record"]).
Proof.
  apply (parse_concatenation
           (unlines [js "SF:a.ts"; js "LF:1"; js "end_of_record"; js ""])).
  left. reflexivity.
Defined.

(** X4.  A counter that a closed record does not mention is 0 in the
    emitted tally. *)
Theorem absent_counter_is_zero (A : list jsstring) (sf : jsstring)
  (body : list jsstring) (eor : jsstring) (B : list jsstring) (c : counter) :
  forallb oneLine (A ++ sf :: body ++ eor :: B) = true ->
  isStart sf = true -> forallb isBody body = true -> isEnd eor = true ->
  forallb (fun l => negb (isCounter c l)) body = true ->
  exists t,
    parseLcov (unlines (A ++ sf :: body ++ eor :: B))
    = parseLcov (unlines A) ++ t :: parseLcov (unlines B) /\
    field c t = Fin 0.
Proof.
  intros Hl Hs Hb He Hc.
  destruct (parse_record A sf body eor B Hs Hb He) as (t & Hp & _ & Hf).
  exists t. rewrite parseLcov_unlines by assumption.
  rewrite forallb_app in Hl. apply andb_true_iff in Hl as [HA Hl].
  simpl in Hl. apply andb_true_iff in Hl as [_ Hl].
  rewrite forallb_app in Hl. apply andb_true_iff in Hl as [_ Hl].
  simpl in Hl. apply andb_true_iff in Hl as [_ HB].
  rewrite !parseLcov_unlines by assumption.
  split; [exact Hp|]. rewrite Hf. now apply lastValue_none.
Qed.

Lemma absent_counter_is_zero_witness :
  exists t,
    parseLcov (unlines ([] ++ js "SF:src/partial.ts"
                          :: [js "LF:50"; js "LH:25"]
                          ++ js "end_of_record" :: []))
    = parseLcov (unlines []) ++ t :: parseLcov (unlines []) /\
    field BRF t = Fin 0.
Proof.
  apply (absent_counter_is_zero [] (js "SF:src/partial.ts")
           [js "LF:50"; js "LH:25"] (js "end_of_record") [] BRF);
    reflexivity.
Defined.

(** X5.  Line endings: a text written with carriage return, line feed
    parses to the same tallies as the text written with line feeds. *)
Theorem crlf_line_endings (s : jsstring) :
  parseLcov (toCRLF s) = parseLcov s.
Proof.
  unfold parseLcov, parseLines. f_equal. apply run_trim_eq.
  eapply Forall2_impl; [|apply split_toCRLF].
  intros l' l [->| ->]; [reflexivity|]. now apply trim_app_ws.
Qed.

(** X6.  The parser emits at most one tally per end-of-record line and
    at most one per file-path line. *)
Theorem tallies_bounded_by_markers (s : jsstring) :
  List.length (parseLcov s) <= countLines isEnd (split s) /\
  List.length (parseLcov s) <= countLines isStart (split s).
Proof.
  unfold parseLcov, parseLines.
  destruct (run_grows (split s) [] None) as [H1 H2].
  cbn [List.length openCount] in *. split; [exact H1|]. lia.
Qed.

End ParserExtras.

(* ================================================================== *)
(** ** More about the scorer *)

Section ScorerExtras.

Local Open Scope R_scope.

(** Case analysis on a number that a hypothesis shows not to be NaN. *)
Local Ltac not_NaN x H :=
  destruct x as [|x];
  [ exfalso; simpl in H; first [tauto | intuition congruence] | ].

Lemma round2_mono (x y : R) :
  x <= y -> ge (round2 (Fin y)) (round2 (Fin x)) = true.
Proof.
  intros H. rewrite !round2_Fin. apply ge_true.
  assert (Hz : (Zfloor (x * 100 + / 2) <= Zfloor (y * 100 + / 2))%Z)
    by (apply Zfloor_le; lra).
  apply IZR_le in Hz. lra.
Qed.


Lemma gap_term_mono (f h h' w : R) :
  h <= h' -> 0 <= w ->
  (100 - (if Rlt_dec 0 f then h' / f * 100 else 100)) * w
  <= (100 - (if Rlt_dec 0 f then h / f * 100 else 100)) * w.
Proof.
  intros Hh Hw. apply Rmult_le_compat_r; [assumption|].
  destruct (Rlt_dec 0 f) as [Hf|Hf]; [|lra].
  assert (h / f <= h' / f).
  { apply Rmult_le_compat_r; [left; now apply Rinv_0_lt_compat|assumption]. }
  lra.
Qed.

Lemma add_assoc (a b c : number) : add (add a b) c = add a (add b c).
Proof.
  destruct a, b, c; simpl; try reflexivity. f_equal. ring.
Qed.

Lemma add_zero_l (a : number) : add (Fin 0) a = a.
Proof. destruct a; simpl; [reflexivity|]. f_equal. ring. Qed.

Lemma add_NaN_l (a : number) : add NaN a = NaN.
Proof. reflexivity. Qed.

Lemma add_NaN_r (a : number) : add a NaN = NaN.
Proof. now destruct a. Qed.

Lemma totals_shift (l : list LcovFileData) (acc : Totals) :
  let step := fun acc f =>
    mkTotals (add (t_linesFound acc) (linesFound f))
             (add (t_linesHit acc) (linesHit f))
             (add (t_functionsFound acc) (functionsFound f))
             (add (t_functionsHit acc) (functionsHit f))
             (add (t_branchesFound acc) (branchesFound f))
             (add (t_branchesHit acc) (branchesHit f)) in
  fold_left step l acc
  = mkTotals (add (t_linesFound acc) (t_linesFound (sumTotals l)))
             (add (t_linesHit acc) (t_linesHit (sumTotals l)))
             (add (t_functionsFound acc) (t_functionsFound (sumTotals l)))
             (add (t_functionsHit acc) (t_functionsHit (sumTotals l)))
             (add (t_branchesFound acc) (t_branchesFound (sumTotals l)))
             (add (t_branchesHit acc) (t_branchesHit (sumTotals l))).
Proof.
  intros step. unfold sumTotals. fold step.
  revert acc. induction l as [|f l IH]; intros acc.
  - destruct acc as [[|a] [|b] [|c] [|d] [|e] [|g]]; simpl;
      repeat (f_equal; try ring).
  - cbn [fold_left]. rewrite IH.
    rewrite (IH (step _ f)). cbn [step t_linesFound t_linesHit
      t_functionsFound t_functionsHit t_branchesFound t_branchesHit].
    now rewrite !add_zero_l, !add_assoc.
Qed.

Lemma sumTotals_app (a b : list LcovFileData) :
  sumTotals (a ++ b)
  = mkTotals
      (add (t_linesFound (sumTotals a)) (t_linesFound (sumTotals b)))
      (add (t_linesHit (sumTotals a)) (t_linesHit (sumTotals b)))
      (add (t_functionsFound (sumTotals a)) (t_functionsFound (sumTotals b)))
      (add (t_functionsHit (sumTotals a)) (t_functionsHit (sumTotals b)))
      (add (t_branchesFound (sumTotals a)) (t_branchesFound (sumTotals b)))
      (add (t_branchesHit (sumTotals a)) (t_branchesHit (sumTotals b))).
Proof.
  unfold sumTotals at 1. rewrite fold_left_app.
  apply (totals_shift b).
Qed.

Lemma sumTotals_cons (f : LcovFileData) (l : list LcovFileData) :
  sumTotals (f :: l)
  = mkTotals
      (add (linesFound f) (t_linesFound (sumTotals l)))
      (add (linesHit f) (t_linesHit (sumTotals l)))
      (add (functionsFound f) (t_functionsFound (sumTotals l)))
      (add (functionsHit f) (t_functionsHit (sumTotals l)))
      (add (branchesFound f) (t_branchesFound (sumTotals l)))
      (add (branchesHit f) (t_branchesHit (sumTotals l))).
Proof.
  change (f :: l) with ([f] ++ l). rewrite sumTotals_app.
  unfold sumTotals at 1 3 5 7 9 11. cbn [fold_left t_linesFound t_linesHit
    t_functionsFound t_functionsHit t_branchesFound t_branchesHit].
  now rewrite !add_zero_l.
Qed.

Lemma sumTotals_NaN (tallies : list LcovFileData)
  (get : LcovFileData -> number) (tot : Totals -> number) :
  (forall f l, tot (sumTotals (f :: l)) = add (get f) (tot (sumTotals l))) ->
  (exists f, In f tallies /\ get f = NaN) ->
  tot (sumTotals tallies) = NaN.
Proof.
  intros Hc (f & Hin & Hf).
  induction tallies as [|g l IH]; [contradiction|].
  rewrite Hc. destruct Hin as [->|Hin].
  - now rewrite Hf.
  - rewrite (IH Hin). apply add_NaN_r.
Qed.

(** A tally whose three hit counters equal the found counters has
    three gaps of 0, hence a raw score of 0. *)
Lemma full_coverage_scores_zero (f : LcovFileData) (w : PriorityWeights) :
  finiteTally f -> finiteWeights w ->
  linesHit f = linesFound f ->
  functionsHit f = functionsFound f ->
  branchesHit f = branchesFound f ->
  priorityScore (analyzeFile f w) = Fin 0.
Proof.
  unfold finiteTally, finiteWeights, finite.
  destruct f as [p lf lh ff fh bf bh], w as [wb wf wl].
  cbn [linesFound linesHit functionsFound functionsHit branchesFound
       branchesHit w_branches w_functions w_lines].
  intros H1 H2 El Ef Eb. subst lh fh bh.
  not_NaN lf H1. not_NaN ff H1. not_NaN bf H1.
  not_NaN wb H2. not_NaN wf H2. not_NaN wl H2.
  rewrite analyzeFile_score, rawScore_Fin.
  assert (Hz : forall x, (if Rlt_dec 0 x then x / x * 100 else 100) = 100).
  { intros x. destruct (Rlt_dec 0 x); [field; lra|reflexivity]. }
  rewrite !Hz.
  match goal with
  | |- round2 (Fin ?x) = _ => replace x with (IZR 0) by (simpl; ring)
  end.
  apply round2_int.
Qed.





(** X9.  Covering more never raises priority: for two well-counted
    tallies (counters finite and not negative, and no more hits than
    found wherever found > 0) with the same found counters, the one with
    no fewer hits in any category has a score that is no higher, for
    finite non-negative weights. *)
Theorem more_hits_never_raise_score (f g : LcovFileData)
  (w : PriorityWeights) :
  wellCounted f -> wellCounted g -> nonnegWeights w -> moreCovered f g ->
  ge (priorityScore (analyzeFile f w)) (priorityScore (analyzeFile g w))
  = true.
Proof.
  intros Hwf _. apply wellCounted_finite in Hwf. revert Hwf.
  unfold finiteTally, nonnegWeights, moreCovered, finite.
  destruct f as [p lf lh ff fh bf bh], g as [q lf' lh' ff' fh' bf' bh'],
           w as [wb wf wl].
  cbn [linesFound linesHit functionsFound functionsHit branchesFound
       branchesHit w_branches w_functions w_lines].
  intros Hf Hw Hm.
  not_NaN lf Hf. not_NaN lh Hf. not_NaN ff Hf. not_NaN fh Hf.
  not_NaN bf Hf. not_NaN bh Hf.
  not_NaN wb Hw. not_NaN wf Hw. not_NaN wl Hw.
  cbn [nonneg] in Hw.
  destruct Hw as (Hwb & Hwf & Hwl).
  destruct Hm as ((El & Ef & Eb) & Hl & Hfn & Hb).
  subst lf' ff' bf'.
  apply ge_inv in Hl as (lh2 & y & Hx & Hy & Hlh).
  subst lh'. injection Hy as <-.
  apply ge_inv in Hfn as (fh2 & y & Hx & Hy & Hfh).
  subst fh'. injection Hy as <-.
  apply ge_inv in Hb as (bh2 & y & Hx & Hy & Hbh).
  subst bh'. injection Hy as <-.
  rewrite !analyzeFile_score, !rawScore_Fin.
  pose proof (gap_term_mono lf lh lh2 wl Hlh Hwl) as Gl.
  pose proof (gap_term_mono ff fh fh2 wf Hfh Hwf) as Gf.
  pose proof (gap_term_mono bf bh bh2 wb Hbh Hwb) as Gb.
  pose proof (sizeFactor_pos lf) as Hs.
  apply round2_mono. apply Rmult_le_compat_r; [lra|lra].
Qed.

Lemma more_hits_never_raise_score_witness :
  ge (priorityScore
        (analyzeFile (mkLcov (js "a.ts") (Fin 100) (Fin 20)
                             (Fin 10) (Fin 2) (Fin 20) (Fin 4))
                     (mkWeights (Fin (5 / 10)) (Fin (3 / 10)) (Fin (2 / 10)))))
     (priorityScore
        (analyzeFile (mkLcov (js "a.ts") (Fin 100) (Fin 95)
                             (Fin 10) (Fin 10) (Fin 20) (Fin 19))
                     (mkWeights (Fin (5 / 10)) (Fin (3 / 10)) (Fin (2 / 10)))))
  = true.
Proof.
  apply more_hits_never_raise_score.
  - unfold wellCounted; cbn [nonneg linesFound linesHit functionsFound
      functionsHit branchesFound branchesHit].
    repeat split; try lra; intros _; apply ge_true; lra.
  - unfold wellCounted; cbn [nonneg linesFound linesHit functionsFound
      functionsHit branchesFound branchesHit].
    repeat split; try lra; intros _; apply ge_true; lra.
  - unfold nonnegWeights; cbn [nonneg w_branches w_functions w_lines].
    repeat split; lra.
  - unfold moreCovered; cbn [linesFound linesHit functionsFound
      functionsHit branchesFound branchesHit].
    repeat split; apply ge_true; lra.
Defined.

(** X10.  The aggregate composes: over the concatenation of two lists of
    tallies whose counters are non-negative integers with totals of at
    most 2^53 (so that the additions are exact), every found and hit
    total is the sum of the two totals and the file count is the sum of
    the two counts. *)
Theorem overall_of_concatenation (a b : list LcovFileData) :
  exactTotals (a ++ b) ->
  let oa := calculateOverallCoverage a in
  let ob := calculateOverallCoverage b in
  let o := calculateOverallCoverage (a ++ b) in
  found (o_lines o) = add (found (o_lines oa)) (found (o_lines ob)) /\
  hit (o_lines o) = add (hit (o_lines oa)) (hit (o_lines ob)) /\
  found (o_functions o)
  = add (found (o_functions oa)) (found (o_functions ob)) /\
  hit (o_functions o) = add (hit (o_functions oa)) (hit (o_functions ob)) /\
  found (o_branches o)
  = add (found (o_branches oa)) (found (o_branches ob)) /\
  hit (o_branches o) = add (hit (o_branches oa)) (hit (o_branches ob)) /\
  fileCount o = (fileCount oa + fileCount ob)%nat.
Proof.
  intros _.
  unfold calculateOverallCoverage.
  cbn [o_lines o_functions o_branches fileCount found hit].
  rewrite sumTotals_app, length_app. repeat split.
Qed.

Lemma overall_of_concatenation_witness :
  let a := [mkLcov (js "a.ts") (Fin 10) (Fin 4) (Fin 2) (Fin 1)
                   (Fin 6) (Fin 3)] in
  let b := [mkLcov (js "b.ts") (Fin 20) (Fin 20) (Fin 5) (Fin 0)
                   (Fin 0) (Fin 0)] in
  found (o_lines (calculateOverallCoverage (a ++ b)))
  = add (found (o_lines (calculateOverallCoverage a)))
        (found (o_lines (calculateOverallCoverage b))).
Proof.
  intros a b. apply (overall_of_concatenation a b).
  unfold exactTotals, exactSum, a, b.
  cbn [app map linesFound linesHit functionsFound functionsHit
       branchesFound branchesHit].
  repeat split.
  - exists [10; 20]%Z. repeat split; [repeat constructor; lia|simpl; lia].
  - exists [4; 20]%Z. repeat split; [repeat constructor; lia|simpl; lia].
  - exists [2; 5]%Z. repeat split; [repeat constructor; lia|simpl; lia].
  - exists [1; 0]%Z. repeat split; [repeat constructor; lia|simpl; lia].
  - exists [6; 0]%Z. repeat split; [repeat constructor; lia|simpl; lia].
  - exists [3; 0]%Z. repeat split; [repeat constructor; lia|simpl; lia].
Defined.

(** X11.  One NaN found counter (a malformed LF, FNF or BRF line, see C1)
    in any tally makes the aggregate total NaN, and the aggregate
    percentage of that category then reads 100. *)
Theorem nan_counter_reads_as_full_coverage (tallies : list LcovFileData) :
  ((exists f, In f tallies /\ linesFound f = NaN) ->
   found (o_lines (calculateOverallCoverage tallies)) = NaN /\
   coverage (o_lines (calculateOverallCoverage tallies)) = Fin 100) /\
  ((exists f, In f tallies /\ functionsFound f = NaN) ->
   found (o_functions (calculateOverallCoverage tallies)) = NaN /\
   coverage (o_functions (calculateOverallCoverage tallies)) = Fin 100) /\
  ((exists f, In f tallies /\ branchesFound f = NaN) ->
   found (o_branches (calculateOverallCoverage tallies)) = NaN /\
   coverage (o_branches (calculateOverallCoverage tallies)) = Fin 100).
Proof.
  unfold calculateOverallCoverage.
  cbn [o_lines o_functions o_branches found coverage].
  repeat split.
  - apply (sumTotals_NaN tallies linesFound t_linesFound); [|assumption].
    intros f l. now rewrite sumTotals_cons.
  - rewrite (sumTotals_NaN tallies linesFound t_linesFound); [reflexivity| |assumption].
    intros f l. now rewrite sumTotals_cons.
  - apply (sumTotals_NaN tallies functionsFound t_functionsFound); [|assumption].
    intros f l. now rewrite sumTotals_cons.
  - rewrite (sumTotals_NaN tallies functionsFound t_functionsFound); [reflexivity| |assumption].
    intros f l. now rewrite sumTotals_cons.
  - apply (sumTotals_NaN tallies branchesFound t_branchesFound); [|assumption].
    intros f l. now rewrite sumTotals_cons.
  - rewrite (sumTotals_NaN tallies branchesFound t_branchesFound); [reflexivity| |assumption].
    intros f l. now rewrite sumTotals_cons.
Qed.

Lemma nan_counter_reads_as_full_coverage_witness :
  coverage
    (o_lines
       (calculateOverallCoverage
          (parseLcov (unlines [ js "SF:a.ts"; js "LF:100"; js "LH:10";
                                js "end_of_record";
                                js "SF:b.ts"; js "LF:abc"; js "LH:0";
                                js "end_of_record" ]))))
  = Fin 100.
Proof.
  apply (proj1 (nan_counter_reads_as_full_coverage _)).
  eexists. split; [right; left; reflexivity|reflexivity].
Defined.

End ScorerExtras.

(* ================================================================== *)
(** ** More about the ranking *)

Section RankingExtras.

Local Open Scope R_scope.

Lemma Forall_firstn_list {A : Type} (P : A -> Prop) (n : nat) (l : list A) :
  Forall P l -> Forall P (firstn n l).
Proof.
  revert n. induction l as [|x l IH]; intros [|n] H; simpl; auto.
  inversion H; subst. constructor; auto.
Qed.

Lemma Forall_results {A : Type} (P : A -> Prop) (l : list A)
  (top : option number) :
  Forall P l ->
  Forall P (match top with
            | Some t => if truthy t then array_slice0 l t else l
            | None => l
            end).
Proof.
  intros H. destruct top as [t|]; [|exact H].
  destruct (truthy t); [|exact H].
  unfold array_slice0. now apply Forall_firstn_list.
Qed.

Lemma survivors_spec (tallies : list LcovFileData) (w : PriorityWeights)
  (minLines : number) :
  Forall (fun a => exists f, In f tallies /\
                             ge (linesFound f) minLines = true /\
                             a = analyzeFile f w)
         (survivors tallies w minLines).
Proof.
  unfold survivors. apply Forall_forall. intros a Ha.
  apply in_map_iff in Ha as (f & <- & Hf).
  apply filter_In in Hf as [Hin Hge]. now exists f.
Qed.

Lemma survivors_skip_NaN (tallies : list LcovFileData) (w : PriorityWeights)
  (minLines : number) :
  survivors (filter (fun f => negb (isNaN (linesFound f))) tallies) w minLines
  = survivors tallies w minLines.
Proof.
  unfold survivors. f_equal.
  induction tallies as [|f l IH]; [reflexivity|].
  cbn [filter]. destruct (linesFound f) as [|x] eqn:E; cbn [isNaN negb].
  - cbn [ge]. exact IH.
  - cbn [filter]. rewrite E. destruct (ge (Fin x) minLines); now rewrite IH.
Qed.

Lemma insert_head {A : Type} (cmp : A -> A -> number) (x : A) (l : list A) :
  match l with
  | [] => True
  | y :: _ => gt (cmp x y) (Fin 0) = false
  end ->
  insert cmp x l = x :: l.
Proof. destruct l as [|y l]; simpl; [reflexivity|]. now intros ->. Qed.

Lemma array_sort_ranked {A : Type} (cmp : A -> A -> number)
  (R : A -> A -> Prop) (l : list A) :
  (forall x y, R x y -> gt (cmp x y) (Fin 0) = false) ->
  StronglySorted R l -> array_sort cmp l = l.
Proof.
  intros HR Hs. induction Hs as [|x l Hs IH Hx]; [reflexivity|].
  simpl. rewrite IH. apply insert_head.
  destruct l as [|y l]; [exact I|].
  apply HR. now inversion Hx.
Qed.

(** X12.  A tally whose lines-found counter is NaN never reaches the
    ranking: whatever minLines and top are, the ranked files are those
    of the input without such tallies. *)
Theorem nan_lines_found_never_ranked (tallies : list LcovFileData)
  (w : PriorityWeights) (minLines : number) (top : option number) :
  files (analyzeCoverage tallies w minLines top)
  = files (analyzeCoverage
             (filter (fun f => negb (isNaN (linesFound f))) tallies)
             w minLines top).
Proof.
  unfold analyzeCoverage. cbn [files]. now rewrite survivors_skip_NaN.
Qed.

(** X13.  Every ranked file is the analysis of an input tally that
    passes the minLines filter, and no more files are returned than
    tallies were given. *)
Theorem ranked_files_pass_filter (tallies : list LcovFileData)
  (w : PriorityWeights) (minLines : number) (top : option number) :
  Forall (fun a => exists f, In f tallies /\
                             ge (linesFound f) minLines = true /\
                             a = analyzeFile f w)
         (files (analyzeCoverage tallies w minLines top)) /\
  (List.length (files (analyzeCoverage tallies w minLines top))
   <= List.length tallies)%nat.
Proof.
  unfold analyzeCoverage. cbn [files]. split.
  - apply Forall_results.
    eapply Permutation_Forall;
      [apply Permutation_sym, array_sort_perm|apply survivors_spec].
  - assert (L : (List.length (array_sort byScoreDesc
                                (survivors tallies w minLines))
                 <= List.length tallies)%nat).
    { rewrite array_sort_length. unfold survivors.
      rewrite length_map. apply filter_length_le. }
    destruct top as [t|]; [|exact L].
    destruct (truthy t); [|exact L].
    unfold array_slice0. rewrite length_firstn. lia.
Qed.

(** X14.  Ties keep the report order: when the files that pass the
    filter already come in descending order of score (in particular
    when their scores are all equal), the ranking returns them in input
    order. *)
Theorem ranked_input_keeps_order (tallies : list LcovFileData)
  (w : PriorityWeights) (minLines : number) :
  descending (survivors tallies w minLines) ->
  files (analyzeCoverage tallies w minLines None)
  = survivors tallies w minLines.
Proof.
  intros H. rewrite analyze_files_null.
  apply (array_sort_ranked byScoreDesc
           (fun a b => ge (priorityScore a) (priorityScore b) = true));
    [|exact H].
  intros x y Hxy. apply ge_inv in Hxy as (sx & sy & Hx & Hy & Hle).
  unfold byScoreDesc. rewrite Hx, Hy. simpl. apply gt_false. lra.
Qed.

Lemma ranked_input_keeps_order_witness :
  let ts := [ mkLcov (js "b.ts") (Fin 20) (Fin 20)
                     (Fin 0) (Fin 0) (Fin 0) (Fin 0);
              mkLcov (js "a.ts") (Fin 30) (Fin 30)
                     (Fin 2) (Fin 2) (Fin 0) (Fin 0) ] in
  let w := mkWeights (Fin 1) (Fin 1) (Fin 1) in
  files (analyzeCoverage ts w (Fin 10) None) = survivors ts w (Fin 10).
Proof.
  intros ts w. apply ranked_input_keeps_order.
  assert (E : survivors ts w (Fin 10)
              = [analyzeFile (mkLcov (js "b.ts") (Fin 20) (Fin 20)
                                     (Fin 0) (Fin 0) (Fin 0) (Fin 0)) w;
                 analyzeFile (mkLcov (js "a.ts") (Fin 30) (Fin 30)
                                     (Fin 2) (Fin 2) (Fin 0) (Fin 0)) w]).
  { unfold survivors, ts. cbn [filter linesFound].
    rewrite !ge_true by lra. reflexivity. }
  rewrite E. unfold descending.
  assert (Z : forall f, In f ts -> priorityScore (analyzeFile f w) = Fin 0).
  { intros f [<-|[<-|[]]]; apply full_coverage_scores_zero;
      try reflexivity; repeat split; discriminate. }
  repeat constructor;
    rewrite !Z by (simpl; auto); apply ge_true; lra.
Defined.

End RankingExtras.

(* ================================================================== *)
(** ** The bounded cache *)

Section CacheExtras.

Context {T : Type}.

Lemma map_get_set_same (m : JSMap T) (k : jsstring) (v : T) :
  map_get (map_set m k v) k = Some v.
Proof.
  induction m as [|[k' v'] r IH]; simpl.
  - now rewrite streq_refl.
  - destruct (streq k' k) eqn:E; simpl; now rewrite E.
Qed.

Lemma map_get_set_other (m : JSMap T) (k k' : jsstring) (v : T) :
  k' <> k -> map_get (map_set m k v) k' = map_get m k'.
Proof.
  intros H. induction m as [|[k0 v0] r IH]; simpl.
  - destruct (streq k k') eqn:E; [|reflexivity].
    apply streq_eq in E. congruence.
  - destruct (streq k0 k) eqn:E; simpl.
    + apply streq_eq in E. subst k0.
      destruct (streq k k') eqn:E'; [|reflexivity].
      apply streq_eq in E'. congruence.
    + now rewrite IH.
Qed.

Lemma map_get_delete_other (m : JSMap T) (k k' : jsstring) :
  k' <> k -> map_get (map_delete m k) k' = map_get m k'.
Proof.
  intros H. induction m as [|[k0 v0] r IH]; simpl; [reflexivity|].
  destruct (streq k0 k) eqn:E; simpl.
  - apply streq_eq in E. subst k0.
    destruct (streq k k') eqn:E'; [|reflexivity].
    apply streq_eq in E'. congruence.
  - now rewrite IH.
Qed.

Lemma map_get_absent (m : JSMap T) (k : jsstring) :
  ~ In k (map_keys m) -> map_get m k = None.
Proof.
  induction m as [|[k0 v0] r IH]; simpl; [reflexivity|].
  intros H. destruct (streq k0 k) eqn:E.
  - apply streq_eq in E. tauto.
  - apply IH. tauto.
Qed.

Lemma map_set_size (m : JSMap T) (k : jsstring) (v : T) :
  map_size (map_set m k v) <= S (map_size m).
Proof.
  unfold map_size. induction m as [|[k0 v0] r IH]; simpl; [lia|].
  destruct (streq k0 k); simpl; lia.
Qed.

Lemma map_set_keys_present (m : JSMap T) (k : jsstring) (v : T) :
  In k (map_keys m) -> map_keys (map_set m k v) = map_keys m.
Proof.
  unfold map_keys. induction m as [|[k0 v0] r IH]; simpl; [tauto|].
  intros H. destruct (streq k0 k) eqn:E; simpl; [reflexivity|].
  f_equal. apply IH. destruct H as [H|H]; [|exact H].
  subst k0. now rewrite streq_refl in E.
Qed.

Lemma map_set_keys_absent (m : JSMap T) (k : jsstring) (v : T) :
  ~ In k (map_keys m) -> map_keys (map_set m k v) = map_keys m ++ [k].
Proof.
  unfold map_keys. induction m as [|[k0 v0] r IH]; simpl; [reflexivity|].
  intros H. destruct (streq k0 k) eqn:E; simpl.
  - apply streq_eq in E. tauto.
  - f_equal. apply IH. tauto.
Qed.

Lemma map_set_NoDup (m : JSMap T) (k : jsstring) (v : T) :
  NoDup (map_keys m) -> NoDup (map_keys (map_set m k v)).
Proof.
  intros H. destruct (in_dec (list_eq_dec N.eq_dec) k (map_keys m)) as [Hin|Hin].
  - now rewrite map_set_keys_present.
  - rewrite map_set_keys_absent by assumption.
    apply NoDup_app; [assumption|repeat constructor; simpl; tauto|].
    intros x Hx [<-|[]]. contradiction.
Qed.

Lemma addToCache_get (cache : JSMap T) (key : jsstring)
  (value : T) :
  map_get (addToCache cache key value) key = Some value.
Proof. unfold addToCache. apply map_get_set_same. Qed.

(** X15.  The cache stays within its limit: adding to a cache of at most
    50 entries leaves at most 50, provided the oldest key is not the
    empty string (an empty oldest key is never evicted). *)
Theorem cache_stays_bounded (cache : JSMap T) (key : jsstring) (value : T) :
  map_size cache <= MAX_CACHE_SIZE ->
  map_firstKey cache <> Some [] ->
  map_size (addToCache cache key value) <= MAX_CACHE_SIZE.
Proof.
  unfold addToCache, MAX_CACHE_SIZE. intros Hs Hk.
  destruct (Nat.leb_spec 50 (map_size cache)) as [H|H].
  - destruct cache as [|[k0 v0] r]; [simpl in H; lia|].
    simpl map_firstKey. destruct k0 as [|c k0]; [simpl in Hk; congruence|].
    cbn [map_delete]. rewrite streq_refl.
    pose proof (map_set_size r key value). unfold map_size in *.
    simpl in Hs. lia.
  - pose proof (map_set_size cache key value). lia.
Qed.

(** X16.  First in, first out.  After [addToCache] the added key holds
    the new value; every other key that is not the oldest keeps its
    entry; below the limit the oldest keeps it too; and at the limit the
    oldest key (when it is not empty and not the key being added) is
    gone. *)
Theorem cache_is_first_in_first_out (cache : JSMap T) (key : jsstring)
  (value : T) :
  map_get (addToCache cache key value) key = Some value /\
  (forall k, k <> key -> map_firstKey cache <> Some k ->
             map_get (addToCache cache key value) k = map_get cache k) /\
  (map_size cache < MAX_CACHE_SIZE ->
   forall k, k <> key ->
             map_get (addToCache cache key value) k = map_get cache k) /\
  (MAX_CACHE_SIZE <= map_size cache -> NoDup (map_keys cache) ->
   forall k, map_firstKey cache = Some k -> k <> [] -> k <> key ->
             map_get (addToCache cache key value) k = None).
Proof.
  unfold addToCache.
  split; [apply map_get_set_same|]. split; [|split].
  - intros k Hk Hf. rewrite map_get_set_other by assumption.
    destruct (MAX_CACHE_SIZE <=? map_size cache)%nat; [|reflexivity].
    destruct (map_firstKey cache) as [[|c k0]|] eqn:E; try reflexivity.
    apply map_get_delete_other. congruence.
  - intros Hs k Hk. rewrite map_get_set_other by assumption.
    destruct (Nat.leb_spec MAX_CACHE_SIZE (map_size cache)); [lia|reflexivity].
  - intros Hs Hnd k Hf Hne Hk. rewrite map_get_set_other by assumption.
    destruct (Nat.leb_spec MAX_CACHE_SIZE (map_size cache)); [|lia].
    rewrite Hf. destruct k as [|c k]; [congruence|].
    destruct cache as [|[k0 v0] r]; [discriminate|].
    simpl in Hf. injection Hf as ->. cbn [map_delete].
    rewrite streq_refl. apply map_get_absent.
    unfold map_keys in Hnd. simpl in Hnd. now inversion Hnd.
Qed.

(** X17.  Not least-recently-used: below the limit, adding a key that
    is already cached replaces its value and leaves the order of the
    keys, hence the order of eviction, unchanged. *)
Theorem cache_refresh_keeps_order (cache : JSMap T) (key : jsstring)
  (value : T) :
  map_size cache < MAX_CACHE_SIZE ->
  In key (map_keys cache) ->
  map_keys (addToCache cache key value) = map_keys cache /\
  map_get (addToCache cache key value) key = Some value.
Proof.
  intros Hs Hin. unfold addToCache.
  destruct (Nat.leb_spec MAX_CACHE_SIZE (map_size cache)); [lia|].
  split; [now apply map_set_keys_present|apply map_get_set_same].
Qed.

End CacheExtras.

Section CacheWitnesses.

Lemma cache_stays_bounded_witness :
  map_size (addToCache [(js "/a/lcov.info", 1%nat); (js "/b/lcov.info", 2%nat)]
                       (js "/c/lcov.info") 3%nat)
  <= MAX_CACHE_SIZE.
Proof.
  apply cache_stays_bounded; [unfold MAX_CACHE_SIZE; simpl; lia|discriminate].
Defined.

Lemma cache_is_first_in_first_out_witness :
  map_get (addToCache [(js "/a/lcov.info", 1%nat); (js "/b/lcov.info", 2%nat)]
                      (js "/c/lcov.info") 3%nat)
          (js "/a/lcov.info")
  = map_get [(js "/a/lcov.info", 1%nat); (js "/b/lcov.info", 2%nat)]
            (js "/a/lcov.info").
Proof.
  destruct (cache_is_first_in_first_out
              [(js "/a/lcov.info", 1%nat); (js "/b/lcov.info", 2%nat)]
              (js "/c/lcov.info") 3%nat) as (_ & _ & H & _).
  apply H; [unfold MAX_CACHE_SIZE; simpl; lia|discriminate].
Defined.

Lemma cache_refresh_keeps_order_witness :
  map_keys (addToCache [(js "/a/lcov.info", 1%nat); (js "/b/lcov.info", 2%nat)]
                       (js "/a/lcov.info") 7%nat)
  = map_keys [(js "/a/lcov.info", 1%nat); (js "/b/lcov.info", 2%nat)] /\
  map_get (addToCache [(js "/a/lcov.info", 1%nat); (js "/b/lcov.info", 2%nat)]
                      (js "/a/lcov.info") 7%nat)
          (js "/a/lcov.info")
  = Some 7%nat.
Proof.
  apply cache_refresh_keeps_order;
    [unfold MAX_CACHE_SIZE; simpl; lia|left; reflexivity].
Defined.

End CacheWitnesses.

(* ================================================================== *)
(** ** The priorities tool and the command line rank alike *)

Section PrioritiesExtras.

Context {B : Builtins}.

Lemma insert_map {X Y : Type} (g : X -> Y) (cmpX : X -> X -> number)
  (cmpY : Y -> Y -> number) (x : X) (l : list X) :
  (forall a b, cmpY (g a) (g b) = cmpX a b) ->
  insert cmpY (g x) (map g l) = map g (insert cmpX x l).
Proof.
  intros H. induction l as [|y l IH]; [reflexivity|].
  simpl. rewrite H. destruct (gt (cmpX x y) (Fin 0)); simpl; [|reflexivity].
  now rewrite IH.
Qed.

Lemma array_sort_map {X Y : Type} (g : X -> Y) (cmpX : X -> X -> number)
  (cmpY : Y -> Y -> number) (l : list X) :
  (forall a b, cmpY (g a) (g b) = cmpX a b) ->
  array_sort cmpY (map g l) = map g (array_sort cmpX l).
Proof.
  intros H. induction l as [|x l IH]; [reflexivity|].
  simpl. rewrite IH. now apply insert_map.
Qed.

Lemma array_slice0_map {X Y : Type} (g : X -> Y) (l : list X) (t : number) :
  array_slice0 (map g l) t = map g (array_slice0 l t).
Proof. unfold array_slice0. now rewrite length_map, firstn_map. Qed.

Lemma array_slice0_length {X : Type} (l : list X) (k : Z) :
  (0 <= k)%Z ->
  List.length (array_slice0 l (ofZ k)) = Nat.min (Z.to_nat k) (List.length l).
Proof.
  intros H. unfold array_slice0. rewrite toInteger_ofZ.
  destruct (Z.ltb_spec k 0); [lia|]. rewrite length_firstn. lia.
Qed.

Lemma view_of_priority (w : PriorityWeights) (f : LcovFileData) :
  viewOfPriority (priorityOf w f) = viewOfAnalyzed (analyzeFile f w).
Proof. reflexivity. Qed.

(** X18.  The tool and the command line rank alike: for a top that is
    neither zero nor NaN, [getPriorities] returns the files that
    [analyzeCoverage] returns, in the same order, with the same name,
    score, percentages and uncovered counts. *)
Theorem priorities_agree_with_analysis (tallies : list LcovFileData)
  (t m : number) (w : PriorityWeights) :
  truthy t = true ->
  map viewOfPriority (getPriorities tallies (Some t) (Some m) (Some w))
  = map viewOfAnalyzed (files (analyzeCoverage tallies w m (Some t))).
Proof.
  intros Ht. unfold getPriorities, analyzeCoverage, survivors.
  cbn [files]. rewrite Ht.
  rewrite <- !array_slice0_map. f_equal.
  rewrite <- (array_sort_map viewOfPriority byPriorityDesc byViewDesc)
    by reflexivity.
  rewrite <- (array_sort_map viewOfAnalyzed byScoreDesc byViewDesc)
    by reflexivity.
  f_equal. rewrite !map_map. apply map_ext. intros f.
  apply view_of_priority.
Qed.

(** X19.  How many files the tool lists depends on size alone: with an
    integer top >= 0 it returns exactly the smaller of top and the number
    of tallies that pass the minLines filter, fully covered files
    included; none for top = 0 (where [analyzeCoverage] returns them
    all); and at most 5 when top is left out. *)
Theorem priorities_limit (tallies : list LcovFileData)
  (m : option number) (w : option PriorityWeights) :
  (forall k : Z, (0 <= k)%Z ->
     List.length (getPriorities tallies (Some (ofZ k)) m w)
     = Nat.min (Z.to_nat k)
         (List.length
            (filter (fun f => ge (linesFound f)
                                 match m with
                                 | Some m0 => m0
                                 | None => Fin 10
                                 end) tallies))) /\
  getPriorities tallies (Some (Fin 0)) m w = [] /\
  List.length (getPriorities tallies None m w) <= 5.
Proof.
  assert (Hk : forall k : Z, (0 <= k)%Z ->
     List.length (getPriorities tallies (Some (ofZ k)) m w)
     = Nat.min (Z.to_nat k)
         (List.length
            (filter (fun f => ge (linesFound f)
                                 match m with
                                 | Some m0 => m0
                                 | None => Fin 10
                                 end) tallies))).
  { intros k Hk. unfold getPriorities.
    rewrite array_slice0_length by assumption.
    now rewrite array_sort_length, length_map. }
  split; [exact Hk|split].
  - specialize (Hk 0%Z (Z.le_refl 0)). change (ofZ 0) with (Fin 0) in Hk.
    simpl Z.to_nat in Hk. simpl Nat.min in Hk.
    destruct (getPriorities tallies (Some (Fin 0)) m w);
      [reflexivity|discriminate Hk].
  - unfold getPriorities. change (Fin 5) with (ofZ 5).
    rewrite array_slice0_length by lia. lia.
Qed.

End PrioritiesExtras.

Section PrioritiesWitnesses.

Lemma priorities_agree_with_analysis_witness :
  let ts := [ mkLcov (js "a.ts") (Fin 100) (Fin 20)
                     (Fin 10) (Fin 2) (Fin 20) (Fin 4);
              mkLcov (js "b.ts") (Fin 50) (Fin 40)
                     (Fin 5) (Fin 4) (Fin 10) (Fin 8) ] in
  map viewOfPriority
      (@getPriorities exampleHost ts (Some (ofZ 1)) (Some (Fin 10))
                      (Some DEFAULT_WEIGHTS))
  = map viewOfAnalyzed
        (files (analyzeCoverage ts DEFAULT_WEIGHTS (Fin 10) (Some (ofZ 1)))).
Proof.
  intros ts. apply (@priorities_agree_with_analysis exampleHost).
  apply truthy_ofZ. discriminate.
Defined.

Lemma priorities_limit_witness :
  List.length
    (@getPriorities exampleHost
       [ mkLcov (js "a.ts") (Fin 100) (Fin 100) (Fin 10) (Fin 10)
                (Fin 20) (Fin 20) ]
       (Some (ofZ 3)) (Some (Fin 10)) None)
  = Nat.min (Z.to_nat 3)
      (List.length
         (filter (fun f => ge (linesFound f) (Fin 10))
            [ mkLcov (js "a.ts") (Fin 100) (Fin 100) (Fin 10) (Fin 10)
                     (Fin 20) (Fin 20) ])).
Proof.
  apply (proj1 (@priorities_limit exampleHost _ (Some (Fin 10)) None)).
  discriminate.
Defined.

End PrioritiesWitnesses.

(* ================================================================== *)
(** ** Loading coverage through the file system *)

Section LoadingExtras.

Context {B : Builtins}.

Local Abbreviation traversalMessage :=
  (js "Invalid projectPath: path traversal (..) not allowed").

Local Abbreviation missing fs p :=
  (fun r => existsSync fs (resolve [p; r]) = false).

Lemma findIn_spec (fs : FileSystem) (p : jsstring) (paths : list jsstring) :
  match findIn fs p paths with
  | None => Forall (missing fs p) paths
  | Some x =>
      existsSync fs x = true /\
      exists pre rel post,
        paths = pre ++ rel :: post /\ x = resolve [p; rel] /\
        Forall (missing fs p) pre
  end.
Proof.
  induction paths as [|r rest IH]; simpl; [constructor|].
  destruct (existsSync fs (resolve [p; r])) eqn:E.
  - split; [exact E|]. exists [], r, rest. repeat split. constructor.
  - destruct (findIn fs p rest) as [x|].
    + destruct IH as (Hx & pre & rel & post & -> & -> & Hpre).
      split; [exact Hx|]. exists (r :: pre), rel, post.
      repeat split. now constructor.
    + now constructor.
Qed.

Lemma validate_ext (fs fs' : FileSystem) (p : jsstring) :
  existsSync fs' = existsSync fs -> isDirectory fs' = isDirectory fs ->
  validateProjectPath fs' p = validateProjectPath fs p.
Proof. unfold validateProjectPath. now intros -> ->. Qed.

Lemma findIn_ext (fs fs' : FileSystem) (p : jsstring) (paths : list jsstring) :
  existsSync fs' = existsSync fs -> findIn fs' p paths = findIn fs p paths.
Proof.
  intros H. induction paths as [|r rest IH]; simpl; [reflexivity|].
  now rewrite H, IH.
Qed.

Lemma strictEq_refl (x : number) : isNaN x = false -> strictEq x x = true.
Proof.
  destruct x as [|x]; [discriminate|]. intros _. simpl.
  destruct (Req_dec_T x x); [reflexivity|congruence].
Qed.

Lemma strictEq_eq (x y : number) : strictEq x y = true -> x = y.
Proof.
  destruct x as [|x], y as [|y]; simpl; try discriminate.
  destruct (Req_dec_T x y); [now subst|discriminate].
Qed.

(** What a successful [loadCoverage] went through. *)
Lemma loadCoverage_ok (fs : FileSystem) (c0 : Caches) (p : jsstring)
  (cfg : ProjectConfig) (d : list LcovFileData) (c1 : Caches) :
  loadCoverage fs c0 p cfg = (Ok d, c1) ->
  exists rp path,
    validateProjectPath fs p = Ok rp /\
    match coveragePath cfg with
    | Some (c :: q) => Some (resolve [rp; c :: q])
    | _ => findCoverageFile fs rp
    end = Some path /\
    path <> [] /\ existsSync fs path = true /\
    ((exists e, map_get (cacheByProject c0) path = Some e /\
                strictEq (ce_mtime e) (mtimeMs fs path) = true /\
                d = ce_data e /\ c1 = c0)
     \/ (d = parseLcov (readFileSync fs path) /\
         c1 = mkCaches (addToCache (cacheByProject c0) path
                          (mkCacheEntry d (mtimeMs fs path) path))
                       (configCache c0))).
Proof.
  unfold loadCoverage. intros H.
  destruct (validateProjectPath fs p) as [rp|e]; [|discriminate].
  exists rp.
  destruct (match coveragePath cfg with
            | Some (c :: q) => Some (resolve [rp; c :: q])
            | _ => findCoverageFile fs rp
            end) as [[|a path]|]; try discriminate.
  exists (a :: path). split; [reflexivity|]. split; [reflexivity|].
  split; [discriminate|].
  destruct (existsSync fs (a :: path)); [|discriminate].
  split; [reflexivity|]. simpl negb in H. cbv iota in H.
  destruct (map_get (cacheByProject c0) (a :: path)) as [e|] eqn:Eg.
  - destruct (strictEq (ce_mtime e) (mtimeMs fs (a :: path))) eqn:Es.
    + left. exists e. inversion H. auto.
    + right. inversion H. auto.
  - right. inversion H. auto.
Qed.

(** What a cache hit answers. *)
Lemma loadCoverage_hit (fs : FileSystem) (c : Caches) (p rp path : jsstring)
  (cfg : ProjectConfig) (e : CacheEntry) :
  validateProjectPath fs p = Ok rp ->
  match coveragePath cfg with
  | Some (a :: q) => Some (resolve [rp; a :: q])
  | _ => findCoverageFile fs rp
  end = Some path ->
  path <> [] -> existsSync fs path = true ->
  map_get (cacheByProject c) path = Some e ->
  loadCoverage fs c p cfg
  = if strictEq (ce_mtime e) (mtimeMs fs path)
    then (Ok (ce_data e), c)
    else (Ok (parseLcov (readFileSync fs path)),
          mkCaches (addToCache (cacheByProject c) path
                      (mkCacheEntry (parseLcov (readFileSync fs path))
                                    (mtimeMs fs path) path))
                   (configCache c)).
Proof.
  intros Hv Hp Hne Hex Hg. unfold loadCoverage. rewrite Hv, Hp.
  destruct path as [|a path]; [congruence|].
  rewrite Hex, Hg. reflexivity.
Qed.

(** X20.  A project path that contains ".." is rejected before the file
    system is looked at, by the validation and by both loaders, and the
    caches stay as they were. *)
Theorem path_traversal_rejected (fs : FileSystem) (caches : Caches)
  (p : jsstring) (cfg : ProjectConfig) :
  includes p (js "..") = true ->
  validateProjectPath fs p = Throw traversalMessage /\
  loadProjectConfig fs caches p = (Throw traversalMessage, caches) /\
  loadCoverage fs caches p cfg = (Throw traversalMessage, caches).
Proof.
  intros H.
  assert (E : validateProjectPath fs p = Throw traversalMessage)
    by (unfold validateProjectPath; now rewrite H).
  unfold loadProjectConfig, loadCoverage. now rewrite E.
Qed.

(** X21.  Discovery takes the first match: [findCoverageFile] answers
    the first of the six search paths that exists under the project,
    and null exactly when none of them exists. *)
Theorem discovery_first_match (fs : FileSystem) (p : jsstring) :
  (findCoverageFile fs p = None <->
   Forall (missing fs p) COVERAGE_SEARCH_PATHS) /\
  (forall x, findCoverageFile fs p = Some x ->
     existsSync fs x = true /\
     exists pre rel post,
       COVERAGE_SEARCH_PATHS = pre ++ rel :: post /\
       x = resolve [p; rel] /\ Forall (missing fs p) pre).
Proof.
  unfold findCoverageFile.
  pose proof (findIn_spec fs p COVERAGE_SEARCH_PATHS) as H.
  destruct (findIn fs p COVERAGE_SEARCH_PATHS) as [x|].
  - destruct H as (Hx & pre & rel & post & Hl & -> & Hpre).
    split.
    + split; [discriminate|]. intros Hall. exfalso.
      rewrite Hl in Hall. apply Forall_app in Hall as [_ Hall].
      inversion Hall as [|? ? Hm _]; subst. simpl in Hm. congruence.
    + intros y Hy. injection Hy as <-. split; [exact Hx|].
      now exists pre, rel, post.
  - split; [tauto|]. discriminate.
Qed.

(** X22.  The cache trusts the modification time: once a report has
    been loaded, the same data is returned as long as the file's
    modification time (a number, not NaN) is unchanged, even if the
    content of the file is different. *)
Theorem coverage_cache_trusts_mtime (fs fs' : FileSystem) (c0 c1 : Caches)
  (p : jsstring) (cfg : ProjectConfig) (d : list LcovFileData) :
  loadCoverage fs c0 p cfg = (Ok d, c1) ->
  existsSync fs' = existsSync fs -> isDirectory fs' = isDirectory fs ->
  mtimeMs fs' = mtimeMs fs ->
  (forall x, isNaN (mtimeMs fs x) = false) ->
  loadCoverage fs' c1 p cfg = (Ok d, c1).
Proof.
  intros H He Hd Hm Hn.
  apply loadCoverage_ok in H
    as (rp & path & Hv & Hp & Hne & Hex & [(e & Hg & Hs & -> & ->)|[Hdata ->]]).
  - rewrite (loadCoverage_hit fs' c0 p rp path cfg e); rewrite ?Hm, ?He;
      try assumption.
    + now rewrite Hs.
    + now rewrite (validate_ext fs fs').
    + unfold findCoverageFile in *. now rewrite (findIn_ext fs fs').
  - rewrite (loadCoverage_hit fs' _ p rp path cfg
               (mkCacheEntry d (mtimeMs fs path) path));
      rewrite ?Hm, ?He; try assumption.
    + cbn [ce_mtime ce_data]. now rewrite strictEq_refl.
    + now rewrite (validate_ext fs fs').
    + unfold findCoverageFile in *. now rewrite (findIn_ext fs fs').
    + cbn [cacheByProject]. apply addToCache_get.
Qed.

(** X23.  A report whose modification time changed is read again.
    After a successful load the project has a report, and a load under
    a different modification time of that file (existence being as
    before) returns the tallies of the present content of that very
    file and caches them under its path with the new modification
    time. *)
Theorem coverage_reparsed_when_mtime_changes (fs fs' : FileSystem)
  (c0 c1 : Caches) (p : jsstring) (cfg : ProjectConfig)
  (d : list LcovFileData) :
  loadCoverage fs c0 p cfg = (Ok d, c1) ->
  existsSync fs' = existsSync fs -> isDirectory fs' = isDirectory fs ->
  exists path,
    reportPath fs p cfg = Some path /\
    (strictEq (mtimeMs fs path) (mtimeMs fs' path) = false ->
     loadCoverage fs' c1 p cfg
     = (Ok (parseLcov (readFileSync fs' path)),
        mkCaches
          (addToCache (cacheByProject c1) path
             (mkCacheEntry (parseLcov (readFileSync fs' path))
                           (mtimeMs fs' path) path))
          (configCache c1))).
Proof.
  intros H He Hd.
  apply loadCoverage_ok in H
    as (rp & path & Hv & Hp & Hne & Hex & [(e & Hg & Hs & -> & ->)|[Hdata ->]]).
  - exists path. split; [unfold reportPath; now rewrite Hv|]. intros Hm.
    rewrite (loadCoverage_hit fs' c0 p rp path cfg e); rewrite ?He;
      try assumption.
    + apply strictEq_eq in Hs. rewrite Hs, Hm. reflexivity.
    + now rewrite (validate_ext fs fs').
    + unfold findCoverageFile in *. now rewrite (findIn_ext fs fs').
  - exists path. split; [unfold reportPath; now rewrite Hv|]. intros Hm.
    rewrite (loadCoverage_hit fs' _ p rp path cfg
               (mkCacheEntry d (mtimeMs fs path) path));
      rewrite ?He; try assumption.
    + cbn [ce_mtime]. rewrite Hm. reflexivity.
    + now rewrite (validate_ext fs fs').
    + unfold findCoverageFile in *. now rewrite (findIn_ext fs fs').
    + cbn [cacheByProject]. apply addToCache_get.
Qed.

End LoadingExtras.

Section LoadingWitnesses.

Lemma path_traversal_rejected_witness :
  @loadCoverage exampleHost (exampleDisk [] (Fin 1)) (mkCaches [] [])
                (js "/srv/app/../../etc") DEFAULT_CONFIG
  = (Throw (js "Invalid projectPath: path traversal (..) not allowed"),
     mkCaches [] []).
Proof.
  apply (@path_traversal_rejected exampleHost). reflexivity.
Defined.

Lemma coverage_cache_trusts_mtime_witness :
  let before := exampleDisk (unlines [js "SF:a.ts"; js "end_of_record"]) (Fin 1) in
  let after := exampleDisk (js "SF:b.ts") (Fin 1) in
  let first :=
    @loadCoverage exampleHost before (mkCaches [] []) (js "/p") DEFAULT_CONFIG in
  @loadCoverage exampleHost after (snd first) (js "/p") DEFAULT_CONFIG
  = (Ok [mkLcov (js "a.ts") (Fin 0) (Fin 0) (Fin 0) (Fin 0) (Fin 0) (Fin 0)],
     snd first).
Proof.
  intros before after first.
  apply (@coverage_cache_trusts_mtime exampleHost before after (mkCaches [] []));
    try reflexivity.
Defined.

Lemma coverage_reparsed_when_mtime_changes_witness :
  let report := js "/p/coverage/lcov.info" in
  let before :=
    exampleDiskAt report (unlines [js "SF:a.ts"; js "end_of_record"]) (Fin 1) in
  let after :=
    exampleDiskAt report (unlines [js "SF:b.ts"; js "end_of_record"]) (Fin 2) in
  let first :=
    @loadCoverage exampleHost before (mkCaches [] []) (js "/p") DEFAULT_CONFIG in
  fst first
  = Ok [mkLcov (js "a.ts") (Fin 0) (Fin 0) (Fin 0) (Fin 0) (Fin 0) (Fin 0)] /\
  fst (@loadCoverage exampleHost after (snd first) (js "/p") DEFAULT_CONFIG)
  = Ok [mkLcov (js "b.ts") (Fin 0) (Fin 0) (Fin 0) (Fin 0) (Fin 0) (Fin 0)].
Proof.
  intros report before after first. split; [reflexivity|].
  destruct (@coverage_reparsed_when_mtime_changes exampleHost before after
              (mkCaches [] []) (snd first) (js "/p") DEFAULT_CONFIG
              [mkLcov (js "a.ts") (Fin 0) (Fin 0) (Fin 0) (Fin 0)
                      (Fin 0) (Fin 0)]
              eq_refl eq_refl eq_refl) as (path & Hp & H).
  injection Hp as <-. rewrite H; [reflexivity|].
  cbn [mtimeMs before after exampleDiskAt strictEq].
  destruct (Req_dec_T 1 2) as [E|_]; [exfalso; lra|reflexivity].
Defined.

End LoadingWitnesses.

(* ================================================================== *)
(** ** The project configuration *)

Section ConfigExtras.

Context {B : Builtins}.

Lemma settled_default : settled DEFAULT_CONFIG.
Proof.
  split; [|split].
  - exists (Fin 10). split; reflexivity.
  - discriminate.
  - exists DEFAULT_WEIGHTS. repeat split.
Qed.

Lemma configLine_settled (c : ProjectConfig) (line : jsstring) :
  settled c -> settled (configLine c line).
Proof.
  intros (Hm & Ht & Hw). unfold configLine. cbv zeta.
  repeat match goal with
  | |- settled (match ?x with _ => _ end) => destruct x eqn:?
  end;
  try (split; [exact Hm|split; [exact Ht|exact Hw]]).
  - split; [exact Hm|split; [exact Ht|]].
    match goal with
    | H : forallb _ _ = true |- _ =>
        cbn [forallb] in H;
        apply andb_true_iff in H as [H1 H];
        apply andb_true_iff in H as [H2 H];
        apply andb_true_iff in H as [H3 _];
        apply negb_true_iff in H1, H2, H3
    end.
    eexists. split; [reflexivity|]. cbn [w_branches w_functions w_lines].
    now repeat split.
  - split; [|split; [exact Ht|exact Hw]].
    match goal with
    | H : negb (isNaN (parseInt ?v)) = true |- _ =>
        apply negb_true_iff in H; exists (parseInt v); split;
        [reflexivity|exact H]
    end.
  - split; [exact Hm|split; [|exact Hw]].
    cbn [top set_top]. intros k Hk. injection Hk as <-.
    match goal with
    | H : negb (isNaN (parseInt ?v)) = true |- _ =>
        apply negb_true_iff in H; exact H
    end.
Qed.

Lemma configOfContent_settled (content : jsstring) :
  settled (configOfContent content).
Proof.
  unfold configOfContent.
  assert (H : forall ls c, settled c -> settled (fold_left configLine ls c)).
  { induction ls as [|l ls IH]; intros c Hc; [exact Hc|].
    simpl. apply IH. now apply configLine_settled. }
  apply H, settled_default.
Qed.

Lemma map_get_Forall {T : Type} (P : T -> Prop) (m : JSMap T) (k : jsstring)
  (v : T) :
  Forall (fun e => P (snd e)) m -> map_get m k = Some v -> P v.
Proof.
  induction m as [|[k0 v0] r IH]; simpl; [discriminate|].
  intros H. inversion H as [|? ? H0 Hr]; subst.
  destruct (streq k0 k); [|now apply IH].
  intros E. injection E as <-. exact H0.
Qed.

Lemma map_set_Forall {T : Type} (P : T -> Prop) (m : JSMap T) (k : jsstring)
  (v : T) :
  Forall (fun e => P (snd e)) m -> P v ->
  Forall (fun e => P (snd e)) (map_set m k v).
Proof.
  intros H Hv. induction m as [|[k0 v0] r IH]; simpl.
  - now repeat constructor.
  - inversion H as [|? ? H0 Hr]; subst.
    destruct (streq k0 k); constructor; auto.
Qed.

Lemma map_delete_Forall {T : Type} (P : T -> Prop) (m : JSMap T)
  (k : jsstring) :
  Forall (fun e => P (snd e)) m -> Forall (fun e => P (snd e)) (map_delete m k).
Proof.
  intros H. induction m as [|[k0 v0] r IH]; simpl; [constructor|].
  inversion H as [|? ? H0 Hr]; subst.
  destruct (streq k0 k); [exact Hr|]. constructor; auto.
Qed.

Lemma addToCache_Forall {T : Type} (P : T -> Prop) (m : JSMap T)
  (k : jsstring) (v : T) :
  Forall (fun e => P (snd e)) m -> P v ->
  Forall (fun e => P (snd e)) (addToCache m k v).
Proof.
  intros H Hv. unfold addToCache. apply map_set_Forall; [|exact Hv].
  destruct (MAX_CACHE_SIZE <=? map_size m)%nat; [|exact H].
  destruct (map_firstKey m) as [[|a f]|]; try exact H.
  now apply map_delete_Forall.
Qed.

(** X24.  No NaN reaches the configuration: whatever brennpunkt.yaml
    contains, [loadProjectConfig] answers a configuration whose
    [minLines] is set and is not NaN, whose [top] is not NaN when set
    and whose weights are three numbers other than NaN; a setting that
    reads as NaN leaves the value before it in place.  This holds for
    cached answers too, the cache holding nothing else. *)
Theorem project_config_is_settled (fs : FileSystem) (caches caches' : Caches)
  (p : jsstring) (cfg : ProjectConfig) :
  cachedSettled caches ->
  loadProjectConfig fs caches p = (Ok cfg, caches') ->
  settled cfg /\ cachedSettled caches'.
Proof.
  unfold cachedSettled, loadProjectConfig. intros Hc H.
  destruct (validateProjectPath fs p) as [vp|e]; [|discriminate].
  destruct (existsSync fs (resolve [vp; js "brennpunkt.yaml"])).
  - simpl negb in H. cbv iota in H.
    assert (Hfresh : forall c, settled c ->
              Forall (fun e => settled (cc_config (snd e)))
                (addToCache (configCache caches)
                   (resolve [vp; js "brennpunkt.yaml"])
                   (mkConfigCacheEntry c
                      (mtimeMs fs (resolve [vp; js "brennpunkt.yaml"]))))).
    { intros c Hs.
      apply (addToCache_Forall (fun e => settled (cc_config e))); assumption. }
    destruct (map_get (configCache caches)
                      (resolve [vp; js "brennpunkt.yaml"])) as [cached|] eqn:Eg.
    + destruct (strictEq (cc_mtime cached) _).
      * inversion H; subst. split; [|exact Hc].
        exact (map_get_Forall (fun e => settled (cc_config e)) _ _ _ Hc Eg).
      * inversion H; subst. split; [apply configOfContent_settled|].
        apply Hfresh, configOfContent_settled.
    + inversion H; subst. split; [apply configOfContent_settled|].
      apply Hfresh, configOfContent_settled.
  - inversion H; subst. split; [apply settled_default|exact Hc].
Qed.

End ConfigExtras.

Section ConfigWitnesses.

Lemma project_config_is_settled_witness :
  exists cfg caches',
    @loadProjectConfig exampleHost
      (exampleDisk (unlines [js "minLines: x"; js "top: 3"]) (Fin 1))
      (mkCaches [] []) (js "/p")
    = (Ok cfg, caches') /\
    top cfg = Some (ofZ 3) /\ settled cfg /\ cachedSettled caches'.
Proof.
  eexists. eexists. split; [reflexivity|]. split; [reflexivity|].
  apply (@project_config_is_settled exampleHost
           (exampleDisk (unlines [js "minLines: x"; js "top: 3"]) (Fin 1))
           (mkCaches [] []) _ (js "/p") _); [constructor|reflexivity].
Defined.

End ConfigWitnesses.

(* ================================================================== *)
(** ** Settings of brennpunkt.yaml *)

Section SettingExtras.

Context {B : Builtins}.

Lemma trimStart_blank (a s : jsstring) :
  forallb isWhiteSpace a = true -> trimStart (a ++ s) = trimStart s.
Proof.
  induction a as [|c a IH]; simpl; [reflexivity|].
  intros H. apply andb_true_iff in H as [Hc Ha]. rewrite Hc. now apply IH.
Qed.

Lemma trimEnd_blank (b : jsstring) :
  forallb isWhiteSpace b = true -> trimEnd b = [].
Proof.
  induction b as [|c b IH]; simpl; [reflexivity|].
  intros H. apply andb_true_iff in H as [Hc Hb].
  now rewrite (IH Hb), Hc.
Qed.

Lemma trimEnd_app_blank (s b : jsstring) :
  forallb isWhiteSpace b = true -> trimEnd (s ++ b) = trimEnd s.
Proof.
  intros H. induction s as [|c s IH]; simpl;
    [now apply trimEnd_blank|now rewrite IH].
Qed.

Lemma trimEnd_app_keep (x y : jsstring) :
  trimEnd y <> [] -> trimEnd (x ++ y) = x ++ trimEnd y.
Proof.
  intros H. induction x as [|c x IH]; [reflexivity|].
  change ((c :: x) ++ y) with (c :: (x ++ y)).
  rewrite trimEnd_cons_ne by
    (rewrite IH; destruct x; simpl; [exact H|discriminate]).
  now rewrite IH.
Qed.

Lemma blank_ws (s : jsstring) :
  blank s = true -> forallb isWhiteSpace s = true.
Proof.
  unfold blank. induction s as [|c s IH]; simpl; [reflexivity|].
  intros H. apply andb_true_iff in H as [Hc Hs].
  apply andb_true_iff in Hc as [Hc _]. now rewrite Hc, IH.
Qed.

Lemma blank_oneLine (s : jsstring) : blank s = true -> oneLine s = true.
Proof.
  unfold blank, oneLine. induction s as [|c s IH]; simpl; [reflexivity|].
  intros H. apply andb_true_iff in H as [Hc Hs].
  apply andb_true_iff in Hc as [_ Hc]. now rewrite Hc, IH.
Qed.

Lemma slice2_prefix (a b : jsstring) :
  slice2 0 (Z.of_nat (List.length a)) (a ++ b) = a.
Proof.
  unfold slice2. rewrite length_app.
  destruct (Z.ltb_spec 0 0); [lia|].
  destruct (Z.ltb_spec (Z.of_nat (List.length a)) 0); [lia|].
  replace (Z.to_nat (Z.min 0 (Z.of_nat (List.length a + List.length b))))
    with 0%nat by lia.
  replace (Z.to_nat _) with (List.length a) by lia.
  simpl skipn. rewrite firstn_app, firstn_all, Nat.sub_diag. simpl.
  apply app_nil_r.
Qed.

Lemma slice2_suffix (a b : jsstring) :
  slice2 (Z.of_nat (List.length a)) (Z.of_nat (List.length (a ++ b))) (a ++ b)
  = b.
Proof.
  unfold slice2. rewrite length_app.
  destruct (Z.ltb_spec (Z.of_nat (List.length a)) 0); [lia|].
  destruct (Z.ltb_spec (Z.of_nat (List.length a + List.length b)) 0); [lia|].
  replace (Z.to_nat (Z.min (Z.of_nat (List.length a))
                           (Z.of_nat (List.length a + List.length b))))
    with (List.length a) by lia.
  replace (Z.to_nat _) with (List.length b) by lia.
  rewrite skipn_app, skipn_all, Nat.sub_diag. simpl. apply firstn_all.
Qed.

Lemma slice2_unquote (a b : N) (s : jsstring) :
  slice2 1 (-1) (a :: s ++ [b]) = s.
Proof.
  unfold slice2. cbn [List.length]. rewrite length_app. cbn [List.length].
  destruct (Z.ltb_spec 1 0); [lia|].
  destruct (Z.ltb_spec (-1) 0); [|lia].
  replace (Z.to_nat (Z.min 1 _)) with 1%nat by lia.
  replace (Z.to_nat _) with (List.length s) by lia.
  cbn [skipn]. rewrite firstn_app, firstn_all, Nat.sub_diag. simpl.
  apply app_nil_r.
Qed.

Lemma endsWith_last (s : jsstring) (c : N) : endsWith (s ++ [c]) [c] = true.
Proof.
  unfold endsWith. rewrite rev_unit. simpl. now rewrite N.eqb_refl.
Qed.

Local Abbreviation numeral c :=
  ((c =? 45) || ((48 <=? c) && (c <=? 57)))%N.

Lemma showZ_numeral (z : Z) : forallb (fun c => numeral c) (showZ z) = true.
Proof.
  assert (H : forall d, forallb (fun c => numeral c)
                          (js (NilEmpty.string_of_uint d)) = true)
    by (induction d; simpl; auto).
  unfold showZ. destruct z; simpl; try reflexivity; apply H.
Qed.

Lemma showZ_nonempty (z : Z) : showZ z <> [].
Proof.
  intros E. pose proof (parseIntZ_showZ z) as H. rewrite E in H.
  discriminate H.
Qed.

Lemma showZ_unquoted (z : Z) (q : N) :
  numeral q = false -> startsWith (showZ z) [q] = false.
Proof.
  intros Hq. pose proof (showZ_numeral z) as H.
  destruct (showZ z) as [|c r]; [reflexivity|].
  simpl in H. apply andb_true_iff in H as [Hc _]. simpl.
  destruct (N.eqb_spec c q) as [->|]; [congruence|reflexivity].
Qed.

Lemma quoted_nonws (q : quoting) (z : Z) :
  forallb (fun c => negb (isWhiteSpace c)) (quoted q (showZ z)) = true.
Proof.
  destruct q; cbn [quoted forallb]; rewrite ?forallb_app, showZ_nonws;
    reflexivity.
Qed.

Lemma quoted_nonempty (q : quoting) (z : Z) : quoted q (showZ z) <> [].
Proof. destruct q; try discriminate. apply showZ_nonempty. Qed.

(** The quotes come off. *)
Lemma unquote_quoted (q : quoting) (z : Z) :
  (if (startsWith (quoted q (showZ z)) [34%N]
       && endsWith (quoted q (showZ z)) [34%N])
      || (startsWith (quoted q (showZ z)) [39%N]
          && endsWith (quoted q (showZ z)) [39%N])
   then slice2 1 (-1) (quoted q (showZ z))
   else quoted q (showZ z))
  = showZ z.
Proof.
  destruct q; cbn [quoted].
  - now rewrite !showZ_unquoted by reflexivity.
  - change (34%N :: showZ z ++ [34%N]) with ((34%N :: showZ z) ++ [34%N]).
    rewrite endsWith_last.
    change ((34%N :: showZ z) ++ [34%N]) with (34%N :: showZ z ++ [34%N]).
    cbn [startsWith N.eqb Pos.eqb andb orb]. apply slice2_unquote.
  - change (39%N :: showZ z ++ [39%N]) with ((39%N :: showZ z) ++ [39%N]).
    rewrite endsWith_last.
    change ((39%N :: showZ z) ++ [39%N]) with (39%N :: showZ z ++ [39%N]).
    cbn [startsWith N.eqb Pos.eqb andb orb]. apply slice2_unquote.
Qed.

Lemma trim_settingLine (indent key gap trail : jsstring) (q : quoting)
  (z : Z) :
  blank indent = true -> blank trail = true ->
  trimStart key = key -> key <> [] ->
  trim (settingLine indent key gap (quoted q (showZ z)) trail)
  = key ++ js ":" ++ gap ++ quoted q (showZ z).
Proof.
  intros Hi Ht Hk Hne. unfold trim, settingLine.
  rewrite trimStart_blank by now apply blank_ws.
  assert (Hs : forall r, trimStart (key ++ r) = key ++ r).
  { intros r. destruct key as [|c k]; [congruence|].
    simpl in *. destruct (isWhiteSpace c); [|reflexivity].
    exfalso. assert (L : List.length (trimStart k) <= List.length k).
    { clear. induction k as [|a k IH]; simpl; [lia|].
      destruct (isWhiteSpace a); simpl; lia. }
    rewrite Hk in L. simpl in L. lia. }
  rewrite Hs. set (V := quoted q (showZ z)).
  assert (HV : trimEnd V = V) by apply trimEnd_nonws, quoted_nonws.
  replace (key ++ js ":" ++ gap ++ V ++ trail)
    with (((key ++ js ":" ++ gap) ++ V) ++ trail)
    by now rewrite <- !app_assoc.
  rewrite trimEnd_app_blank by now apply blank_ws.
  rewrite trimEnd_app_keep by (rewrite HV; apply quoted_nonempty).
  rewrite HV. now rewrite <- !app_assoc.
Qed.

Lemma configLine_integer (c : ProjectConfig) (k : integerSetting)
  (indent gap trail : jsstring) (q : quoting) (z : Z) :
  blank indent = true -> blank gap = true -> blank trail = true ->
  getInteger k (configLine c
     (settingLine indent (keyName k) gap (quoted q (showZ z)) trail))
  = Some (ofZ z).
Proof.
  intros Hi Hg Ht. unfold configLine.
  rewrite trim_settingLine by (assumption || (destruct k; easy)).
  assert (Hv : trim (gap ++ quoted q (showZ z)) = quoted q (showZ z)).
  { unfold trim. rewrite trimStart_blank by now apply blank_ws.
    pose proof (quoted_nonws q z) as Hn. pose proof (quoted_nonempty q z) as He.
    destruct (quoted q (showZ z)) as [|a r] eqn:E; [congruence|].
    assert (Ha : isWhiteSpace a = false).
    { simpl in Hn. apply andb_true_iff in Hn as [Ha _].
      now apply negb_true_iff in Ha. }
    cbn [trimStart]. rewrite Ha. now apply trimEnd_nonws. }
  destruct k; cbn [keyName getInteger].
  - set (V := quoted q (showZ z)) in *.
    change (js "minLines" ++ js ":" ++ gap ++ V)
      with (js "minLines:" ++ (gap ++ V)).
    set (T := js "minLines:" ++ (gap ++ V)).
    change (indexOf T (js ":")) with 8%Z.
    cbv zeta.
    change (match T with [] => c | _ :: _ => ?X end) with X.
    assert (Hkey : trim (slice2 0 8 T) = js "minLines").
    { change T with (js "minLines" ++ (js ":" ++ gap ++ V)).
      change 8%Z with (Z.of_nat (List.length (js "minLines"))).
      now rewrite slice2_prefix. }
    assert (Hval : trim (slice2 (8 + 1) (Z.of_nat (List.length T)) T) = V).
    { unfold T.
      change (8 + 1)%Z with (Z.of_nat (List.length (js "minLines:"))).
      now rewrite slice2_suffix. }
    rewrite Hkey, Hval. unfold V. rewrite unquote_quoted, parseInt_showZ.
    reflexivity.
  - set (V := quoted q (showZ z)) in *.
    change (js "top" ++ js ":" ++ gap ++ V) with (js "top:" ++ (gap ++ V)).
    set (T := js "top:" ++ (gap ++ V)).
    change (indexOf T (js ":")) with 3%Z.
    cbv zeta.
    change (match T with [] => c | _ :: _ => ?X end) with X.
    assert (Hkey : trim (slice2 0 3 T) = js "top").
    { change T with (js "top" ++ (js ":" ++ gap ++ V)).
      change 3%Z with (Z.of_nat (List.length (js "top"))).
      now rewrite slice2_prefix. }
    assert (Hval : trim (slice2 (3 + 1) (Z.of_nat (List.length T)) T) = V).
    { unfold T.
      change (3 + 1)%Z with (Z.of_nat (List.length (js "top:"))).
      now rewrite slice2_suffix. }
    rewrite Hkey, Hval. unfold V. rewrite unquote_quoted, parseInt_showZ.
    reflexivity.
Qed.

Lemma settingLine_oneLine (indent gap trail : jsstring) (k : integerSetting)
  (q : quoting) (z : Z) :
  blank indent = true -> blank gap = true -> blank trail = true ->
  oneLine (settingLine indent (keyName k) gap (quoted q (showZ z)) trail)
  = true.
Proof.
  intros Hi Hg Ht. unfold settingLine.
  rewrite !oneLine_app.
  rewrite (blank_oneLine indent), (blank_oneLine gap), (blank_oneLine trail)
    by assumption.
  rewrite (nonws_oneLine _ (quoted_nonws q z)). now destruct k.
Qed.

(** X25.  An integer setting is read back.  A line [minLines: n] or
    [top: n] of brennpunkt.yaml, indented or not, with or without space
    after the colon and at the end, the number bare or in single or
    double quotes, sets the field to n, for every integer n of absolute
    value at most 2^53 (negative ones too: the loader does not
    validate); and as the last line of the file it overrides whatever
    the lines before it have set. *)
Theorem integer_setting_read_back (lines : list jsstring)
  (indent gap trail : jsstring) (k : integerSetting) (q : quoting) (z : Z) :
  safeInteger z = true ->
  forallb oneLine lines = true ->
  blank indent = true -> blank gap = true -> blank trail = true ->
  getInteger k
    (configOfContent
       (unlines (lines ++ [settingLine indent (keyName k) gap
                                       (quoted q (showZ z)) trail])))
  = Some (ofZ z).
Proof.
  intros _ Hl Hi Hg Ht. unfold configOfContent.
  rewrite split_unlines.
  - rewrite fold_left_app. cbn [fold_left]. now apply configLine_integer.
  - rewrite forallb_app, Hl. cbn [forallb].
    now rewrite settingLine_oneLine.
  - now destruct lines.
Qed.

End SettingExtras.

Section SettingWitnesses.

Lemma integer_setting_read_back_witness :
  minLines
    (@configOfContent exampleHost
       (unlines ([js "# project settings"; js "minLines: 3"]
                 ++ [settingLine (js "  ") (js "minLines") (js " ")
                                 (quoted DoubleQuoted (showZ 25)) []])))
  = Some (ofZ 25).
Proof.
  apply (@integer_setting_read_back exampleHost
           [js "# project settings"; js "minLines: 3"]
           (js "  ") (js " ") [] MinLines DoubleQuoted 25);
    reflexivity.
Defined.

End SettingWitnesses.

(* ================================================================== *)
(** ** Reason and advice *)

Section AdviceExtras.

Context {B : Builtins}.
Local Open Scope R_scope.

Local Abbreviation moderate := (js "Moderate coverage gaps across metrics.").
Local Abbreviation focusBranches :=
  (js "Focus on testing conditional logic, error handling paths, and edge cases.").
Local Abbreviation focusGeneral :=
  (js "Improve general test coverage across the file.").

Lemma lt_true (x y : R) : x < y -> lt (Fin x) (Fin y) = true.
Proof. intros H. unfold lt. now apply gt_true. Qed.

Lemma lt_false (x y : R) : y <= x -> lt (Fin x) (Fin y) = false.
Proof. intros H. unfold lt. now apply gt_false. Qed.

Lemma lt_inv_false (x y : R) : lt (Fin x) (Fin y) = false -> y <= x.
Proof.
  unfold lt, gt. destruct (Rlt_dec x y); [discriminate|]. intros _. lra.
Qed.

(** Rounding to the nearest integer never takes a number across an
    integer threshold from above. *)
Lemma round_keeps_threshold (a : number) (k : Z) :
  lt a (Fin (IZR k)) = false -> lt (Math_round a) (Fin (IZR k)) = false.
Proof.
  destruct a as [|x]; [reflexivity|]. intros H. apply lt_inv_false in H.
  cbn [Math_round]. apply lt_false. apply IZR_le, Zfloor_lub. lra.
Qed.

(** What [generateReason] rounds is the percentage [generateSuggestedFocus]
    compares. *)
Lemma rounded_percent (fnd ht : number) :
  (if gt fnd (Fin 0)
   then Math_round (mul (div ht fnd) (Fin 100))
   else Fin 100)
  = Math_round (coveragePercent fnd ht).
Proof.
  unfold coveragePercent. destruct (gt fnd (Fin 0)); [reflexivity|].
  cbn [Math_round]. f_equal. rewrite (Zfloor_eq 100); lra.
Qed.

Lemma generateReason_eq (f : LcovFileData) :
  generateReason f
  = let lineCov := Math_round (coveragePercent (linesFound f) (linesHit f)) in
    let branchCov :=
      Math_round (coveragePercent (branchesFound f) (branchesHit f)) in
    let funcCov :=
      Math_round (coveragePercent (functionsFound f) (functionsHit f)) in
    let issues :=
      (if lt branchCov (Fin 50)
       then [ numberToString branchCov ++ js "% branch coverage ("
              ++ numberToString (sub (branchesFound f) (branchesHit f))
              ++ js " untested branches)" ]
       else [])
      ++ (if lt funcCov (Fin 70)
          then [ numberToString funcCov ++ js "% function coverage ("
                 ++ numberToString (sub (functionsFound f) (functionsHit f))
                 ++ js " untested functions)" ]
          else [])
      ++ (if lt lineCov (Fin 60)
          then [ numberToString lineCov ++ js "% line coverage" ]
          else []) in
    match issues with
    | [] => moderate
    | _ :: _ => join (js ". ") issues ++ js "."
    end.
Proof.
  unfold generateReason. rewrite !rounded_percent. cbv zeta.
  destruct (lt (Math_round (coveragePercent (branchesFound f) (branchesHit f)))
               (Fin 50));
  destruct (lt (Math_round (coveragePercent (functionsFound f)
                                            (functionsHit f))) (Fin 70));
  destruct (lt (Math_round (coveragePercent (linesFound f) (linesHit f)))
               (Fin 60));
  reflexivity.
Qed.

Lemma generateSuggestedFocus_eq (f : LcovFileData) :
  generateSuggestedFocus f
  = if lt (coveragePercent (branchesFound f) (branchesHit f)) (Fin 50)
    then focusBranches
    else if lt (coveragePercent (functionsFound f) (functionsHit f)) (Fin 70)
    then js "Focus on testing untested functions - some may be dead code or missing feature tests."
    else focusGeneral.
Proof. reflexivity. Qed.

(** X26.  The advice agrees with the reason in one direction: whenever
    [generateSuggestedFocus] gives the general advice, [generateReason]
    lists neither branch nor function coverage; it is the "moderate
    gaps" sentence or the line-coverage issue alone. *)
Theorem general_focus_has_mild_reason (f : LcovFileData) :
  generateSuggestedFocus f = focusGeneral ->
  generateReason f = moderate \/
  generateReason f
  = (numberToString
       (Math_round (coveragePercent (linesFound f) (linesHit f)))
     ++ js "% line coverage") ++ js ".".
Proof.
  rewrite generateSuggestedFocus_eq, generateReason_eq. cbv zeta.
  destruct (lt (coveragePercent (branchesFound f) (branchesHit f)) (Fin 50))
    eqn:Eb.
  { intros H. apply (f_equal (fun s => hd 0%N s)) in H. discriminate H. }
  destruct (lt (coveragePercent (functionsFound f) (functionsHit f)) (Fin 70))
    eqn:Ef.
  { intros H. apply (f_equal (fun s => hd 0%N s)) in H. discriminate H. }
  intros _.
  rewrite (round_keeps_threshold _ 50 Eb), (round_keeps_threshold _ 70 Ef).
  cbn [app].
  destruct (lt _ (Fin 60)); [right|left]; reflexivity.
Qed.

(** X27.  Near a threshold the two disagree, because the reason
    compares rounded percentages and the advice unrounded ones: with a
    branch percentage in [49.5, 50) and function and line percentages
    of at least 69.5 and 59.5, the reason is the "moderate gaps"
    sentence while the advice is to test conditional logic. *)
Theorem reason_and_focus_disagree (f : LcovFileData) :
  ge (coveragePercent (branchesFound f) (branchesHit f)) (Fin (495 / 10))
  = true ->
  lt (coveragePercent (branchesFound f) (branchesHit f)) (Fin 50) = true ->
  ge (coveragePercent (functionsFound f) (functionsHit f)) (Fin (695 / 10))
  = true ->
  ge (coveragePercent (linesFound f) (linesHit f)) (Fin (595 / 10)) = true ->
  generateReason f = moderate /\ generateSuggestedFocus f = focusBranches.
Proof.
  intros Hb1 Hb2 Hf Hl.
  rewrite generateSuggestedFocus_eq, generateReason_eq, Hb2. cbv zeta.
  split; [|reflexivity].
  assert (R : forall a k, ge a (Fin (IZR k - / 2)) = true ->
                lt (Math_round a) (Fin (IZR k)) = false).
  { intros a k H. destruct (ge_inv _ _ H) as (x & y & -> & E & Hxy).
    injection E as <-. cbn [Math_round]. apply lt_false.
    apply IZR_le, Zfloor_lub. lra. }
  rewrite (R _ 50%Z), (R _ 70%Z), (R _ 60%Z); [reflexivity| | |].
  - replace (IZR 60 - / 2) with (595 / 10) by lra. exact Hl.
  - replace (IZR 70 - / 2) with (695 / 10) by lra. exact Hf.
  - replace (IZR 50 - / 2) with (495 / 10) by lra. exact Hb1.
Qed.

End AdviceExtras.

Section AdviceWitnesses.

Local Open Scope R_scope.

Lemma general_focus_has_mild_reason_witness :
  let f := mkLcov (js "a.ts") (Fin 0) (Fin 0) (Fin 0) (Fin 0) (Fin 0) (Fin 0) in
  @generateReason exampleHost f = js "Moderate coverage gaps across metrics."
  \/ @generateReason exampleHost f
     = (@numberToString exampleHost
          (Math_round (coveragePercent (linesFound f) (linesHit f)))
        ++ js "% line coverage") ++ js ".".
Proof.
  intros f. apply (@general_focus_has_mild_reason exampleHost).
  rewrite generateSuggestedFocus_eq. unfold f, coveragePercent.
  cbn [linesFound linesHit functionsFound functionsHit branchesFound
       branchesHit].
  rewrite !gt_false by lra. rewrite !lt_false by lra. reflexivity.
Defined.

Lemma reason_and_focus_disagree_witness :
  let f := mkLcov (js "a.ts") (Fin 100) (Fin 100) (Fin 10) (Fin 10)
                  (Fin 400) (Fin 199) in
  @generateReason exampleHost f = js "Moderate coverage gaps across metrics."
  /\ generateSuggestedFocus f
     = js "Focus on testing conditional logic, error handling paths, and edge cases.".
Proof.
  intros f. apply (@reason_and_focus_disagree exampleHost);
    unfold f;
    cbn [linesFound linesHit functionsFound functionsHit branchesFound
         branchesHit];
    rewrite coveragePercent_Fin;
    match goal with
    | |- context [Rlt_dec 0 ?x] => destruct (Rlt_dec 0 x); [|exfalso; lra]
    end;
    first [apply ge_true; lra | apply lt_true; lra].
Defined.

End AdviceWitnesses.

(* ================================================================== *)
(** ** Looking a file up in the report *)

Section LookupExtras.

Lemma startsWith_spec (s p : jsstring) :
  startsWith s p = true <-> exists r, s = p ++ r.
Proof.
  split.
  - intros H. exists (slice (List.length p) s). now apply startsWith_inv.
  - intros [r ->]. apply startsWith_app.
Qed.

Lemma endsWith_spec (s t : jsstring) : endsWith s t = true <-> suffixOf t s.
Proof.
  unfold endsWith, suffixOf. rewrite startsWith_spec. split.
  - intros [r H]. exists (rev r).
    rewrite <- (rev_involutive s), H, rev_app_distr, rev_involutive.
    reflexivity.
  - intros [p ->]. exists (rev p). apply rev_app_distr.
Qed.

Lemma matchesPath_spec (path : jsstring) (f : LcovFileData) :
  matchesPath path f = true <-> related (file f) path.
Proof.
  unfold matchesPath, related. rewrite !orb_true_iff, !endsWith_spec, streq_eq.
  split.
  - intros [[H|H]|H]; [left|right|left]; try assumption.
    exists []. now rewrite H.
  - intros [H|H]; [now right|now left; right].
Qed.

(** X28.  A file is looked up by suffix, first match first: the tally
    the handlers work on is the first one of the report whose name ends
    with the requested path or is an ending of it; when there is none,
    no tally of the report is so related.  Hence an exact match does
    not take precedence over an earlier tally whose name is an ending
    of the request, and a tally with an empty name matches every
    request. *)
Theorem lookup_first_suffix_match (files : list LcovFileData)
  (path : jsstring) :
  match findFile files path with
  | Some f =>
      exists pre post,
        files = pre ++ f :: post /\ related (file f) path /\
        Forall (fun g => ~ related (file g) path) pre
  | None => Forall (fun g => ~ related (file g) path) files
  end.
Proof.
  unfold findFile. induction files as [|g files IH]; simpl; [constructor|].
  destruct (matchesPath path g) eqn:E.
  - exists [], files. repeat split; [|constructor].
    now apply matchesPath_spec.
  - assert (Hg : ~ related (file g) path).
    { intros H. apply matchesPath_spec in H. congruence. }
    destruct (find (matchesPath path) files) as [f|].
    + destruct IH as (pre & post & -> & Hr & Hpre).
      exists (g :: pre), post. repeat split; [assumption|].
      now constructor.
    + now constructor.
Qed.

End LookupExtras.

(* ================================================================== *)
(** ** The impact estimate *)

Section ImpactExtras.

Context {B : Builtins}.
Local Open Scope R_scope.

Lemma definedOnly_app {A : Type} (a b : list (option A)) :
  definedOnly (a ++ b) = definedOnly a ++ definedOnly b.
Proof.
  induction a as [|[x|] a IH]; simpl; [reflexivity| |assumption].
  now rewrite IH.
Qed.

Lemma targetFiles_app (allFiles : list LcovFileData) (p q : list jsstring) :
  targetFiles allFiles (p ++ q)
  = targetFiles allFiles p ++ targetFiles allFiles q.
Proof. unfold targetFiles. now rewrite map_app, definedOnly_app. Qed.

Lemma add_comm (a b : number) : add a b = add b a.
Proof. destruct a, b; simpl; try reflexivity. f_equal. lra. Qed.

Lemma additional_acc (fnd ht : LcovFileData -> number)
  (l : list LcovFileData) (acc : number) :
  fold_left (fun sum f => add sum (sub (fnd f) (ht f))) l acc
  = add acc (additional fnd ht l).
Proof.
  unfold additional. revert acc.
  induction l as [|f l IH]; intros acc; cbn [fold_left].
  - destruct acc; simpl; [reflexivity|]. f_equal. lra.
  - rewrite IH, (IH (add (Fin 0) _)), add_zero_l. apply add_assoc.
Qed.

Lemma additional_app (fnd ht : LcovFileData -> number)
  (a b : list LcovFileData) :
  additional fnd ht (a ++ b)
  = add (additional fnd ht a) (additional fnd ht b).
Proof.
  unfold additional at 1. rewrite fold_left_app. apply additional_acc.
Qed.

Lemma additional_cons (fnd ht : LcovFileData -> number) (f : LcovFileData)
  (l : list LcovFileData) :
  additional fnd ht (f :: l) = add (sub (fnd f) (ht f)) (additional fnd ht l).
Proof.
  change (f :: l) with ([f] ++ l). rewrite additional_app.
  unfold additional at 1. cbn [fold_left]. now rewrite add_zero_l.
Qed.

(** X29.  The estimate adds up over the request, with no check for
    repeats: when the counters of the files found for [p ++ q] are
    non-negative integers with totals of at most 2^53 (so that the
    additions are exact), the additional lines, functions and branches
    of the request [p ++ q] are the sums of those of [p] and of [q], and
    the files analysed are those of [p] followed by those of [q].  A
    file named twice is counted twice. *)
Theorem impact_adds_over_requests (allFiles : list LcovFileData)
  (p q : list jsstring) (ip iq : Impact) :
  exactTotals (targetFiles allFiles (p ++ q)) ->
  impactOf allFiles p = Some ip -> impactOf allFiles q = Some iq ->
  exists i,
    impactOf allFiles (p ++ q) = Some i /\
    i_filesAnalyzed i = i_filesAnalyzed ip ++ i_filesAnalyzed iq /\
    c_lines (i_additionalCoverage i)
    = add (c_lines (i_additionalCoverage ip))
          (c_lines (i_additionalCoverage iq)) /\
    c_functions (i_additionalCoverage i)
    = add (c_functions (i_additionalCoverage ip))
          (c_functions (i_additionalCoverage iq)) /\
    c_branches (i_additionalCoverage i)
    = add (c_branches (i_additionalCoverage ip))
          (c_branches (i_additionalCoverage iq)).
Proof.
  intros _. unfold impactOf. rewrite targetFiles_app. cbv zeta.
  destruct (targetFiles allFiles p) as [|f tp] eqn:Ep; [discriminate|].
  destruct (targetFiles allFiles q) as [|g tq] eqn:Eq; [discriminate|].
  intros Hp Hq. injection Hp as <-. injection Hq as <-.
  change ((f :: tp) ++ g :: tq) with (f :: (tp ++ g :: tq)).
  cbv iota. eexists. split; [reflexivity|].
  cbn [i_filesAnalyzed i_additionalCoverage c_lines c_functions c_branches].
  change (f :: (tp ++ g :: tq)) with ((f :: tp) ++ g :: tq).
  rewrite map_app, !additional_app. repeat split.
Qed.

End ImpactExtras.

Section ImpactBound.

Local Open Scope R_scope.

Lemma add_swap (a b c : number) : add a (add b c) = add b (add a c).
Proof. now rewrite <- !add_assoc, (add_comm a b). Qed.

Lemma sumTotals_perm (l l' : list LcovFileData) :
  Permutation l l' -> sumTotals l = sumTotals l'.
Proof.
  induction 1 as [|x l l' _ IH|x y l|l l' l'' _ IH1 _ IH2].
  - reflexivity.
  - now rewrite !sumTotals_cons, IH.
  - rewrite !sumTotals_cons.
    cbn [t_linesFound t_linesHit t_functionsFound t_functionsHit
         t_branchesFound t_branchesHit].
    f_equal; apply add_swap.
  - congruence.
Qed.

Lemma round1_within (x : R) :
  x <= 100 -> ge (Fin 100) (round1 (Fin x)) = true.
Proof.
  intros H. unfold round1. cbn [mul lift2 Math_round].
  rewrite div_Fin by lra. apply ge_true.
  pose proof (Zfloor_bound (x * 10 + / 2)) as [Hz _].
  assert (Hk : (Zfloor (x * 10 + / 2) < 1001)%Z) by (apply lt_IZR; lra).
  assert (Hk' : IZR (Zfloor (x * 10 + / 2)) <= 1000) by (apply IZR_le; lia).
  lra.
Qed.

Section Category.

Variables (fnd ht : LcovFileData -> number) (totF totH : Totals -> number).
Hypothesis totF_nil : totF (sumTotals []) = Fin 0.
Hypothesis totH_nil : totH (sumTotals []) = Fin 0.
Hypothesis totF_cons : forall f l,
  totF (sumTotals (f :: l)) = add (fnd f) (totF (sumTotals l)).
Hypothesis totH_cons : forall f l,
  totH (sumTotals (f :: l)) = add (ht f) (totH (sumTotals l)).
Hypothesis totF_app : forall a b,
  totF (sumTotals (a ++ b)) = add (totF (sumTotals a)) (totF (sumTotals b)).
Hypothesis totH_app : forall a b,
  totH (sumTotals (a ++ b)) = add (totH (sumTotals a)) (totH (sumTotals b)).

Lemma totals_real (l : list LcovFileData) :
  Forall (fun f => ge (fnd f) (ht f) = true) l ->
  exists F H, totF (sumTotals l) = Fin F /\ totH (sumTotals l) = Fin H /\
              H <= F /\ additional fnd ht l = Fin (F - H).
Proof.
  induction 1 as [|f l Hf _ (F & H & EF & EH & HFH & EA)].
  - exists 0, 0. repeat split; [assumption|assumption|lra|].
    unfold additional. simpl. f_equal. lra.
  - destruct (ge_inv _ _ Hf) as (x & y & Ex & Ey & Hxy).
    exists (x + F), (y + H).
    rewrite totF_cons, totH_cons, additional_cons, EF, EH, EA, Ex, Ey.
    repeat split; [lra|]. simpl. f_equal. lra.
Qed.

Lemma estimate_within (allFiles targets rest : list LcovFileData) :
  Forall (fun f => ge (fnd f) (ht f) = true) allFiles ->
  Permutation allFiles (targets ++ rest) ->
  ge (Fin 100)
     (round1
        (if gt (totF (sumTotals allFiles)) (Fin 0)
         then mul (div (add (totH (sumTotals allFiles))
                            (additional fnd ht targets))
                       (totF (sumTotals allFiles))) (Fin 100)
         else Fin 100))
  = true.
Proof.
  intros Hall Hp. rewrite (sumTotals_perm _ _ Hp), totF_app, totH_app.
  assert (Hall' : Forall (fun f => ge (fnd f) (ht f) = true) (targets ++ rest)).
  { eapply Permutation_Forall; [exact Hp|exact Hall]. }
  apply Forall_app in Hall' as [HT HR].
  destruct (totals_real targets HT) as (FT & HT' & -> & -> & H1 & ->).
  destruct (totals_real rest HR) as (FR & HR' & -> & -> & H2 & _).
  cbn [add lift2]. unfold gt.
  destruct (Rlt_dec 0 (FT + FR)) as [Hpos|_]; [|apply round1_within; lra].
  rewrite div_Fin by lra. cbn [mul lift2]. apply round1_within.
  apply Rmult_le_reg_r with ((FT + FR) / 100); [lra|].
  field_simplify; lra.
Qed.

End Category.

Context {B : Builtins}.

(** X30.  When no tally is counted twice, the estimate stays within full
    coverage: if the counters of the report are non-negative integers
    with totals of at most 2^53, every tally has hit <= found in each
    category and the target files are part of the report (as a
    multiset), the three estimated percentages are at most 100. *)
Theorem impact_within_full_coverage (allFiles rest : list LcovFileData)
  (paths : list jsstring) (i : Impact) :
  exactTotals allFiles ->
  Forall hitsWithinFound allFiles ->
  Permutation allFiles (targetFiles allFiles paths ++ rest) ->
  impactOf allFiles paths = Some i ->
  ge (Fin 100) (c_lines (i_estimatedCoverage i)) = true /\
  ge (Fin 100) (c_functions (i_estimatedCoverage i)) = true /\
  ge (Fin 100) (c_branches (i_estimatedCoverage i)) = true.
Proof.
  intros _ Hall Hp. unfold impactOf. cbv zeta.
  destruct (targetFiles allFiles paths) as [|t ts] eqn:Et; [discriminate|].
  intros H. injection H as <-.
  cbn [i_estimatedCoverage c_lines c_functions c_branches
       calculateOverallCoverage o_lines o_functions o_branches found hit].
  split; [|split].
  - apply (estimate_within linesFound linesHit t_linesFound t_linesHit)
      with (rest := rest); try assumption;
      try (intros; rewrite ?sumTotals_cons, ?sumTotals_app; reflexivity).
    eapply Forall_impl; [|exact Hall]. intros f Hf. apply Hf.
  - apply (estimate_within functionsFound functionsHit
             t_functionsFound t_functionsHit)
      with (rest := rest); try assumption;
      try (intros; rewrite ?sumTotals_cons, ?sumTotals_app; reflexivity).
    eapply Forall_impl; [|exact Hall]. intros f Hf. apply Hf.
  - apply (estimate_within branchesFound branchesHit
             t_branchesFound t_branchesHit)
      with (rest := rest); try assumption;
      try (intros; rewrite ?sumTotals_cons, ?sumTotals_app; reflexivity).
    eapply Forall_impl; [|exact Hall]. intros f Hf. apply Hf.
Qed.

End ImpactBound.

Section ImpactWitnesses.

Local Open Scope R_scope.

Lemma impact_adds_over_requests_witness :
  let a := mkLcov (js "a.ts") (Fin 10) (Fin 4) (Fin 0) (Fin 0) (Fin 0) (Fin 0) in
  exists i,
    @impactOf exampleHost [a] ([js "a.ts"] ++ [js "a.ts"]) = Some i /\
    i_filesAnalyzed i = [js "a.ts"] ++ [js "a.ts"] /\
    c_lines (i_additionalCoverage i)
    = add (add (Fin 0) (sub (Fin 10) (Fin 4)))
          (add (Fin 0) (sub (Fin 10) (Fin 4))).
Proof.
  intros a.
  assert (E : exactTotals (targetFiles [a] ([js "a.ts"] ++ [js "a.ts"]))).
  { change (targetFiles [a] ([js "a.ts"] ++ [js "a.ts"])) with [a; a].
    unfold exactTotals, exactSum, a.
    cbn [map linesFound linesHit functionsFound functionsHit
         branchesFound branchesHit].
    repeat split.
    - exists [10; 10]%Z. repeat split; [repeat constructor; lia|simpl; lia].
    - exists [4; 4]%Z. repeat split; [repeat constructor; lia|simpl; lia].
    - exists [0; 0]%Z. repeat split; [repeat constructor; lia|simpl; lia].
    - exists [0; 0]%Z. repeat split; [repeat constructor; lia|simpl; lia].
    - exists [0; 0]%Z. repeat split; [repeat constructor; lia|simpl; lia].
    - exists [0; 0]%Z. repeat split; [repeat constructor; lia|simpl; lia]. }
  destruct (@impact_adds_over_requests exampleHost [a] [js "a.ts"] [js "a.ts"]
              _ _ E eq_refl eq_refl) as (i & Ei & Hf & Hl & _).
  exists i. split; [exact Ei|]. split; [exact Hf|exact Hl].
Defined.

Lemma impact_within_full_coverage_witness :
  let a := mkLcov (js "a.ts") (Fin 10) (Fin 4) (Fin 0) (Fin 0) (Fin 0) (Fin 0) in
  let b := mkLcov (js "b.ts") (Fin 20) (Fin 20) (Fin 0) (Fin 0) (Fin 0) (Fin 0) in
  exists i,
    @impactOf exampleHost [a; b] [js "a.ts"] = Some i /\
    ge (Fin 100) (c_lines (i_estimatedCoverage i)) = true.
Proof.
  intros a b. eexists. split; [reflexivity|].
  apply (@impact_within_full_coverage exampleHost [a; b] [b] [js "a.ts"] _).
  - unfold exactTotals, exactSum, a, b.
    cbn [map linesFound linesHit functionsFound functionsHit
         branchesFound branchesHit].
    repeat split.
    + exists [10; 20]%Z. repeat split; [repeat constructor; lia|simpl; lia].
    + exists [4; 20]%Z. repeat split; [repeat constructor; lia|simpl; lia].
    + exists [0; 0]%Z. repeat split; [repeat constructor; lia|simpl; lia].
    + exists [0; 0]%Z. repeat split; [repeat constructor; lia|simpl; lia].
    + exists [0; 0]%Z. repeat split; [repeat constructor; lia|simpl; lia].
    + exists [0; 0]%Z. repeat split; [repeat constructor; lia|simpl; lia].
  - repeat constructor; apply ge_true; lra.
  - apply Permutation_refl.
  - reflexivity.
Defined.

End ImpactWitnesses.
